(** * LoLMatchProcessor: a shallow embedding and its verified properties

    The development follows [src/LoLMatchProcessor.py]:

    - the two fetch helpers [fetch_with_retry] and [_safe_get] (with
      [fetch_match_data] and [fetch_timeline_data]) run against a world that
      holds the remote API as an oracle, the log of requested URLs and the
      seconds spent in [time.sleep];
    - [get_14_min_stats] works on typed match and timeline payloads; a
      field the code reads with [.get] is an [option], a Python exception
      is the [Raise] outcome;
    - the six role-differential transforms work on a store of data frames,
      a data frame being its labelled rows plus the float columns added to
      it; [.loc[label, column] = v] writes every row carrying the label.
    - [process_matches_batch] runs on a machine made of that world and
      the checkpoint files; the extractor is a parameter of the runner,
      which sees it as a function of the payloads as fetched;
    - the two collectors [get_apex_puuids_ids] and
      [get_apex_tiers_match_ids] run against the same world; what pandas
      makes of a payload, and the seeded shuffle, are parameters.

    Python [int]s are [Z]. The integer columns of a table are [int64]
    columns: numpy's arithmetic on them wraps around at 64 bits. The float
    columns hold IEEE 754 binary64 numbers, with their two zeros and their
    rounding; [/] on integers is numpy's [true_divide]. The rational [real x]
    is the number a float stands for. *)

From stdpp Require Import base numbers list strings gmap sorting.
From Stdlib Require Import QArith Qabs SpecFloat.

Local Open Scope Z_scope.
Set Warnings "-register-all".

(** ** Python outcomes *)

Inductive exn : Type :=
  | KeyError
  | AttributeError
  | JSONDecodeError.

Inductive Result (A : Type) : Type :=
  | Ok (a : A)
  | Raise (e : exn).
Arguments Ok {A} a.
Arguments Raise {A} e.

(** ** Machine numbers *)

(** The values of an [int64] column. pandas gives this type to a column of
    JSON integers that fit in 64 bits, which the counts of a match do. *)
Definition int64 (n : Z) : Prop := - 2 ^ 63 ≤ n < 2 ^ 63.

#[global] Instance int64_dec n : Decision (int64 n).
Proof. unfold int64. apply _. Defined.

(** The 64-bit two's complement integer congruent to [n]. *)
Definition wrap64 (n : Z) : Z := (n + 2 ^ 63) mod 2 ^ 64 - 2 ^ 63.

(** [a + b], [a - b] and [abs(a)] on [int64] values: the result wraps
    around, so does [abs] at [-2^63]. *)
Definition int64_add (a b : Z) : Z := wrap64 (a + b).
Definition int64_sub (a b : Z) : Z := wrap64 (a - b).
Definition int64_abs (a : Z) : Z := wrap64 (Z.abs a).

(** A binary64 number: a signed zero, an infinity, a NaN, or a sign, a
    mantissa and an exponent. *)
Definition float64 : Type := spec_float.

(** [0.0]. *)
Definition fzero : float64 := S754_zero false.

(** The conversion of an [int64] value, rounded to nearest even. *)
Definition of_int64 (n : Z) : float64 := binary_normalize 53 1024 n 0 false.

Definition fadd (x y : float64) : float64 := SFadd 53 1024 x y.
Definition fdiv (x y : float64) : float64 := SFdiv 53 1024 x y.
Definition fneg (x : float64) : float64 := SFopp x.

(** [x == y] on floats: the two zeros are equal, a NaN equals nothing. *)
Definition feq (x y : float64) : bool := SFeqb x y.

(** [n / d] on [int64] values: both are converted, then divided. *)
Definition true_divide (n d : Z) : float64 := fdiv (of_int64 n) (of_int64 d).

(** The number a float stands for; 0 for an infinity or a NaN. *)
Definition real (x : float64) : Q :=
  match x with
  | S754_finite s m e =>
      let n := if s then Zneg m else Zpos m in
      if 0 <=? e then inject_Z (n * 2 ^ e) else n # Z.to_pos (2 ^ (- e))
  | _ => 0%Q
  end.

Definition finite (x : float64) : Prop :=
  match x with
  | S754_zero _ | S754_finite _ _ _ => True
  | _ => False
  end.

(** ** The fetch helpers *)

Module Http.

(** A parsed JSON document. *)
Inductive JSON : Type :=
  | JNull
  | JBool (b : bool)
  | JNum (n : Z)
  | JStr (s : string)
  | JArr (items : list JSON)
  | JObj (fields : list (string * JSON)).

(** [data.keys()]: only a dict has the method. *)
Definition keys (data : JSON) : Result (list string) :=
  match data with
  | JObj fields => Ok (map fst fields)
  | _ => Raise AttributeError
  end.

(** A response of [requests.get]: its status code and what [resp.json()]
    does, [None] when the body does not parse (the call raises). *)
Record Response : Type := mkResponse {
  status_code : Z;
  json : option JSON
}.

(** The world a fetch runs in. [net n url] is the response to the request
    for [url] issued after [n] earlier requests. *)
Record World : Type := mkWorld {
  net : nat → string → Response;
  sent : list string;
  slept : Z
}.

Definition requests_get (url : string) (w : World) : Response * World :=
  (net w (length (sent w)) url,
   {| net := net w; sent := sent w ++ [url]; slept := slept w |}).

Definition time_sleep (secs : Z) (w : World) : World :=
  {| net := net w; sent := sent w; slept := slept w + secs |}.

(** [fetch_with_retry]: the [while True] loop, one iteration per unit of
    fuel. The first component is [None] while the loop is still running
    when the fuel is spent, and [Some r] once the call has returned or
    raised. *)
Fixpoint fetch_with_retry (fuel : nat) (url : string) (w : World)
  : option (Result (option JSON)) * World :=
  match fuel with
  | O => (None, w)
  | S fuel' =>
      let '(resp, w) := requests_get url w in
      match json resp with
      | None => (Some (Ok None), w)
      | Some data =>
          if status_code resp =? 200 then
            match keys data with
            | Ok _ => (Some (Ok (Some data)), w)
            | Raise e => (Some (Raise e), w)
            end
          else if status_code resp =? 429 then
            fetch_with_retry fuel' url (time_sleep 10 w)
          else if status_code resp =? 403 then
            (Some (Ok None), w)
          else
            (Some (Ok None), w)
      end
  end.

(** [_safe_get]: the [for _ in range(max_retries)] loop. *)
Fixpoint _safe_get (url : string) (max_retries : nat) (w : World)
  : Result (option JSON) * World :=
  match max_retries with
  | O => (Ok None, w)
  | S n =>
      let '(resp, w) := requests_get url w in
      if status_code resp =? 200 then
        match json resp with
        | Some data => (Ok (Some data), w)
        | None => (Raise JSONDecodeError, w)
        end
      else if status_code resp =? 429 then
        _safe_get url n (time_sleep 10 w)
      else if bool_decide (status_code resp ∈ [403; 401; 404]) then
        (Ok None, w)
      else
        _safe_get url n w
  end.

Definition fetch_match_data (base_url match_id : string) (w : World)
  : Result (option JSON) * World :=
  let url := base_url +:+ "/" +:+ match_id in
  _safe_get url 3 w.

Definition fetch_timeline_data (base_url match_id : string) (w : World)
  : Result (option JSON) * World :=
  let url := base_url +:+ "/" +:+ match_id +:+ "/timeline" in
  _safe_get url 3 w.

(** The [i]-th response a call started in [w] gets for [url]. *)
Definition reply (w : World) (url : string) (i : nat) : Response :=
  net w (length (sent w) + i)%nat url.

(** The requests a call made: the URLs logged between [w] and [w']. *)
Definition requests_made (w w' : World) : nat :=
  (length (sent w') - length (sent w))%nat.

(** The world after [k] requests for [url] and [naps] seconds asleep. *)
Definition later (w : World) (url : string) (k : nat) (naps : Z) : World :=
  {| net := net w; sent := sent w ++ replicate k url;
     slept := slept w + naps |}.

(** How [_safe_get] treats a response that is not a 200: it gives up on
    401, 403 and 404, and goes on to the next attempt otherwise. *)
Definition gives_up (resp : Response) : Prop :=
  status_code resp ∈ [403; 401; 404].

Definition retried (resp : Response) : Prop :=
  status_code resp ≠ 200 ∧ ¬ gives_up resp.

(** The 429 responses among the first [k] replies. *)
Fixpoint throttles (w : World) (url : string) (k : nat) : Z :=
  match k with
  | O => 0
  | S k' =>
      throttles w url k' +
      (if status_code (reply w url k') =? 429 then 1 else 0)
  end.

(** A 429 whose body parses: the only response [fetch_with_retry]
    retries. *)
Definition throttled (resp : Response) : Prop :=
  status_code resp = 429 ∧ is_Some (json resp).

Definition is_object (data : JSON) : Prop :=
  match data with JObj _ => True | _ => False end.

(** The retry clause of the fetch contract, read for the first response:
    a 429 is followed by a 10 second sleep and the same request again. *)
Definition retries_after_429 (url : string) (w : World) : Prop :=
  status_code (reply w url 0) = 429 →
  ∀ fuel, fetch_with_retry (S fuel) url w =
          fetch_with_retry fuel url (later w url 1 10).

End Http.

(** ** The snapshot extractor: payloads *)

(** One entry of [match_data['info']['participants']], restricted to the
    six columns the extractor selects. *)
Module Summary.
Record t : Type := mk {
  participantId : Z;
  championName : string;
  teamId : Z;
  firstBloodKill : bool;
  teamPosition : string;
  win : bool
}.
End Summary.

(** One value of [frames[14]['participantFrames']], restricted to the
    fields that reach the output. *)
Module PFrame.
Record t : Type := mk {
  totalGold : Z;
  xp : Z;
  level : Z;
  minionsKilled : Z;
  jungleMinionsKilled : Z
}.
End PFrame.

(** A timeline event. Only [type] is read with [event['type']]; every
    other field is read with [event.get] and may be absent. *)
Module Event.
Record t : Type := mk {
  type : string;
  timestamp : option Z;
  killerId : option Z;
  victimId : option Z;
  assistingParticipantIds : option (list Z);
  buildingType : option string;
  killerTeamId : option Z;
  monsterType : option string;
  wardType : option string;
  creatorId : option Z
}.
End Event.

(** A timeline frame. The keys of [participantFrames] are given by their
    value under [int(id)]. *)
Record Frame : Type := mkFrame {
  participantFrames : option (list (Z * PFrame.t));
  events : option (list Event.t)
}.

(** [timeline_data]; [frames] is [None] when the key ['info'] or the key
    ['frames'] is missing, so that [timeline_data['info']['frames']] raises
    [KeyError]. *)
Record Timeline : Type := mkTimeline {
  frames : option (list Frame)
}.

Record MatchData : Type := mkMatchData {
  matchId : string;
  queueId : option Z;
  gameVersion : option string;
  participants : list Summary.t
}.

(** A row of the table [get_14_min_stats] returns, in the order of its
    columns. *)
Module Player.
Record t : Type := mk {
  match_id : string;
  participantId : Z;
  championName : string;
  totalGold : Z;
  goldPerMinute : float64;
  minionsKilled : Z;
  jungleMinionsKilled : Z;
  totalMinionsKilled : Z;
  csPerMinute : float64;
  xp : Z;
  level : Z;
  wards_placed : Z;
  kills_14 : Z;
  deaths_14 : Z;
  assists_14 : Z;
  platesTaken_14 : Z;
  towersKilled_14 : Z;
  firstBloodKill : Z;
  teamDragonKills_14 : Z;
  teamHordeKills_14 : Z;
  teamId : Z;
  teamPosition : string;
  win : Z
}.
End Player.

(** ** The snapshot extractor: event aggregation *)

(** The eight [defaultdict(int)] counters. [wards_placed] is keyed by
    [event.get('creatorId')], which may be [None]. *)
Record Counters : Type := mkCounters {
  kills_14 : gmap Z Z;
  deaths_14 : gmap Z Z;
  assists_14 : gmap Z Z;
  plates_taken : gmap Z Z;
  towers_killed : gmap Z Z;
  dragons : gmap Z Z;
  horde_kills : gmap Z Z;
  wards_placed : gmap (option Z) Z
}.

Definition no_counts : Counters :=
  mkCounters ∅ ∅ ∅ ∅ ∅ ∅ ∅ ∅.

(** [d[k]] on a [defaultdict(int)], and [series.map(d).fillna(0)]. *)
Definition count `{Countable K} (d : gmap K Z) (k : K) : Z :=
  default 0 (d !! k).

(** [d[k] += 1]. *)
Definition incr `{Countable K} (k : K) (d : gmap K Z) : gmap K Z :=
  <[k := count d k + 1]> d.

(** Truth value of [event.get(...)] for an id: [None] and [0] are false. *)
Definition truthy (id : option Z) : option Z :=
  match id with
  | Some i => if i =? 0 then None else Some i
  | None => None
  end.

Definition on_champion_kill (event : Event.t) (c : Counters) : Counters :=
  if decide (Event.type event = "CHAMPION_KILL") then
    let killer := Event.killerId event in
    let victim := Event.victimId event in
    let assist := default [] (Event.assistingParticipantIds event) in
    let k := match truthy killer with
             | Some id => incr id (kills_14 c)
             | None => kills_14 c
             end in
    let d := match truthy victim with
             | Some id => incr id (deaths_14 c)
             | None => deaths_14 c
             end in
    let a := foldl (λ acc aid, incr aid acc) (assists_14 c) assist in
    mkCounters k d a (plates_taken c) (towers_killed c) (dragons c)
               (horde_kills c) (wards_placed c)
  else c.

Definition on_plate (event : Event.t) (c : Counters) : Counters :=
  if decide (Event.type event = "TURRET_PLATE_DESTROYED") then
    match truthy (Event.killerId event) with
    | Some id =>
        mkCounters (kills_14 c) (deaths_14 c) (assists_14 c)
                   (incr id (plates_taken c)) (towers_killed c) (dragons c)
                   (horde_kills c) (wards_placed c)
    | None => c
    end
  else c.

Definition on_tower (event : Event.t) (c : Counters) : Counters :=
  if bool_decide (Event.type event = "BUILDING_KILL") &&
     bool_decide (Event.buildingType event = Some "TOWER_BUILDING") then
    match truthy (Event.killerId event) with
    | Some id =>
        mkCounters (kills_14 c) (deaths_14 c) (assists_14 c)
                   (plates_taken c) (incr id (towers_killed c)) (dragons c)
                   (horde_kills c) (wards_placed c)
    | None => c
    end
  else c.

Definition on_elite_monster (event : Event.t) (c : Counters) : Counters :=
  if decide (Event.type event = "ELITE_MONSTER_KILL") then
    match truthy (Event.killerTeamId event) with
    | Some team_id =>
        if decide (Event.monsterType event = Some "DRAGON") then
          mkCounters (kills_14 c) (deaths_14 c) (assists_14 c)
                     (plates_taken c) (towers_killed c)
                     (incr team_id (dragons c)) (horde_kills c)
                     (wards_placed c)
        else if decide (Event.monsterType event = Some "HORDE") then
          mkCounters (kills_14 c) (deaths_14 c) (assists_14 c)
                     (plates_taken c) (towers_killed c) (dragons c)
                     (incr team_id (horde_kills c)) (wards_placed c)
        else c
    | None => c
    end
  else c.

Definition on_ward (event : Event.t) (c : Counters) : Counters :=
  if decide (Event.type event = "WARD_PLACED") then
    let ward_type := Event.wardType event in
    let pid := Event.creatorId event in
    if bool_decide (ward_type ∈ [Some "YELLOW_TRINKET"; Some "BLUE_TRINKET";
                                 Some "CONTROL_WARD"]) then
      mkCounters (kills_14 c) (deaths_14 c) (assists_14 c)
                 (plates_taken c) (towers_killed c) (dragons c)
                 (horde_kills c) (incr pid (wards_placed c))
    else c
  else c.

(** The five independent [if]s on the event type, in their order. *)
Definition dispatch (event : Event.t) (c : Counters) : Counters :=
  on_ward event
    (on_elite_monster event
       (on_tower event (on_plate event (on_champion_kill event c)))).

(** The body of the inner loop: the timestamp guard, then the dispatch. *)
Definition count_event (c : Counters) (event : Event.t) : Counters :=
  let t := default 0 (Event.timestamp event) in
  if 840000 <? t then c
  else dispatch event c.

Definition count_frame (c : Counters) (frame : Frame) : Counters :=
  foldl count_event c (default [] (events frame)).

(** [for frame in frames[:15]: for event in frame.get('events', [])]. *)
Definition aggregate (frames : list Frame) : Counters :=
  foldl count_frame no_counts (take 15 frames).

(** The aggregation window in the words of the specification: the events
    of frames 0 to 14 whose timestamp is at most 840000 ms, in order. *)
Definition in_time (event : Event.t) : Prop :=
  default 0 (Event.timestamp event) ≤ 840000.

#[global] Instance in_time_dec event : Decision (in_time event).
Proof. unfold in_time. apply _. Defined.

Definition window (frames : list Frame) : list Event.t :=
  flat_map (λ frame, filter in_time (default [] (events frame)))
           (take 15 frames).

(** The champion kills of the window credited to participant [p]. *)
Definition kills_by (p : Z) (event : Event.t) : Prop :=
  Event.type event = "CHAMPION_KILL" ∧ Event.killerId event = Some p.

#[global] Instance kills_by_dec p event : Decision (kills_by p event).
Proof. unfold kills_by. apply _. Defined.

(** ** The snapshot extractor: [get_14_min_stats] *)

(** [participants.merge(minute14_df, on='participantId')]: the inner
    join, one row per pair of a summary row and a frame entry with the same
    [participantId], in the order of the summary rows. *)
Definition merge (participants : list Summary.t)
    (minute14 : list (Z * PFrame.t)) : list (Summary.t * PFrame.t) :=
  flat_map
    (λ s, map (λ e, (s, e.2))
              (filter (λ e, e.1 = Summary.participantId s) minute14))
    participants.

(** [.astype(int)] on a boolean column. *)
Definition int_of_bool (b : bool) : Z := if b then 1 else 0.

(** The columns computed for one joined row, and the final selection. *)
Definition snapshot (match_data : MatchData) (c : Counters)
    (row : Summary.t * PFrame.t) : Player.t :=
  let s := row.1 in
  let f := row.2 in
  let pid := Summary.participantId s in
  let team := Summary.teamId s in
  {| Player.match_id := matchId match_data;
     Player.participantId := pid;
     Player.championName := Summary.championName s;
     Player.totalGold := PFrame.totalGold f;
     Player.goldPerMinute := true_divide (PFrame.totalGold f) 14;
     Player.minionsKilled := PFrame.minionsKilled f;
     Player.jungleMinionsKilled := PFrame.jungleMinionsKilled f;
     Player.totalMinionsKilled :=
       int64_add (PFrame.minionsKilled f) (PFrame.jungleMinionsKilled f);
     Player.csPerMinute :=
       true_divide
         (int64_add (PFrame.minionsKilled f) (PFrame.jungleMinionsKilled f))
         14;
     Player.xp := PFrame.xp f;
     Player.level := PFrame.level f;
     Player.wards_placed := count (wards_placed c) (Some pid);
     Player.kills_14 := count (kills_14 c) pid;
     Player.deaths_14 := count (deaths_14 c) pid;
     Player.assists_14 := count (assists_14 c) pid;
     Player.platesTaken_14 := count (plates_taken c) pid;
     Player.towersKilled_14 := count (towers_killed c) pid;
     Player.firstBloodKill := int_of_bool (Summary.firstBloodKill s);
     Player.teamDragonKills_14 := count (dragons c) team;
     Player.teamHordeKills_14 := count (horde_kills c) team;
     Player.teamId := team;
     Player.teamPosition :=
       (if decide (Summary.teamPosition s = "UTILITY") then "SUPPORT"
        else Summary.teamPosition s);
     Player.win := int_of_bool (Summary.win s) |}.

(** [get_14_min_stats]. An empty [pd.DataFrame()] is [Ok []].
    [pd.json_normalize] of an empty list has no columns, so selecting the
    six summary columns, or merging on [participantId], raises [KeyError]
    then. [fs !! 14] is [None] exactly when [len(frames) <= 14]. *)
Definition get_14_min_stats (match_id : string) (match_data : MatchData)
    (timeline_data : Timeline) : Result (list Player.t) :=
  let queue_id := queueId match_data in
  let game_version := default "" (gameVersion match_data) in
  if String.prefix "15.9" game_version then Ok []
  else if negb (bool_decide (queue_id = Some 420)) then Ok []
  else
    match frames timeline_data with
    | None => Raise KeyError
    | Some fs =>
        match participants match_data with
        | [] => Raise KeyError
        | _ :: _ =>
            match fs !! 14%nat with
            | None => Ok []
            | Some frame14 =>
                match participantFrames frame14 with
                | None => Ok []
                | Some [] => Raise KeyError
                | Some frame14_data =>
                    let players :=
                      merge (participants match_data) frame14_data in
                    let c := aggregate fs in
                    Ok (map (snapshot match_data c) players)
                end
            end
        end
    end.

(** A match the three eligibility filters let through. *)
Definition eligible (match_data : MatchData) (fs : list Frame)
    (frame14_data : list (Z * PFrame.t)) : Prop :=
  String.prefix "15.9" (default "" (gameVersion match_data)) = false ∧
  queueId match_data = Some 420 ∧
  ∃ frame14, fs !! 14%nat = Some frame14 ∧
             participantFrames frame14 = Some frame14_data.

(** The roster property in the words of the specification: a call
    returns exactly 10 rows or 0 rows. *)
Definition whole_or_empty (res : Result (list Player.t)) : Prop :=
  ∃ players, res = Ok players ∧
             (length players = 10%nat ∨ length players = 0%nat).

(** ** The role-differential transforms *)

(** A players table: the rows with their index labels, and the float
    columns added after extraction, by name, in the order of insertion.
    The tables of the batch runner carry the default index (it concatenates
    with [ignore_index=True]), whose labels are pairwise distinct; the model
    allows any labels, since [.loc] goes by label. *)
Record DataFrame : Type := mkDataFrame {
  rows : list (Z * Player.t);
  columns : list (string * list float64)
}.

Fixpoint getitem (name : string) (cols : list (string * list float64))
  : option (list float64) :=
  match cols with
  | [] => None
  | c :: cols' => if decide (c.1 = name) then Some c.2 else getitem name cols'
  end.

Fixpoint setitem (name : string) (col : list float64)
    (cols : list (string * list float64)) : list (string * list float64) :=
  match cols with
  | [] => [(name, col)]
  | c :: cols' =>
      if decide (c.1 = name) then (name, col) :: cols'
      else c :: setitem name col cols'
  end.

(** [df[name] = v], a scalar broadcast to every row. *)
Definition assign_scalar (name : string) (v : float64) (df : DataFrame)
  : DataFrame :=
  mkDataFrame (rows df) (setitem name (map (λ _, v) (rows df)) (columns df)).

(** [df.loc[label, name] = v] for an existing column: every row whose
    index label is [label] is written. *)
Definition loc_assign (label : Z) (name : string) (v : float64)
    (df : DataFrame) : DataFrame :=
  match getitem name (columns df) with
  | Some col =>
      mkDataFrame (rows df)
        (setitem name
           (zip_with (λ r q, if decide (r.1 = label) then v else q)
                     (rows df) col)
           (columns df))
  | None => df
  end.

(** The value of column [name] in the row at position [i]. *)
Definition cell (name : string) (i : nat) (df : DataFrame)
  : option float64 :=
  col ← getitem name (columns df); col !! i.

(** Order of the group keys: [groupby] sorts them. *)
Definition str_le (a b : string) : Prop := String.leb a b.

#[global] Instance str_le_dec : RelDecision str_le.
Proof. intros a b. unfold str_le. apply _. Defined.

(** [df.groupby(key)]: the distinct keys in sorted order, each with its
    rows in their original order. *)
Definition groupby (key : Player.t → string) (rs : list (Z * Player.t))
  : list (string * list (Z * Player.t)) :=
  map (λ k, (k, filter (λ r, key r.2 = k) rs))
      (merge_sort str_le (remove_dups (map (λ r, key r.2) rs))).

(** The store of data frame objects; a variable holds a reference. *)
Abbreviation Store := (gmap positive DataFrame).

(** [players.copy()]: a new object with the same contents. *)
Definition copy (players : positive) (σ : Store)
  : option (positive * Store) :=
  df ← σ !! players;
  let fresh_ref := fresh (dom σ) in
  Some (fresh_ref, <[fresh_ref := df]> σ).

(** The body of the inner loop for one role group. The two values are
    [numpy.int64] scalars: [-] and [abs] wrap around, [/ 2] converts to
    binary64 and divides, the unary [-] flips the sign, of a zero too. *)
Definition pair_up (value : Player.t → Z) (out : string)
    (players : positive) (σ : Store) (role_group : list (Z * Player.t))
  : Store :=
  match role_group with
  | [p1; p2] =>
      let diff := int64_sub (value p1.2) (value p2.2) in
      let half_diff := true_divide (int64_abs diff) 2 in
      if 0 <? diff then
        alter (loc_assign p2.1 out (fneg half_diff)) players
          (alter (loc_assign p1.1 out half_diff) players σ)
      else
        alter (loc_assign p2.1 out half_diff) players
          (alter (loc_assign p1.1 out (fneg half_diff)) players σ)
  | _ => σ
  end.

(** The common text of the six transforms; they differ in the column
    read and the column written. [None] only for a dangling reference. *)
Definition role_diff (value : Player.t → Z) (out : string)
    (players : positive) (σ : Store) : option (positive * Store) :=
  '(players, σ) ← copy players σ;
  let σ := alter (assign_scalar out fzero) players σ in
  df ← σ !! players;
  let σ :=
    foldl (λ σ by_match,
             foldl (λ σ by_role, pair_up value out players σ by_role.2)
                   σ (groupby Player.teamPosition by_match.2))
          σ (groupby Player.match_id (rows df)) in
  Some (players, σ).

Definition role_gold_diff := role_diff Player.totalGold "roleGoldDiff".
Definition role_xp_diff := role_diff Player.xp "roleXpDiff".
Definition role_cs_diff := role_diff Player.totalMinionsKilled "roleCsDiff".
Definition role_kill_diff := role_diff Player.kills_14 "roleKillDiff".
Definition role_deaths_diff := role_diff Player.deaths_14 "roleDeathsDiff".
Definition role_vision_diff := role_diff Player.wards_placed "roleVisionDiff".

(** The six transforms, their source column and their output column. *)
Inductive Transform : Type :=
  | Gold | Xp | Cs | Kill | Deaths | Vision.

Definition run (t : Transform)
  : positive → Store → option (positive * Store) :=
  match t with
  | Gold => role_gold_diff
  | Xp => role_xp_diff
  | Cs => role_cs_diff
  | Kill => role_kill_diff
  | Deaths => role_deaths_diff
  | Vision => role_vision_diff
  end.

Definition value_column (t : Transform) : Player.t → Z :=
  match t with
  | Gold => Player.totalGold
  | Xp => Player.xp
  | Cs => Player.totalMinionsKilled
  | Kill => Player.kills_14
  | Deaths => Player.deaths_14
  | Vision => Player.wards_placed
  end.

Definition output_column (t : Transform) : string :=
  match t with
  | Gold => "roleGoldDiff"
  | Xp => "roleXpDiff"
  | Cs => "roleCsDiff"
  | Kill => "roleKillDiff"
  | Deaths => "roleDeathsDiff"
  | Vision => "roleVisionDiff"
  end.

(** The rows of match [m] with position [r], in table order: the role
    group the two nested [groupby] loops reach for these keys. *)
Definition role_group (m r : string) (rs : list (Z * Player.t))
  : list (Z * Player.t) :=
  filter (λ row, Player.teamPosition row.2 = r)
         (filter (λ row, Player.match_id row.2 = m) rs).

(** ** The written column as a function of the row *)

(** The frame [df] with column [out] holding [f row] in every row. *)
Definition written (f : Z * Player.t → float64) (out : string)
    (df : DataFrame) : DataFrame :=
  mkDataFrame (rows df) (setitem out (map f (rows df)) (columns df)).

(** The effect of one [.loc[label, out] = v] on these values. *)
Definition upd (label : Z) (v : float64) (f : Z * Player.t → float64)
  : Z * Player.t → float64 :=
  λ r, if decide (r.1 = label) then v else f r.

(** The effect of the loop body for one role group. *)
Definition pair_write (value : Player.t → Z)
    (f : Z * Player.t → float64) (group : list (Z * Player.t))
  : Z * Player.t → float64 :=
  match group with
  | [p1; p2] =>
      let diff := int64_sub (value p1.2) (value p2.2) in
      let half_diff := true_divide (int64_abs diff) 2 in
      if 0 <? diff then upd p2.1 (fneg half_diff) (upd p1.1 half_diff f)
      else upd p2.1 half_diff (upd p1.1 (fneg half_diff) f)
  | _ => f
  end.

(** The role groups in the order the two nested loops visit them. *)
Definition role_groups (rs : list (Z * Player.t))
  : list (list (Z * Player.t)) :=
  flat_map (λ by_match, map snd (groupby Player.teamPosition by_match.2))
           (groupby Player.match_id rs).

(** ** The counters as counts of events *)

(** What an event of the window is credited for. A participant or team id
    read with a truth test ([if killer:]) is never 0. *)
Definition deaths_of (p : Z) (event : Event.t) : Prop :=
  Event.type event = "CHAMPION_KILL" ∧ Event.victimId event = Some p.

Definition assists_of (p : Z) (event : Event.t) : nat :=
  if decide (Event.type event = "CHAMPION_KILL") then
    length (filter (λ aid, aid = p)
                   (default [] (Event.assistingParticipantIds event)))
  else 0%nat.

Definition plates_by (p : Z) (event : Event.t) : Prop :=
  Event.type event = "TURRET_PLATE_DESTROYED" ∧
  Event.killerId event = Some p.

Definition towers_by (p : Z) (event : Event.t) : Prop :=
  Event.type event = "BUILDING_KILL" ∧
  Event.buildingType event = Some "TOWER_BUILDING" ∧
  Event.killerId event = Some p.

Definition dragons_by (team : Z) (event : Event.t) : Prop :=
  Event.type event = "ELITE_MONSTER_KILL" ∧
  Event.killerTeamId event = Some team ∧
  Event.monsterType event = Some "DRAGON".

Definition horde_by (team : Z) (event : Event.t) : Prop :=
  Event.type event = "ELITE_MONSTER_KILL" ∧
  Event.killerTeamId event = Some team ∧
  Event.monsterType event = Some "HORDE".

Definition wards_by (pid : option Z) (event : Event.t) : Prop :=
  Event.type event = "WARD_PLACED" ∧
  Event.wardType event ∈ [Some "YELLOW_TRINKET"; Some "BLUE_TRINKET";
                           Some "CONTROL_WARD"] ∧
  Event.creatorId event = pid.

#[global] Instance deaths_of_dec p event : Decision (deaths_of p event).
Proof. unfold deaths_of. apply _. Defined.
#[global] Instance plates_by_dec p event : Decision (plates_by p event).
Proof. unfold plates_by. apply _. Defined.
#[global] Instance towers_by_dec p event : Decision (towers_by p event).
Proof. unfold towers_by. apply _. Defined.
#[global] Instance dragons_by_dec p event : Decision (dragons_by p event).
Proof. unfold dragons_by. apply _. Defined.
#[global] Instance horde_by_dec p event : Decision (horde_by p event).
Proof. unfold horde_by. apply _. Defined.
#[global] Instance wards_by_dec p event : Decision (wards_by p event).
Proof. unfold wards_by. apply _. Defined.

(** The event types the loop body looks at. *)
Definition handled_types : list string :=
  ["CHAMPION_KILL"; "TURRET_PLATE_DESTROYED"; "BUILDING_KILL";
   "ELITE_MONSTER_KILL"; "WARD_PLACED"].

(** The number of events of a list that satisfy [P]. *)
Definition tally {A} (P : A → Prop) `{∀ x, Decision (P x)} (l : list A) : Z :=
  Z.of_nat (length (filter P l)).

(** [if id: d[id] += 1]. *)
Definition credit (id : option Z) (d : gmap Z Z) : gmap Z Z :=
  match truthy id with
  | Some i => incr i d
  | None => d
  end.

(** The loop body counter by counter: what [dispatch] leaves in each of
    the eight counters, written without the sequence of [if]s. *)
Definition event_counts (event : Event.t) (c : Counters) : Counters :=
  let champion_kill := bool_decide (Event.type event = "CHAMPION_KILL") in
  let monster_kill := bool_decide (Event.type event = "ELITE_MONSTER_KILL") in
  let team := truthy (Event.killerTeamId event) in
  mkCounters
    (if champion_kill then credit (Event.killerId event) (kills_14 c)
     else kills_14 c)
    (if champion_kill then credit (Event.victimId event) (deaths_14 c)
     else deaths_14 c)
    (if champion_kill then
       foldl (λ acc aid, incr aid acc) (assists_14 c)
             (default [] (Event.assistingParticipantIds event))
     else assists_14 c)
    (if bool_decide (Event.type event = "TURRET_PLATE_DESTROYED") then
       credit (Event.killerId event) (plates_taken c)
     else plates_taken c)
    (if bool_decide (Event.type event = "BUILDING_KILL") &&
        bool_decide (Event.buildingType event = Some "TOWER_BUILDING") then
       credit (Event.killerId event) (towers_killed c)
     else towers_killed c)
    (match team with
     | Some team_id =>
         if monster_kill &&
            bool_decide (Event.monsterType event = Some "DRAGON") then
           incr team_id (dragons c)
         else dragons c
     | None => dragons c
     end)
    (match team with
     | Some team_id =>
         if monster_kill &&
            bool_decide (Event.monsterType event = Some "HORDE") then
           incr team_id (horde_kills c)
         else horde_kills c
     | None => horde_kills c
     end)
    (if bool_decide (Event.type event = "WARD_PLACED") &&
        bool_decide (Event.wardType event ∈
                       [Some "YELLOW_TRINKET"; Some "BLUE_TRINKET";
                        Some "CONTROL_WARD"]) then
       incr (Event.creatorId event) (wards_placed c)
     else wards_placed c).

(** The value the loops leave in a row, read off the row's own group. *)
Definition pair_value (value : Player.t → Z) (group : list (Z * Player.t))
    (r : Z * Player.t) : float64 :=
  match group with
  | [p1; p2] =>
      let diff := int64_sub (value p1.2) (value p2.2) in
      let half_diff := true_divide (int64_abs diff) 2 in
      if decide (r.1 = p1.1) then
        (if 0 <? diff then half_diff else fneg half_diff)
      else
        (if 0 <? diff then fneg half_diff else half_diff)
  | _ => fzero
  end.

(** ** The role differentials in the words of the specification *)

(** The column a transform reads is an [int64] column: each of its values
    fits in 64 bits. A column with a value outside this range has another
    type in pandas ([uint64] or [object]), with another arithmetic. *)
Definition int64_column (value : Player.t → Z) (rs : list (Z * Player.t))
  : Prop :=
  Forall (λ r, int64 (value r.2)) rs.

#[global] Instance int64_column_dec value rs :
  Decision (int64_column value rs).
Proof. unfold int64_column. apply _. Defined.

(** [output[p1] + output[p2] == 0.0], for the rows at the positions [i]
    and [j] of the returned table. *)
Definition zero_sum (out : string) (df' : DataFrame) (i j : nat) : Prop :=
  ∃ out1 out2,
    cell out i df' = Some out1 ∧ cell out j df' = Some out2 ∧
    feq (fadd out1 out2) fzero = true.

(** [|output[p1] - output[p2]|] is [|value[p1] - value[p2]|], as
    numbers. *)
Definition same_gap (out : string) (df' : DataFrame) (i j : nat)
    (v1 v2 : Z) : Prop :=
  ∃ out1 out2,
    cell out i df' = Some out1 ∧ cell out j df' = Some out2 ∧
    (Qabs (real out1 - real out2) == inject_Z (Z.abs (v1 - v2)))%Q.

(** The sign rule: with [diff = v1 - v2] and [half = |diff| / 2], the row
    at [i] gets [+half] and the row at [j] gets [-half] if [diff > 0], and
    the other way round otherwise; on a tie both are equal to [0.0]. *)
Definition sign_rule (out : string) (df' : DataFrame) (i j : nat)
    (v1 v2 : Z) : Prop :=
  let diff := v1 - v2 in
  let half := true_divide (Z.abs diff) 2 in
  (0 < diff →
   cell out i df' = Some half ∧ cell out j df' = Some (fneg half)) ∧
  (diff ≤ 0 →
   cell out i df' = Some (fneg half) ∧ cell out j df' = Some half) ∧
  (diff = 0 → feq half fzero = true ∧ feq (fneg half) fzero = true).

(** The output of the row at position [i] is equal to [0.0]. *)
Definition zero_at (out : string) (df' : DataFrame) (i : nat) : Prop :=
  ∃ v, cell out i df' = Some v ∧ feq v fzero = true.

(** ** The batch runner: [process_matches_batch] *)

Module Batch.
Import Http.

(** What escapes the runner. Its [try] catches every exception of the
    per-match work, so only the runner's own calls can raise: [range] with
    a zero step and [time.sleep] with a negative length, both with
    [ValueError]. *)
Inductive Outcome (A : Type) : Type :=
  | Returned (a : A)
  | ValueError.
Arguments Returned {A} a.
Arguments ValueError {A}.

(** The machine the runner works on: the remote API and the clock, and the
    files by path. A CSV file is the rows it holds; [to_csv] is called with
    [index=False] and leaves the index labels out. *)
Record Machine : Type := mkMachine {
  world : World;
  disk : gmap string (list Player.t)
}.

(** [len(range(0, stop, step))] for a step that is not zero. *)
Definition range_len (stop step : Z) : nat :=
  if decide (0 < step) then
    (if decide (0 < stop) then Z.to_nat ((stop - 1) / step + 1) else 0%nat)
  else
    (if decide (stop < 0) then Z.to_nat ((- stop - 1) / (- step) + 1)
     else 0%nat).

(** [range(0, stop, step)]. *)
Definition range (stop step : Z) : Outcome (list Z) :=
  if decide (step = 0) then ValueError
  else Returned (map (λ k, Z.of_nat k * step) (seq 0 (range_len stop step))).

Definition match_url (match_id : string) : string :=
  "https://americas.api.riotgames.com/lol/match/v5/matches/" +:+ match_id.

Definition timeline_url (match_id : string) : string :=
  "https://americas.api.riotgames.com/lol/match/v5/matches/" +:+ match_id
    +:+ "/timeline".

(** The payload that passes [not data or 'info' not in data]. What
    [fetch_with_retry] returns is [None] or a dict, since it has called
    [data.keys()]; an empty dict is falsy and has no ['info'] either. *)
Definition with_info (data : option JSON) : option JSON :=
  match data with
  | Some (JObj fields) =>
      if bool_decide ("info" ∈ map fst fields) then data else None
  | _ => None
  end.

(** A dict with the key ['info']. *)
Definition has_info (data : JSON) : Prop :=
  ∃ fields, data = JObj fields ∧ "info" ∈ map fst fields.

(** [pd.concat(all_data, ignore_index=True)]: the rows of the tables one
    after the other, under a fresh default index. *)
Definition concat_ignore_index (all_data : list (list Player.t))
  : DataFrame :=
  mkDataFrame (imap (λ i p, (Z.of_nat i, p)) (concat all_data)) [].

(** [pd.DataFrame()]. *)
Definition empty_frame : DataFrame := mkDataFrame [] [].

(** [if checkpoint_path and all_data:] followed by the two lines that
    write the file. *)
Definition save_checkpoint (checkpoint_path : option string)
    (all_data : list (list Player.t)) (d : gmap string (list Player.t))
  : gmap string (list Player.t) :=
  match checkpoint_path, all_data with
  | Some path, _ :: _ =>
      if decide (path = "") then d
      else <[path := map snd (rows (concat_ignore_index all_data))]> d
  | _, _ => d
  end.

Section runner.

(** [self.get_14_min_stats(match_id, match_data, timeline_data)] as the
    runner sees it: a function of the id and the two payloads as fetched,
    which returns a table or raises. *)
Variable extract : string → JSON → JSON → Result (list Player.t).

(** The body of the inner loop for one match. The first component is
    [None] when a fetch is still running after [fuel] iterations. *)
Definition process_match (fuel : nat) (match_id : string)
    (all_data : list (list Player.t)) (w : World)
  : option (list (list Player.t)) * World :=
  match fetch_with_retry fuel (match_url match_id) w with
  | (None, w) => (None, w)
  | (Some (Raise _), w) => (Some all_data, w)
  | (Some (Ok match_data), w) =>
      match with_info match_data with
      | None => (Some all_data, w)
      | Some match_data =>
          match fetch_with_retry fuel (timeline_url match_id) w with
          | (None, w) => (None, w)
          | (Some (Raise _), w) => (Some all_data, w)
          | (Some (Ok timeline_data), w) =>
              match with_info timeline_data with
              | None => (Some all_data, w)
              | Some timeline_data =>
                  match extract match_id match_data timeline_data with
                  | Raise _ => (Some all_data, w)
                  | Ok [] => (Some all_data, w)
                  | Ok df => (Some (all_data ++ [df]), w)
                  end
              end
          end
      end
  end.

(** [for j, match_id in enumerate(batch, 1)]. *)
Fixpoint process_batch (fuel : nat) (batch : list string)
    (all_data : list (list Player.t)) (w : World)
  : option (list (list Player.t)) * World :=
  match batch with
  | [] => (Some all_data, w)
  | match_id :: batch' =>
      match process_match fuel match_id all_data w with
      | (None, w) => (None, w)
      | (Some all_data, w) => process_batch fuel batch' all_data w
      end
  end.

(** [for i in range(0, len(match_ids), batch_size)], over the values of
    the range that are left. *)
Fixpoint batches (fuel : nat) (match_ids : list string) (batch_size : Z)
    (pause_time : Z) (checkpoint_path : option string) (starts : list Z)
    (all_data : list (list Player.t)) (m : Machine)
  : option (Outcome (list (list Player.t))) * Machine :=
  match starts with
  | [] => (Some (Returned all_data), m)
  | i :: starts' =>
      let batch :=
        take (Z.to_nat batch_size) (drop (Z.to_nat i) match_ids) in
      match process_batch fuel batch all_data (world m) with
      | (None, w) => (None, mkMachine w (disk m))
      | (Some all_data, w) =>
          let d := save_checkpoint checkpoint_path all_data (disk m) in
          if decide (i + batch_size < Z.of_nat (length match_ids)) then
            if decide (pause_time < 0) then
              (Some ValueError, mkMachine w d)
            else
              batches fuel match_ids batch_size pause_time checkpoint_path
                starts' all_data (mkMachine (time_sleep pause_time w) d)
          else
            batches fuel match_ids batch_size pause_time checkpoint_path
              starts' all_data (mkMachine w d)
      end
  end.

Definition process_matches_batch (fuel : nat) (match_ids : list string)
    (batch_size : Z) (pause_time : Z) (checkpoint_path : option string)
    (m : Machine) : option (Outcome DataFrame) * Machine :=
  match range (Z.of_nat (length match_ids)) batch_size with
  | ValueError => (Some ValueError, m)
  | Returned starts =>
      match batches fuel match_ids batch_size pause_time checkpoint_path
              starts [] m with
      | (None, m) => (None, m)
      | (Some ValueError, m) => (Some ValueError, m)
      | (Some (Returned []), m) => (Some (Returned empty_frame), m)
      | (Some (Returned all_data), m) =>
          (Some (Returned (concat_ignore_index all_data)), m)
      end
  end.

End runner.

(** The number of pauses of a run over [n] ids: one after each batch but
    the last, that is one less than the ids divided by the batch size and
    rounded up. *)
Definition pauses (n : nat) (batch_size : Z) : Z :=
  Z.max 0 ((Z.of_nat n + batch_size - 1) / batch_size - 1).

(** The network stops rate limiting: from the [N]-th request on, no reply
    is a 429 with a JSON body. *)
Definition quiet_from (N : nat) (w : World) : Prop :=
  ∀ n url, (N ≤ n)%nat → ¬ throttled (net w n url).

(** What [calls] fetches leave behind when the network is [quiet_from N]:
    the same network, [calls] requests plus the retried ones, which were
    all sent before the [N]-th request, and 10 seconds of sleep for each
    retry. *)
Definition fetched (N calls : nat) (w w' : World) : Prop :=
  net w' = net w ∧
  ∃ retries : nat,
    length (sent w') = (length (sent w) + calls + retries)%nat ∧
    slept w' = slept w + 10 * Z.of_nat retries ∧
    (retries = 0 ∨ length (sent w) + retries ≤ N)%nat.

(** The worlds a run passes through: the network stays as it is and the
    log of requests grows at its end. *)
Definition extends (w w' : World) : Prop :=
  net w' = net w ∧ sent w `prefix_of` sent w'.

(** In the log of [w], from request [first] on: a request for the summary
    of [match_id] answered by a 200 with body [match_data], and later a
    request for its timeline answered by a 200 with body
    [timeline_data]. *)
Definition fetched_pair (w : World) (first : nat) (match_id : string)
    (match_data timeline_data : JSON) : Prop :=
  ∃ i j, (first ≤ i < j)%nat ∧
    sent w !! i = Some (match_url match_id) ∧
    sent w !! j = Some (timeline_url match_id) ∧
    net w i (match_url match_id) = mkResponse 200 (Some match_data) ∧
    net w j (timeline_url match_id) = mkResponse 200 (Some timeline_data).

(** The extractor on payloads that are read as typed payloads. *)
Definition extract_typed (match_of : JSON → MatchData)
    (timeline_of : JSON → Timeline) (match_id : string) (m t : JSON)
  : Result (list Player.t) :=
  get_14_min_stats match_id (match_of m) (timeline_of t).

End Batch.

(** ** The apex-tier collectors: [get_apex_puuids_ids] and
    [get_apex_tiers_match_ids] *)

Module Apex.
Import Http.

(** What the collectors can raise; they have no [try]. [Builtin] carries
    the exceptions of the code's own calls: [resp.json()] on a body that
    does not parse, [.get] on a payload that is not a dict, the selection
    of a missing column. [ValueError] is [time.sleep] with a negative
    length. [PandasError] stands for whatever pandas raises on a payload it
    cannot tabulate. *)
Inductive error : Type :=
  | Builtin (e : exn)
  | ValueError
  | PandasError.

Inductive Run (A : Type) : Type :=
  | Done (a : A)
  | Failed (e : error).
Arguments Done {A} a.
Arguments Failed {A} e.

(** A frame of league entries, as far as the code looks at it: its number
    of rows and its column [puuid], when it has one. A missing value is
    [None]. *)
Record Entries : Type := mkEntries {
  height : nat;
  puuid : option (list (option string))
}.

(** The rows that are kept when duplicates are dropped: the first one for
    each key, in the order of the list. *)
Fixpoint keep_first {A} (key : A → string) (seen : list string)
    (l : list A) : list A :=
  match l with
  | [] => []
  | x :: l' =>
      if decide (key x ∈ seen) then keep_first key seen l'
      else x :: keep_first key (key x :: seen) l'
  end.

(** [.drop_duplicates()] on a frame with the one column [match_id]; the
    rows keep their index labels. *)
Definition drop_duplicates (df : list (nat * string)) : list (nat * string) :=
  keep_first snd [] df.

(** [.dropna()] and [.unique()] on a column. *)
Definition dropna (col : list (option string)) : list string :=
  omap id col.

Definition unique (col : list string) : list string :=
  keep_first id [] col.

(** [df.iloc[start:stop]] for bounds that are not negative. *)
Definition iloc {A} (start stop : nat) (df : list A) : list A :=
  take (stop - start) (drop start df).

(** [d.get(key)] on the fields of a dict. *)
Fixpoint dict_get (key : string) (fields : list (string * JSON))
  : option JSON :=
  match fields with
  | [] => None
  | f :: fields' =>
      if decide (f.1 = key) then Some f.2 else dict_get key fields'
  end.

(** [resp.json().get('entries', [])]; only a dict has the method. *)
Definition get_entries (data : JSON) : Result JSON :=
  match data with
  | JObj fields => Ok (default (JArr []) (dict_get "entries" fields))
  | _ => Raise AttributeError
  end.

Definition tier_endpoints (region : string) : list (string * string) :=
  [("challenger",
    "https://" +:+ region +:+
    ".api.riotgames.com/lol/league/v4/challengerleagues/by-queue/RANKED_SOLO_5x5");
   ("grandmaster",
    "https://" +:+ region +:+
    ".api.riotgames.com/lol/league/v4/grandmasterleagues/by-queue/RANKED_SOLO_5x5");
   ("master",
    "https://" +:+ region +:+
    ".api.riotgames.com/lol/league/v4/masterleagues/by-queue/RANKED_SOLO_5x5")].

(** [pd.concat(all_entries, ignore_index=True)['puuid']]: the column
    exists when one of the frames has it; the rows of a frame without it
    hold missing values. *)
Definition combined_puuid (all_entries : list Entries)
  : Result (list (option string)) :=
  if bool_decide (Forall (λ f, puuid f = None) all_entries) then
    Raise KeyError
  else
    Ok (concat (map (λ f, default (replicate (height f) None) (puuid f))
                    all_entries)).

Definition ids_url (region puuid : string) : string :=
  "https://" +:+ region +:+
  ".api.riotgames.com/lol/match/v5/matches/by-puuid/" +:+ puuid +:+
  "/ids?queue=420&start=0&count=50".

(** What [get_apex_tiers_match_ids] returns: the frame, or the frame and
    the dict of samples. *)
Inductive MatchIds : Type :=
  | Frame (full_df : list (nat * string))
  | Sampled (full_df : list (nat * string))
            (sample_dict : list (string * list (nat * string))).

(** In the log of [w], from request [first] on: a request for [url]
    answered by a 200 with body [body]. *)
Definition answered (w : World) (first : nat) (url : string) (body : JSON)
  : Prop :=
  ∃ i, (first ≤ i)%nat ∧ sent w !! i = Some url ∧
       net w i url = mkResponse 200 (Some body).

(** In the log of [w], from request [first] on: some request was
    answered by a 200. *)
Definition some_200 (w : World) (first : nat) : Prop :=
  ∃ i url, (first ≤ i)%nat ∧ sent w !! i = Some url ∧
           status_code (net w i url) = 200.

(** The first row of a column that holds [id] is row [i]. *)
Definition first_at (col : list string) (i : nat) (id : string) : Prop :=
  col !! i = Some id ∧ ∀ j, (j < i)%nat → col !! j ≠ Some id.

Section pandas.

(** [pd.json_normalize] on the entries of a league, [None] when it
    raises. *)
Variable json_normalize : JSON → option Entries.

(** [pd.DataFrame(match_ids, columns=['match_id'])] as the column it
    builds, [None] when it raises. *)
Variable match_id_frame : JSON → option (list string).

(** [.sample(frac=1, random_state=42)]: the rows in the order the seeded
    generator puts them in. *)
Variable sample : list (nat * string) → list (nat * string).

(** The frame the [i]-th tier contributes: the reply to the request for
    its endpoint, which is the [i]-th request of the call, is a 200 whose
    entries pandas tabulates as [e]. *)
Definition tier_frame (w : World) (endpoints : list (string * string))
    (i : nat) (e : Entries) : Prop :=
  ∃ tier body raw,
    endpoints !! i = Some tier ∧
    net w (length (sent w) + i) tier.2 = mkResponse 200 (Some body) ∧
    get_entries body = Ok raw ∧ json_normalize raw = Some e.

(** [for tier in tiers], over the endpoints that are left. *)
Fixpoint tiers_loop (endpoints : list (string * string))
    (all_entries : list Entries) (w : World)
  : Run (list Entries) * World :=
  match endpoints with
  | [] => (Done all_entries, w)
  | tier :: endpoints' =>
      let url := tier.2 in
      let '(resp, w) := requests_get url w in
      if status_code resp =? 200 then
        match json resp with
        | None => (Failed (Builtin JSONDecodeError), w)
        | Some data =>
            match get_entries data with
            | Raise e => (Failed (Builtin e), w)
            | Ok raw =>
                match json_normalize raw with
                | None => (Failed PandasError, w)
                | Some entries =>
                    tiers_loop endpoints' (all_entries ++ [entries]) w
                end
            end
        end
      else tiers_loop endpoints' all_entries w
  end.

Definition get_apex_puuids_ids (region : string) (w : World)
  : Run (list string) * World :=
  match tiers_loop (tier_endpoints region) [] w with
  | (Failed e, w) => (Failed e, w)
  | (Done [], w) => (Done [], w)
  | (Done all_entries, w) =>
      match combined_puuid all_entries with
      | Raise e => (Failed (Builtin e), w)
      | Ok col => (Done (unique (dropna col)), w)
      end
  end.

(** [for attempt in range(max_retries)] for one puuid, over the attempts
    that are left. *)
Fixpoint attempts (url : string) (delay : Z) (left : nat)
    (match_id_list : list (list string)) (w : World)
  : Run (list (list string)) * World :=
  match left with
  | O => (Done match_id_list, w)
  | S left' =>
      let '(resp, w) := requests_get url w in
      if status_code resp =? 200 then
        match json resp with
        | None => (Failed (Builtin JSONDecodeError), w)
        | Some match_ids =>
            match match_id_frame match_ids with
            | None => (Failed PandasError, w)
            | Some match_id_df => (Done (match_id_list ++ [match_id_df]), w)
            end
        end
      else if status_code resp =? 429 then
        if decide (delay < 0) then (Failed ValueError, w)
        else attempts url delay left' match_id_list (time_sleep delay w)
      else (Done match_id_list, w)
  end.

(** [for i, puuid in enumerate(puuids)]. *)
Fixpoint collect (region : string) (delay max_retries : Z)
    (puuids : list string) (match_id_list : list (list string)) (w : World)
  : Run (list (list string)) * World :=
  match puuids with
  | [] => (Done match_id_list, w)
  | puuid :: puuids' =>
      match attempts (ids_url region puuid) delay (Z.to_nat max_retries)
              match_id_list w with
      | (Failed e, w) => (Failed e, w)
      | (Done match_id_list, w) =>
          collect region delay max_retries puuids' match_id_list w
      end
  end.

Definition get_apex_tiers_match_ids (puuids : list string)
    (region : string) (delay max_retries : Z) (return_samples : bool)
    (w : World) : Run MatchIds * World :=
  match collect region delay max_retries puuids [] w with
  | (Failed e, w) => (Failed e, w)
  | (Done [], w) => (Done (Frame []), w)
  | (Done match_id_list, w) =>
      let full_df :=
        drop_duplicates (imap (λ i x, (i, x)) (concat match_id_list)) in
      if return_samples then
        let full_df := sample full_df in
        let sample_dict :=
          [("sample_1", iloc 0 (Z.to_nat 5000) full_df);
           ("sample_2", iloc (Z.to_nat 5000) (Z.to_nat 10000) full_df);
           ("sample_3", iloc (Z.to_nat 10000) (Z.to_nat 15000) full_df);
           ("sample_4", iloc (Z.to_nat 15000) (Z.to_nat 20000) full_df)] in
        (Done (Sampled full_df sample_dict), w)
      else (Done (Frame full_df), w)
  end.

End pandas.

End Apex.

(** * Sample payloads *)

Module Samples.
Import Http.

Definition match_body : JSON :=
  JObj [("metadata", JObj [("matchId", JStr "NA1_1")]); ("info", JObj [])].

Definition ok_200 : Response := mkResponse 200 (Some match_body).
Definition rate_limited : Response :=
  mkResponse 429 (Some (JObj [("status", JObj [("status_code", JNum 429)])])).
Definition gateway_429 : Response := mkResponse 429 None.
Definition html_200 : Response := mkResponse 200 None.
Definition server_error : Response := mkResponse 500 (Some (JObj [])).
Definition not_found : Response := mkResponse 404 (Some (JObj [])).

(** A rate limit answered by a proxy with a non-JSON body, then the data. *)
Definition net_html_429 (n : nat) (url : string) : Response :=
  match n with
  | O => gateway_429
  | _ => ok_200
  end.

(** A 200 answered by a proxy with a non-JSON body, whatever is asked. *)
Definition net_html_200 (n : nat) (url : string) : Response := html_200.

(** Two JSON rate-limit answers, then the data. *)
Definition net_two_429 (n : nat) (url : string) : Response :=
  match n with
  | 0%nat | 1%nat => rate_limited
  | _ => ok_200
  end.

(** A rate limit, a server error, then the data. *)
Definition net_mixed (n : nat) (url : string) : Response :=
  match n with
  | 0%nat => rate_limited
  | 1%nat => server_error
  | _ => ok_200
  end.

Definition start (oracle : nat → string → Response) : World :=
  mkWorld oracle [] 0.

(** A ranked match on patch 15.8 with its ten participants. *)
Definition summary (pid team : Z) (pos : string) : Summary.t :=
  Summary.mk pid "Ahri" team (bool_decide (pid = 3)) pos
             (bool_decide (team = 100)).

Definition roster : list Summary.t :=
  [summary 1 100 "TOP"; summary 2 100 "JUNGLE"; summary 3 100 "MIDDLE";
   summary 4 100 "BOTTOM"; summary 5 100 "UTILITY";
   summary 6 200 "TOP"; summary 7 200 "JUNGLE"; summary 8 200 "MIDDLE";
   summary 9 200 "BOTTOM"; summary 10 200 "UTILITY"].

Definition ranked : MatchData :=
  mkMatchData "NA1_1" (Some 420) (Some "15.8.676.5337") roster.

(** The same match played in the flex queue. *)
Definition flex : MatchData :=
  mkMatchData "NA1_1" (Some 440) (Some "15.8.676.5337") roster.

Definition pframe (pid : Z) : Z * PFrame.t :=
  (pid, PFrame.mk (4000 + 100 * pid) 5000 9 80 4).

Definition frame14_full : list (Z * PFrame.t) :=
  map pframe [1; 2; 3; 4; 5; 6; 7; 8; 9; 10].

(** Frame 14 without the entry of participant 10. *)
Definition frame14_nine : list (Z * PFrame.t) :=
  map pframe [1; 2; 3; 4; 5; 6; 7; 8; 9].

Definition quiet : Frame := mkFrame (Some frame14_full) (Some []).

Definition kill (t : Z) (killer : option Z) : Event.t :=
  Event.mk "CHAMPION_KILL" (Some t) killer (Some 7) (Some [4; 5])
           None None None None None.

Definition minutes (last : Frame) : list Frame :=
  replicate 14 quiet ++ [last].

Definition timeline_full : Timeline :=
  mkTimeline (Some (minutes (mkFrame (Some frame14_full) (Some [])))).

Definition timeline_nine : Timeline :=
  mkTimeline (Some (minutes (mkFrame (Some frame14_nine) (Some [])))).

Definition timeline_unreadable : Timeline := mkTimeline None.

(** A players table with default index: the two junglers of one match and
    a top laner without a counterpart. *)
Definition player (m pos : string) (gold : Z) : Player.t :=
  Player.mk m 1 "Ahri" gold (true_divide gold 14) 80 4 84
            (true_divide 84 14) 5000 9 2 1 0 3 0 0 0 0 0 100 pos 1.

Definition table : DataFrame :=
  mkDataFrame [(0, player "NA1_1" "JUNGLE" 10000);
               (1, player "NA1_1" "JUNGLE" 12000);
               (2, player "NA1_1" "TOP" 7000)] [].

Definition store : gmap positive DataFrame := {[ 1%positive := table ]}.

End Samples.

(** * Further sample payloads *)

Module MoreSamples.
Import Samples.

Definition ward (t : Z) (kind : string) (creator : option Z) : Event.t :=
  Event.mk "WARD_PLACED" (Some t) None None None None None None
           (Some kind) creator.

Definition monster (t team : Z) (kind : string) : Event.t :=
  Event.mk "ELITE_MONSTER_KILL" (Some t) (Some 2) None None None
           (Some team) (Some kind) None None.

Definition plate (t : Z) (killer : option Z) : Event.t :=
  Event.mk "TURRET_PLATE_DESTROYED" (Some t) killer None None None
           None None None None.

Definition building (t : Z) (killer : option Z) (kind : string) : Event.t :=
  Event.mk "BUILDING_KILL" (Some t) killer None None (Some kind)
           None None None None.

Definition purchase (t : Z) : Event.t :=
  Event.mk "ITEM_PURCHASED" (Some t) None None None None None None None None.

Definition minute (es : list Event.t) : Frame :=
  mkFrame (Some frame14_full) (Some es).

(** Fifteen frames with events in minutes 5, 9 and 14. *)
Definition busy : list Frame :=
  replicate 5 quiet ++
  [minute [kill 300000 (Some 3); ward 301000 "SIGHT_WARD" (Some 5);
           ward 302000 "CONTROL_WARD" (Some 5); purchase 303000]] ++
  replicate 3 quiet ++
  [minute [monster 540000 100 "DRAGON"; monster 541000 100 "RIFTHERALD";
           plate 542000 (Some 1); building 543000 (Some 1) "TOWER_BUILDING";
           building 544000 (Some 1) "INHIBITOR_BUILDING"]] ++
  replicate 4 quiet ++
  [minute [kill 840000 (Some 3); kill 840001 (Some 3);
           monster 839000 200 "HORDE"]].

(** The same frames in reverse order, each with its events reversed. *)
Definition shuffled : list Frame :=
  reverse (map (λ f, mkFrame (participantFrames f) (reverse <$> events f))
               busy).

Definition rows_of (res : Result (list Player.t)) : list Player.t :=
  match res with
  | Ok players => players
  | Raise _ => []
  end.

Definition busy_rows : list Player.t :=
  rows_of (get_14_min_stats "NA1_1" ranked (mkTimeline (Some busy))).

End MoreSamples.

(** Tables of two matches. *)
Module TableSamples.
Import Samples.

Definition second_match : list (Z * Player.t) :=
  [(3, player "NA1_2" "JUNGLE" 9000); (4, player "NA1_2" "JUNGLE" 9500);
   (5, player "NA1_2" "TOP" 8000)].

Definition both : DataFrame :=
  mkDataFrame (second_match ++ rows table ++ []) [].

Definition two_tables : gmap positive DataFrame :=
  {[ 1%positive := table; 2%positive := both ]}.

End TableSamples.

(** Tables on which the role differentials leave the specification. *)
Module DiffSamples.
Import Samples.

(** Two junglers under one index label, as in a table that was
    concatenated without [ignore_index]. *)
Definition relabelled : DataFrame :=
  mkDataFrame [(0, player "NA1_1" "JUNGLE" 10000);
               (0, player "NA1_1" "JUNGLE" 12000)] [].

(** A top laner without a counterpart that shares its label with a
    jungler. *)
Definition shared_label : DataFrame :=
  mkDataFrame [(0, player "NA1_1" "JUNGLE" 10000);
               (1, player "NA1_1" "JUNGLE" 12000);
               (0, player "NA1_1" "TOP" 7000)] [].

(** Two junglers whose gold differs by 2^53 + 1. *)
Definition wide : DataFrame :=
  mkDataFrame [(0, player "NA1_1" "JUNGLE" 9007199254740993);
               (1, player "NA1_1" "JUNGLE" 0)] [].

(** Two junglers with 2^62 and -2^62 - 1 gold: both fit in 64 bits, their
    difference 2^63 + 1 does not. *)
Definition overflowing : DataFrame :=
  mkDataFrame [(0, player "NA1_1" "JUNGLE" 4611686018427387904);
               (1, player "NA1_1" "JUNGLE" (-4611686018427387905))] [].

Definition store_of (df : DataFrame) : gmap positive DataFrame :=
  {[ 1%positive := df ]}.

End DiffSamples.

(** Sample runs of the batch runner. *)
Module BatchSamples.
Import Http Batch Samples.

Definition timeline_body : JSON :=
  JObj [("metadata", JObj [("matchId", JStr "NA1_1")]);
        ("info", JObj [("frameInterval", JNum 60000)])].

(** The API knows the match NA1_1 and its timeline; of NA1_2 it has the
    summary and answers 404 for the timeline; it has nothing else. *)
Definition api (n : nat) (url : string) : Response :=
  if decide (url = match_url "NA1_1") then ok_200
  else if decide (url = timeline_url "NA1_1") then
    mkResponse 200 (Some timeline_body)
  else if decide (url = match_url "NA1_2") then ok_200
  else not_found.

(** The same API behind a rate limit that rejects the first two
    requests. *)
Definition api_limited (n : nat) (url : string) : Response :=
  match n with
  | 0%nat | 1%nat => rate_limited
  | _ => api n url
  end.

(** Every summary is read as the ranked sample match, every timeline as
    the full sample timeline. *)
Definition read : string → JSON → JSON → Result (list Player.t) :=
  extract_typed (λ _, ranked) (λ _, timeline_full).

Definition ids : list string := ["NA1_1"; "NA1_2"; "NA1_3"].

Definition machine (oracle : nat → string → Response) : Machine :=
  mkMachine (start oracle) ∅.

Definition ten_rows : list Player.t :=
  MoreSamples.rows_of (get_14_min_stats "NA1_1" ranked timeline_full).

(** The table of a run over [ids]: the ten rows of NA1_1. *)
Definition returned : DataFrame := concat_ignore_index [ten_rows].

Definition row_of (pid team : Z) (pos : string) : Player.t :=
  snapshot ranked no_counts (summary pid team pos, (pframe pid).2).

End BatchSamples.

(** Sample runs of the collectors. *)
Module ApexSamples.
Import Http Apex.

(** The column of a JSON list of strings. *)
Definition frame_of_strings (data : JSON) : option (list string) :=
  match data with
  | JArr items =>
      Some (omap (λ x, match x with JStr s => Some s | _ => None end) items)
  | _ => None
  end.

(** The match-ids endpoint: the first request is rate limited; player p1
    has played NA1_1 and NA1_2, player p2 has played NA1_2 and NA1_3,
    and the server fails for everybody else. *)
Definition ids_api (n : nat) (url : string) : Response :=
  match n with
  | O => mkResponse 429 None
  | _ =>
      if decide (url = ids_url "americas" "p1") then
        mkResponse 200 (Some (JArr [JStr "NA1_1"; JStr "NA1_2"]))
      else if decide (url = ids_url "americas" "p2") then
        mkResponse 200 (Some (JArr [JStr "NA1_2"; JStr "NA1_3"]))
      else mkResponse 500 None
  end.

Definition players : list string := ["p1"; "p2"; "p3"].

(** The frame of a JSON list of flat dicts, as far as its column puuid
    goes. *)
Definition puuid_of (entry : JSON) : option string :=
  match entry with
  | JObj fields =>
      match dict_get "puuid" fields with
      | Some (JStr s) => Some s
      | _ => None
      end
  | _ => None
  end.

Definition frame_of_entries (raw : JSON) : option Entries :=
  match raw with
  | JArr items =>
      Some (mkEntries (length items)
              (if bool_decide (Exists (λ x, is_Some (puuid_of x)) items)
               then Some (map puuid_of items) else None))
  | _ => None
  end.

Definition league (entries : list JSON) : Response :=
  mkResponse 200 (Some (JObj [("tier", JStr "X"); ("entries", JArr entries)])).

Definition player (id : string) : JSON := JObj [("puuid", JStr id)].

(** The league endpoint: two challengers, a rate limit for the
    grandmasters, three masters of whom one is a challenger as well and
    one has no puuid. *)
Definition league_api (n : nat) (url : string) : Response :=
  match n with
  | 0%nat => league [player "a"; player "b"]
  | 1%nat => mkResponse 429 None
  | _ => league [player "b"; JObj [("summonerId", JStr "x")]; player "c"]
  end.

(** Three leagues without entries. *)
Definition empty_api (n : nat) (url : string) : Response := league [].

Definition deduplicated : list (nat * string) :=
  [(0%nat, "NA1_1"); (1%nat, "NA1_2"); (3%nat, "NA1_3")].

End ApexSamples.

(** * The fetch helpers: properties *)

Section fetch.
Import Http.

Lemma reply_later w url k naps i :
  reply (later w url k naps) url i = reply w url (k + i).
Proof.
  unfold reply, later; simpl.
  by rewrite length_app, length_replicate, Nat.add_assoc.
Qed.

Lemma later_later w url j k a b :
  later (later w url j a) url k b = later w url (j + k) (a + b).
Proof.
  unfold later; simpl. f_equal.
  - by rewrite <- app_assoc, replicate_add.
  - lia.
Qed.

Lemma later_0 w url : later w url 0 0 = w.
Proof.
  destruct w as [n s z]. unfold later; simpl.
  by rewrite app_nil_r, Z.add_0_r.
Qed.

Lemma requests_get_later url w :
  requests_get url w = (reply w url 0, later w url 1 0).
Proof.
  unfold requests_get, reply, later; simpl.
  by rewrite Nat.add_0_r, Z.add_0_r.
Qed.

Lemma time_sleep_later secs w url k naps :
  time_sleep secs (later w url k naps) = later w url k (naps + secs).
Proof. unfold time_sleep, later; simpl. f_equal. lia. Qed.

Lemma requests_made_later w url k naps :
  requests_made w (later w url k naps) = k.
Proof.
  unfold requests_made, later; simpl.
  rewrite length_app, length_replicate. lia.
Qed.

Lemma gives_up_status resp :
  gives_up resp ↔
  status_code resp = 403 ∨ status_code resp = 401 ∨ status_code resp = 404.
Proof.
  unfold gives_up. rewrite !elem_of_cons, elem_of_nil. tauto.
Qed.

(** One attempt of [_safe_get] on a response it retries. *)
Lemma safe_get_step url n w :
  retried (reply w url 0) →
  _safe_get url (S n) w =
  _safe_get url n
    (later w url 1 (10 * throttles w url 1)).
Proof.
  intros [H200 Hgive]. cbn [_safe_get].
  rewrite requests_get_later. cbn [throttles].
  destruct (Z.eqb_spec (status_code (reply w url 0)) 200) as [|_]; [done|].
  destruct (Z.eqb_spec (status_code (reply w url 0)) 429) as [E|_].
  - by rewrite time_sleep_later.
  - rewrite bool_decide_eq_false_2 by exact Hgive. done.
Qed.

Lemma throttles_shift w url a j k :
  throttles (later w url j a) url k =
  throttles w url (j + k) - throttles w url j.
Proof.
  induction k as [|k IH]; cbn [throttles].
  - rewrite Nat.add_0_r. lia.
  - rewrite Nat.add_succ_r. cbn [throttles]. rewrite IH, reply_later. lia.
Qed.

(** [k] retried attempts in a row consume [k] of the attempts, and sleep
    10 seconds for each 429 among them. *)
Lemma safe_get_retries url k : ∀ n w,
  (∀ i, (i < k)%nat → retried (reply w url i)) →
  _safe_get url (k + n) w =
  _safe_get url n (later w url k (10 * throttles w url k)).
Proof.
  induction k as [|k IH]; intros n w Hk.
  - simpl. by rewrite later_0.
  - change (S k + n)%nat with (S (k + n)).
    rewrite safe_get_step by (apply Hk; lia).
    rewrite IH.
    + rewrite later_later. do 2 f_equal.
      rewrite throttles_shift. simpl (1 + k)%nat. lia.
    + intros i Hi. rewrite reply_later. apply Hk. lia.
Qed.

Lemma safe_get_200 url n w data :
  status_code (reply w url 0) = 200 →
  json (reply w url 0) = Some data →
  _safe_get url (S n) w = (Ok (Some data), later w url 1 0).
Proof.
  intros H200 Hjson. cbn [_safe_get]. rewrite requests_get_later.
  by rewrite H200, Hjson.
Qed.

Lemma safe_get_gives_up url n w :
  gives_up (reply w url 0) →
  _safe_get url (S n) w = (Ok None, later w url 1 0).
Proof.
  intros Hg. cbn [_safe_get]. rewrite requests_get_later.
  pose proof (proj1 (gives_up_status _) Hg) as Hs.
  destruct (Z.eqb_spec (status_code (reply w url 0)) 200); [lia|].
  destruct (Z.eqb_spec (status_code (reply w url 0)) 429); [lia|].
  by rewrite bool_decide_eq_true_2.
Qed.

(** The number of requests never exceeds the number of attempts. *)
Lemma safe_get_bound url n : ∀ w,
  ∃ k naps, (k ≤ n)%nat ∧ (_safe_get url n w).2 = later w url k naps.
Proof.
  induction n as [|n IH]; intros w.
  - exists 0%nat, 0. split; [lia|]. simpl. by rewrite later_0.
  - cbn [_safe_get]. rewrite requests_get_later.
    destruct (status_code (reply w url 0) =? 200).
    { exists 1%nat, 0. split; [lia|]. by destruct (json _). }
    destruct (status_code (reply w url 0) =? 429).
    { destruct (IH (time_sleep 10 (later w url 1 0))) as (k & naps & Hk & ->).
      exists (1 + k)%nat, (10 + naps). split; [lia|].
      by rewrite time_sleep_later, later_later. }
    destruct (bool_decide _).
    { exists 1%nat, 0. split; [lia|]. done. }
    destruct (IH (later w url 1 0)) as (k & naps & Hk & ->).
    exists (1 + k)%nat, (0 + naps). split; [lia|].
    by rewrite later_later.
Qed.

(** [_safe_get] with three attempts, for every reply sequence. *)
Lemma safe_get_three url w :
  (requests_made w (_safe_get url 3 w).2 ≤ 3)%nat ∧
  (∀ k data, (k < 3)%nat →
     (∀ i, (i < k)%nat → retried (reply w url i)) →
     status_code (reply w url k) = 200 →
     json (reply w url k) = Some data →
     _safe_get url 3 w =
     (Ok (Some data), later w url (S k) (10 * throttles w url k))) ∧
  (∀ k, (k < 3)%nat →
     (∀ i, (i < k)%nat → retried (reply w url i)) →
     gives_up (reply w url k) →
     _safe_get url 3 w =
     (Ok None, later w url (S k) (10 * throttles w url k))) ∧
  ((∀ i, (i < 3)%nat → retried (reply w url i)) →
     _safe_get url 3 w = (Ok None, later w url 3 (10 * throttles w url 3))).
Proof.
  split; [|split; [|split]].
  - destruct (safe_get_bound url 3 w) as (k & naps & Hk & ->).
    by rewrite requests_made_later.
  - intros k data Hk Hret H200 Hjson.
    replace 3%nat with (k + S (2 - k))%nat at 1 by lia.
    rewrite safe_get_retries by done.
    erewrite safe_get_200.
    + rewrite later_later. do 2 f_equal; [lia|lia].
    + by rewrite reply_later, Nat.add_0_r.
    + by rewrite reply_later, Nat.add_0_r.
  - intros k Hk Hret Hg.
    replace 3%nat with (k + S (2 - k))%nat at 1 by lia.
    rewrite safe_get_retries by done.
    rewrite safe_get_gives_up.
    + rewrite later_later. do 2 f_equal; [lia|lia].
    + by rewrite reply_later, Nat.add_0_r.
  - intros Hret.
    change 3%nat with (3 + 0)%nat at 1.
    by rewrite safe_get_retries.
Qed.

(** One iteration of [fetch_with_retry] on a 429 with a JSON body. *)
Lemma fetch_step url fuel w :
  throttled (reply w url 0) →
  fetch_with_retry (S fuel) url w =
  fetch_with_retry fuel url (later w url 1 10).
Proof.
  intros [H429 [data Hjson]]. cbn [fetch_with_retry].
  rewrite requests_get_later, Hjson, H429. simpl.
  by rewrite time_sleep_later.
Qed.

Lemma fetch_retries url k : ∀ fuel w,
  (∀ i, (i < k)%nat → throttled (reply w url i)) →
  fetch_with_retry (k + fuel) url w =
  fetch_with_retry fuel url (later w url k (10 * Z.of_nat k)).
Proof.
  induction k as [|k IH]; intros fuel w Hk.
  - simpl. by rewrite later_0.
  - change (S k + fuel)%nat with (S (k + fuel)).
    rewrite fetch_step by (apply Hk; lia).
    rewrite IH.
    + rewrite later_later. do 2 f_equal. lia.
    + intros i Hi. rewrite reply_later. apply Hk. lia.
Qed.

(** C9 (as stated, refuted). The claim has every 429 response retried
    after a 10 second sleep. A 429 whose body is not JSON is not retried:
    [resp.json()] is tried before the status is looked at, and the call
    returns [None] after this one request. *)
Lemma fetch_429_unparseable_not_retried :
  ¬ retries_after_429 "u" (Samples.start Samples.net_html_429).
Proof.
  intros H. specialize (H eq_refl 1%nat).
  apply (f_equal fst) in H. vm_compute in H. discriminate H.
Qed.

(** C9 (amended). [fetch_with_retry] parses the body before it looks at
    the status. After [k] responses that are 429 with a JSON body, the
    call has made [k] requests for the same URL, has slept [10 * k]
    seconds and is still running, for every [k]. The next response decides:
    a body that does not parse gives [None] whatever the status; a 200
    with a JSON object gives that object; every status other than 200 and
    429 (401, 403 and 404 among them) gives [None], without a retry and
    without raising. *)
Theorem fetch_with_retry_contract (url : string) (w : World) (k fuel : nat) :
  (∀ i, (i < k)%nat → throttled (reply w url i)) →
  let resp := reply w url k in
  let w' := later w url (S k) (10 * Z.of_nat k) in
  fetch_with_retry k url w = (None, later w url k (10 * Z.of_nat k)) ∧
  (json resp = None →
   fetch_with_retry (S k + fuel) url w = (Some (Ok None), w')) ∧
  (∀ data, json resp = Some data →
     status_code resp = 200 → is_object data →
     fetch_with_retry (S k + fuel) url w = (Some (Ok (Some data)), w')) ∧
  (∀ data, json resp = Some data →
     status_code resp ≠ 200 → status_code resp ≠ 429 →
     fetch_with_retry (S k + fuel) url w = (Some (Ok None), w')).
Proof.
  intros Hk resp w'.
  assert (Hlast : ∀ r,
    fetch_with_retry (S fuel) url (later w url k (10 * Z.of_nat k)) =
      (r, later (later w url k (10 * Z.of_nat k)) url 1 0) →
    fetch_with_retry (S k + fuel) url w = (r, w')).
  { intros r Hr. replace (S k + fuel)%nat with (k + S fuel)%nat by lia.
    rewrite fetch_retries by done. rewrite Hr, later_later.
    unfold w'. do 2 f_equal; lia. }
  assert (Hresp : reply (later w url k (10 * Z.of_nat k)) url 0 = resp).
  { unfold resp. by rewrite reply_later, Nat.add_0_r. }
  split; [|split; [|split]].
  - replace k with (k + 0)%nat at 1 by lia. by rewrite fetch_retries.
  - intros Hjson. apply Hlast. cbn [fetch_with_retry].
    by rewrite requests_get_later, Hresp, Hjson.
  - intros data Hjson H200 Hobj. apply Hlast. cbn [fetch_with_retry].
    rewrite requests_get_later, Hresp, Hjson, H200.
    by destruct data.
  - intros data Hjson H200 H429. apply Hlast. cbn [fetch_with_retry].
    rewrite requests_get_later, Hresp, Hjson.
    destruct (Z.eqb_spec (status_code resp) 200); [done|].
    destruct (Z.eqb_spec (status_code resp) 429); [done|].
    by destruct (status_code resp =? 403).
Qed.

(** Two JSON 429 answers and then the match: three requests for the same
    URL, twenty seconds asleep, the match returned. *)
Lemma fetch_with_retry_contract_witness :
  fetch_with_retry 5 "u" (Samples.start Samples.net_two_429) =
  (Some (Ok (Some Samples.match_body)),
   mkWorld Samples.net_two_429 ["u"; "u"; "u"] 20).
Proof.
  assert (Hk : ∀ i, (i < 2)%nat →
            throttled (reply (Samples.start Samples.net_two_429) "u" i)).
  { intros [|[|i]] Hi; [split; [reflexivity | by eexists]..| lia]. }
  destruct (fetch_with_retry_contract "u" (Samples.start Samples.net_two_429)
              2 2 Hk) as (_ & _ & H200 & _).
  exact (H200 Samples.match_body eq_refl eq_refl I).
Defined.

Lemma safe_get_unparseable url n w :
  status_code (reply w url 0) = 200 →
  json (reply w url 0) = None →
  _safe_get url (S n) w = (Raise JSONDecodeError, later w url 1 0).
Proof.
  intros H200 Hjson. cbn [_safe_get]. rewrite requests_get_later.
  by rewrite H200, Hjson.
Qed.

(** On reply sequences whose first 200 has a body that parses:
    [fetch_match_data] and [fetch_timeline_data] make at most three
    requests whatever the replies are. They return the parsed body of the
    first 200 and [None] at the first 401, 403 or 404, when only retried
    replies came before; they return [None] after three retried replies.
    A retried reply is any other status: a 429 costs an attempt and a 10
    second sleep, a 500 costs an attempt and no sleep. *)
Lemma fetch_data_three_attempts (base_url match_id url : string)
    (call : World → Result (option JSON) * World) (w : World) :
  (call = fetch_match_data base_url match_id ∧
   url = base_url +:+ "/" +:+ match_id) ∨
  (call = fetch_timeline_data base_url match_id ∧
   url = base_url +:+ "/" +:+ match_id +:+ "/timeline") →
  (requests_made w (call w).2 ≤ 3)%nat ∧
  (∀ k data, (k < 3)%nat →
     (∀ i, (i < k)%nat → retried (reply w url i)) →
     status_code (reply w url k) = 200 →
     json (reply w url k) = Some data →
     call w = (Ok (Some data), later w url (S k) (10 * throttles w url k))) ∧
  (∀ k, (k < 3)%nat →
     (∀ i, (i < k)%nat → retried (reply w url i)) →
     gives_up (reply w url k) →
     call w = (Ok None, later w url (S k) (10 * throttles w url k))) ∧
  ((∀ i, (i < 3)%nat → retried (reply w url i)) →
     call w = (Ok None, later w url 3 (10 * throttles w url 3))).
Proof.
  intros [[-> ->]|[-> ->]]; apply safe_get_three.
Qed.

(** A 429, a 500 and then the match: the third attempt returns it, after
    one sleep. *)
Lemma fetch_data_mixed_replies :
  fetch_match_data "https://api/matches" "NA1_1"
    (Samples.start Samples.net_mixed) =
  (Ok (Some Samples.match_body),
   mkWorld Samples.net_mixed
     ["https://api/matches/NA1_1"; "https://api/matches/NA1_1";
      "https://api/matches/NA1_1"] 10).
Proof.
  destruct (fetch_data_three_attempts "https://api/matches" "NA1_1" _ _
              (Samples.start Samples.net_mixed)
              (or_introl (conj eq_refl eq_refl))) as (_ & H200 & _).
  refine (H200 2%nat Samples.match_body _ _ eq_refl eq_refl); [lia|].
  intros [|[|i]] Hi; [| |lia].
  - split; [discriminate|]. rewrite gives_up_status. vm_compute. lia.
  - split; [discriminate|]. rewrite gives_up_status. vm_compute. lia.
Qed.

(** C10 (the code departs from the claim). [fetch_match_data] and
    [fetch_timeline_data] do not return for every reply sequence: when the
    first reply that is not retried is a 200 whose body does not parse as
    JSON, the call raises, after that request. [_safe_get] calls
    [resp.json()] without a guard, where [fetch_with_retry] catches the
    exception and returns [None]. *)
Theorem fetch_data_unparseable_200 (base_url match_id url : string)
    (call : World → Result (option JSON) * World) (w : World) (k : nat) :
  (call = fetch_match_data base_url match_id ∧
   url = base_url +:+ "/" +:+ match_id) ∨
  (call = fetch_timeline_data base_url match_id ∧
   url = base_url +:+ "/" +:+ match_id +:+ "/timeline") →
  (k < 3)%nat →
  (∀ i, (i < k)%nat → retried (reply w url i)) →
  status_code (reply w url k) = 200 →
  json (reply w url k) = None →
  call w = (Raise JSONDecodeError,
            later w url (S k) (10 * throttles w url k)).
Proof.
  intros Hcall Hk Hret H200 Hjson.
  assert (Hsafe : _safe_get url 3 w =
            (Raise JSONDecodeError,
             later w url (S k) (10 * throttles w url k))).
  { replace 3%nat with (k + S (2 - k))%nat at 1 by lia.
    rewrite safe_get_retries by done.
    rewrite safe_get_unparseable.
    - rewrite later_later. do 2 f_equal; [lia|lia].
    - by rewrite reply_later, Nat.add_0_r.
    - by rewrite reply_later, Nat.add_0_r. }
  by destruct Hcall as [[-> ->]|[-> ->]].
Qed.

(** The first reply is a 200 with a body that is not JSON: the call
    raises after one request. *)
Lemma fetch_data_unparseable_200_witness :
  fetch_match_data "https://api/matches" "NA1_1"
    (Samples.start Samples.net_html_200) =
  (Raise JSONDecodeError,
   mkWorld Samples.net_html_200 ["https://api/matches/NA1_1"] 0).
Proof.
  refine (fetch_data_unparseable_200 "https://api/matches" "NA1_1" _ _
            (Samples.start Samples.net_html_200) 0
            (or_introl (conj eq_refl eq_refl)) _ _ eq_refl eq_refl);
    [lia|]. intros i Hi. lia.
Defined.

End fetch.

(** * Event aggregation: properties *)

Section aggregation.

Lemma count_incr `{Countable K} (k p : K) (d : gmap K Z) :
  count (incr k d) p = count d p + (if decide (p = k) then 1 else 0).
Proof.
  unfold incr, count at 1. destruct (decide (p = k)) as [->|Hne].
  - by rewrite lookup_insert_eq.
  - rewrite lookup_insert_ne by done. unfold count. simpl. lia.
Qed.

Lemma count_event_late c event :
  840000 < default 0 (Event.timestamp event) → count_event c event = c.
Proof.
  intros Hlate. unfold count_event.
  by rewrite (proj2 (Z.ltb_lt _ _) Hlate).
Qed.

Lemma count_event_in_time c event :
  in_time event → count_event c event = dispatch event c.
Proof.
  unfold in_time, count_event. intros Hin.
  by rewrite (proj2 (Z.ltb_ge _ _) Hin).
Qed.

(** The loop over a frame's events sees only the events in time. *)
Lemma foldl_count_event es : ∀ c,
  foldl count_event c es = foldl (λ c e, dispatch e c) c (filter in_time es).
Proof.
  induction es as [|e es IH]; intros c; [done|].
  rewrite filter_cons. cbn [foldl]. destruct (decide (in_time e)) as [Hin|Hout].
  - cbn [foldl]. rewrite count_event_in_time by done. apply IH.
  - rewrite count_event_late; [apply IH|]. unfold in_time in Hout. lia.
Qed.

Lemma foldl_flat_map {A B C} (f : A → B → A) (g : C → list B) l : ∀ a,
  foldl f a (flat_map g l) = foldl (λ a x, foldl f a (g x)) a l.
Proof.
  induction l as [|x l IH]; intros a; [done|].
  cbn [flat_map foldl]. by rewrite foldl_app, IH.
Qed.

Lemma aggregate_window fs :
  aggregate fs = foldl (λ c e, dispatch e c) no_counts (window fs).
Proof.
  unfold aggregate, window. rewrite foldl_flat_map.
  generalize no_counts. induction (take 15 fs) as [|f l IH]; intros c; [done|].
  cbn [foldl]. unfold count_frame at 2. rewrite foldl_count_event. apply IH.
Qed.

(** Two frames with the same events in time are interchangeable. *)
Lemma window_replace before f f' after :
  filter in_time (default [] (events f)) =
  filter in_time (default [] (events f')) →
  window (before ++ f :: after) = window (before ++ f' :: after).
Proof.
  intros Hsame. unfold window. rewrite !take_app.
  rewrite !flat_map_app. f_equal.
  destruct (15 - length before)%nat as [|n]; [done|].
  cbn [take flat_map]. by rewrite Hsame.
Qed.

Lemma window_beyond before f f' after :
  (15 ≤ length before)%nat →
  window (before ++ f :: after) = window (before ++ f' :: after).
Proof.
  intros Hlen. unfold window. rewrite !take_app.
  by replace (15 - length before)%nat with 0%nat by lia.
Qed.

Lemma window_elem before f after event :
  (length before ≤ 14)%nat →
  event ∈ default [] (events f) → in_time event →
  event ∈ window (before ++ f :: after).
Proof.
  intros Hlen Hev Hin. unfold window. rewrite take_app.
  destruct (15 - length before)%nat as [|n] eqn:E; [lia|].
  rewrite flat_map_app. apply elem_of_app. right.
  cbn [take flat_map]. apply elem_of_app. left.
  by apply list_elem_of_filter.
Qed.

(** Only the champion-kill handler touches the three kill counters. *)
Ltac handler_cases :=
  repeat match goal with
         | |- context [decide ?P] => destruct (decide P)
         | |- context [bool_decide ?P] => destruct (bool_decide P)
         | |- context [truthy ?x] => destruct (truthy x)
         end;
  simpl; auto.

Lemma on_plate_kills e c :
  kills_14 (on_plate e c) = kills_14 c ∧
  deaths_14 (on_plate e c) = deaths_14 c ∧
  assists_14 (on_plate e c) = assists_14 c.
Proof. unfold on_plate. handler_cases. Qed.

Lemma on_tower_kills e c :
  kills_14 (on_tower e c) = kills_14 c ∧
  deaths_14 (on_tower e c) = deaths_14 c ∧
  assists_14 (on_tower e c) = assists_14 c.
Proof. unfold on_tower. handler_cases. Qed.

Lemma on_elite_monster_kills e c :
  kills_14 (on_elite_monster e c) = kills_14 c ∧
  deaths_14 (on_elite_monster e c) = deaths_14 c ∧
  assists_14 (on_elite_monster e c) = assists_14 c.
Proof. unfold on_elite_monster. handler_cases. Qed.

Lemma on_ward_kills e c :
  kills_14 (on_ward e c) = kills_14 c ∧
  deaths_14 (on_ward e c) = deaths_14 c ∧
  assists_14 (on_ward e c) = assists_14 c.
Proof. unfold on_ward. handler_cases. Qed.

Lemma dispatch_kills e c :
  kills_14 (dispatch e c) = kills_14 (on_champion_kill e c) ∧
  deaths_14 (dispatch e c) = deaths_14 (on_champion_kill e c) ∧
  assists_14 (dispatch e c) = assists_14 (on_champion_kill e c).
Proof.
  unfold dispatch.
  destruct (on_ward_kills e
    (on_elite_monster e (on_tower e (on_plate e (on_champion_kill e c)))))
    as (-> & -> & ->).
  destruct (on_elite_monster_kills e
    (on_tower e (on_plate e (on_champion_kill e c)))) as (-> & -> & ->).
  destruct (on_tower_kills e (on_plate e (on_champion_kill e c)))
    as (-> & -> & ->).
  apply on_plate_kills.
Qed.

Lemma kills_dispatch e c :
  kills_14 (dispatch e c) = kills_14 (on_champion_kill e c).
Proof. apply dispatch_kills. Qed.

Lemma deaths_dispatch e c :
  deaths_14 (dispatch e c) = deaths_14 (on_champion_kill e c).
Proof. apply dispatch_kills. Qed.

Lemma assists_dispatch e c :
  assists_14 (dispatch e c) = assists_14 (on_champion_kill e c).
Proof. apply dispatch_kills. Qed.

Lemma truthy_Some id i : truthy id = Some i ↔ id = Some i ∧ i ≠ 0.
Proof.
  destruct id as [j|]; simpl; [|intuition congruence].
  destruct (Z.eqb_spec j 0); intuition congruence.
Qed.

Lemma truthy_None id : truthy id = None ↔ id = None ∨ id = Some 0.
Proof.
  destruct id as [j|]; simpl; [|intuition congruence].
  destruct (Z.eqb_spec j 0); intuition congruence.
Qed.

Lemma count_foldl_incr (l : list Z) p : ∀ d,
  count (foldl (λ acc aid, incr aid acc) d l) p =
  count d p + Z.of_nat (length (filter (λ aid, aid = p) l)).
Proof.
  induction l as [|a l IH]; intros d; cbn [foldl].
  - simpl. lia.
  - rewrite IH, count_incr, filter_cons.
    destruct (decide (p = a)) as [->|Hne].
    + rewrite decide_True by done. cbn [length]. lia.
    + rewrite decide_False by done. lia.
Qed.

(** What one dispatched event adds to the kills of participant [p]. *)
Lemma kills_step p e c :
  p ≠ 0 →
  count (kills_14 (dispatch e c)) p =
  count (kills_14 c) p + (if decide (kills_by p e) then 1 else 0).
Proof.
  intros Hp. rewrite kills_dispatch. unfold on_champion_kill.
  destruct (decide (kills_by p e)) as [[Ht Hk]|Hn].
  - rewrite decide_True by done. cbn [kills_14].
    rewrite (proj2 (truthy_Some _ _) (conj Hk Hp)), count_incr.
    by rewrite decide_True.
  - destruct (decide (Event.type e = "CHAMPION_KILL")) as [Ht|Ht];
      cbn [kills_14]; [|lia].
    destruct (truthy (Event.killerId e)) as [k|] eqn:Hk; [|lia].
    apply truthy_Some in Hk as [Hk Hk0]. rewrite count_incr.
    rewrite decide_False; [lia|]. intros ->. apply Hn. by split.
Qed.

(** The kills counter of a participant is the number of champion kills
    of the window whose [killerId] is that participant. *)
Lemma kills_total fs p :
  p ≠ 0 →
  count (kills_14 (aggregate fs)) p =
  Z.of_nat (length (filter (kills_by p) (window fs))).
Proof.
  intros Hp. rewrite aggregate_window.
  assert (Hgen : ∀ es c,
    count (kills_14 (foldl (λ c e, dispatch e c) c es)) p =
    count (kills_14 c) p + Z.of_nat (length (filter (kills_by p) es))).
  { induction es as [|e es IH]; intros c; cbn [foldl].
    - simpl. lia.
    - rewrite IH, kills_step, filter_cons by done.
      destruct (decide (kills_by p e)); cbn [length]; lia. }
  rewrite Hgen. done.
Qed.

(** Taking an event in time out of one of the frames 0 to 14 takes it out
    of the window, at its place. *)
Lemma window_split (before after : list Frame)
    (pf : option (list (Z * PFrame.t))) (es1 es2 : list Event.t)
    (event : Event.t) :
  in_time event → (length before ≤ 14)%nat →
  ∃ pre post,
    window (before ++ mkFrame pf (Some (es1 ++ event :: es2)) :: after)
      = pre ++ event :: post ∧
    window (before ++ mkFrame pf (Some (es1 ++ es2)) :: after)
      = pre ++ post.
Proof.
  intros Hin Hlen. unfold window. rewrite !take_app.
  destruct (15 - length before)%nat as [|n] eqn:E; [lia|].
  cbn [take]. rewrite !flat_map_app.
  cbn [flat_map events default from_option id].
  rewrite !filter_app, filter_cons_True by exact Hin.
  set (g := λ frame : Frame, filter in_time (default [] (events frame))).
  exists (flat_map g (take 15 before) ++ filter in_time es1),
         (filter in_time es2 ++ flat_map g (take n after)).
  by rewrite <- !app_assoc.
Qed.

(** An event after the cutoff, or in a frame after frame 14, can be taken
    out without any effect on the counters. *)
Lemma aggregate_without (before after : list Frame)
    (pf : option (list (Z * PFrame.t))) (es1 es2 : list Event.t)
    (event : Event.t) :
  840000 < default 0 (Event.timestamp event) ∨ (15 ≤ length before)%nat →
  aggregate (before ++ mkFrame pf (Some (es1 ++ event :: es2)) :: after) =
  aggregate (before ++ mkFrame pf (Some (es1 ++ es2)) :: after).
Proof.
  intros [Hlate|Hlen]; rewrite !aggregate_window; f_equal.
  - apply window_replace. cbn [events default from_option id].
    rewrite !filter_app, filter_cons_False; [done|].
    unfold in_time. lia.
  - by apply window_beyond.
Qed.

(** C6. A champion kill of the window with no [killerId], or with
    [killerId] 0, leaves every kills counter as it was; one with a nonzero
    [killerId] adds 1 to the kills of that participant and changes no
    other kills counter. In both cases the victim's deaths grow by 1 and
    every participant's assists grow by the number of times it is listed
    in [assistingParticipantIds]. *)
Theorem champion_kill_counters (c : Counters) (event : Event.t) :
  Event.type event = "CHAMPION_KILL" →
  in_time event →
  let c' := count_event c event in
  (Event.killerId event = None ∨ Event.killerId event = Some 0 →
   kills_14 c' = kills_14 c) ∧
  (∀ k, Event.killerId event = Some k → k ≠ 0 →
     ∀ p, count (kills_14 c') p =
          count (kills_14 c) p + (if decide (p = k) then 1 else 0)) ∧
  (∀ v, Event.victimId event = Some v → v ≠ 0 →
     ∀ p, count (deaths_14 c') p =
          count (deaths_14 c) p + (if decide (p = v) then 1 else 0)) ∧
  (∀ p, count (assists_14 c') p =
        count (assists_14 c) p +
        Z.of_nat (length (filter (λ aid, aid = p)
          (default [] (Event.assistingParticipantIds event))))).
Proof.
  intros Ht Hin c'. unfold c'. rewrite count_event_in_time by done.
  rewrite kills_dispatch, deaths_dispatch, assists_dispatch.
  unfold on_champion_kill. rewrite decide_True by done.
  cbn [kills_14 deaths_14 assists_14].
  split; [|split; [|split]].
  - intros Hk. apply truthy_None in Hk. by rewrite Hk.
  - intros k Hk Hk0 p.
    rewrite (proj2 (truthy_Some _ _) (conj Hk Hk0)). apply count_incr.
  - intros v Hv Hv0 p.
    rewrite (proj2 (truthy_Some _ _) (conj Hv Hv0)). apply count_incr.
  - intros p. apply count_foldl_incr.
Qed.

(** An execution by a tower ([killerId] 0) with victim 7 and the assists
    of 4 and 5, and a kill by participant 3. *)
Lemma champion_kill_counters_witness :
  kills_14 (count_event no_counts (Samples.kill 500000 (Some 0))) = ∅ ∧
  count (deaths_14 (count_event no_counts (Samples.kill 500000 (Some 0)))) 7
    = 1 ∧
  count (assists_14 (count_event no_counts (Samples.kill 500000 (Some 0)))) 4
    = 1 ∧
  count (kills_14 (count_event no_counts (Samples.kill 500000 (Some 3)))) 3
    = 1.
Proof.
  assert (Hin : ∀ k, in_time (Samples.kill 500000 k)).
  { intros k. unfold in_time. simpl. lia. }
  destruct (champion_kill_counters no_counts (Samples.kill 500000 (Some 0))
              eq_refl (Hin _)) as (Hnone & _ & Hdeath & Hassist).
  destruct (champion_kill_counters no_counts (Samples.kill 500000 (Some 3))
              eq_refl (Hin _)) as (_ & Hkill & _).
  split; [exact (Hnone (or_intror eq_refl))|].
  split; [exact (Hdeath 7 eq_refl ltac:(lia) 7)|].
  split; [exact (Hassist 4)|].
  exact (Hkill 3 eq_refl ltac:(lia) 3).
Defined.

End aggregation.

(** * The snapshot extractor: properties *)

Section extractor.

Lemma filter_key_absent (l : list (Z * PFrame.t)) k :
  k ∉ map fst l → filter (λ e, e.1 = k) l = [].
Proof.
  induction l as [|a l IH]; intros Hk; [done|].
  cbn [map] in Hk. apply not_elem_of_cons in Hk as [Hne Hk].
  rewrite filter_cons_False by (intros E; by apply Hne). by apply IH.
Qed.

(** A key of a frame with distinct keys selects exactly one entry. *)
Lemma filter_key_unique (l : list (Z * PFrame.t)) k :
  NoDup (map fst l) → k ∈ map fst l →
  ∃ e, filter (λ e, e.1 = k) l = [e].
Proof.
  induction l as [|a l IH]; intros Hnd Hk; cbn [map] in *.
  - by apply elem_of_nil in Hk.
  - apply NoDup_cons in Hnd as [Ha Hnd].
    destruct (decide (a.1 = k)) as [E|E].
    + exists a. rewrite filter_cons_True by done.
      rewrite filter_key_absent; [done|]. by rewrite <- E.
    + apply elem_of_cons in Hk as [Hk|Hk]; [congruence|].
      destruct (IH Hnd Hk) as [e He]. exists e.
      by rewrite filter_cons_False.
Qed.

(** The join keeps every summary row, once, when frame 14 has each
    participant exactly once. *)
Lemma merge_complete (ps : list Summary.t) (l : list (Z * PFrame.t)) :
  NoDup (map fst l) →
  (∀ s, s ∈ ps → Summary.participantId s ∈ map fst l) →
  map fst (merge ps l) = ps.
Proof.
  intros Hnd. induction ps as [|s ps IH]; intros Hcov; [done|].
  unfold merge. cbn [flat_map].
  destruct (filter_key_unique l (Summary.participantId s) Hnd) as [e He].
  { apply Hcov. by left. }
  rewrite He. cbn [map app fst]. f_equal.
  apply IH. intros s' Hs'. apply Hcov. by right.
Qed.

Lemma snapshot_participantId match_data c rows :
  map Player.participantId (map (snapshot match_data c) rows) =
  map Summary.participantId (map fst rows).
Proof. induction rows as [|r rows IH]; [done|]. cbn [map]. by f_equal. Qed.

(** C1 (as stated, refuted). A ranked match on an accepted patch whose
    frame 14 lacks the entry of participant 10 passes the three filters and
    comes back with nine rows. *)
Lemma partial_roster_returned :
  eligible Samples.ranked (Samples.minutes
             (mkFrame (Some Samples.frame14_nine) (Some [])))
           Samples.frame14_nine ∧
  ¬ whole_or_empty
      (get_14_min_stats "NA1_1" Samples.ranked Samples.timeline_nine).
Proof.
  split.
  - split; [reflexivity|]. split; [reflexivity|].
    eexists. split; reflexivity.
  - intros (players & Hres & Hlen).
    apply (f_equal (λ r, match r with
                         | Ok l => length l
                         | Raise _ => 0%nat
                         end)) in Hres.
    vm_compute in Hres. change (9%nat = length players) in Hres.
    destruct Hlen as [Hlen|Hlen]; rewrite Hlen in Hres; discriminate Hres.
Qed.

(** C1 (amended). For a match the eligibility filters accept, when the
    summary lists 10 participants and the keys of frame 14 are pairwise
    distinct and include every participant's id, [get_14_min_stats]
    returns exactly 10 rows, one per participant in the order of the
    summary. *)
Theorem full_roster (match_id : string) (match_data : MatchData)
    (fs : list Frame) (frame14_data : list (Z * PFrame.t)) :
  eligible match_data fs frame14_data →
  length (participants match_data) = 10%nat →
  NoDup (map fst frame14_data) →
  (∀ s, s ∈ participants match_data →
        Summary.participantId s ∈ map fst frame14_data) →
  ∃ players,
    get_14_min_stats match_id match_data (mkTimeline (Some fs)) = Ok players ∧
    length players = 10%nat ∧
    map Player.participantId players =
    map Summary.participantId (participants match_data).
Proof.
  intros (Hpatch & Hqueue & frame14 & H14 & Hpf) Hlen Hnd Hcov.
  unfold get_14_min_stats. rewrite Hpatch, Hqueue.
  rewrite bool_decide_eq_true_2 by done. cbn [negb frames].
  destruct (participants match_data) as [|s ps] eqn:Hps; [done|].
  rewrite H14, Hpf.
  destruct frame14_data as [|e l] eqn:Hl.
  { exfalso. eapply elem_of_nil. apply (Hcov s). by left. }
  rewrite <- Hl in *. clear Hl.
  eexists. split; [reflexivity|].
  assert (Hids : map Player.participantId
            (map (snapshot match_data (aggregate fs))
                 (merge (s :: ps) frame14_data)) =
          map Summary.participantId (s :: ps)).
  { rewrite snapshot_participantId. by rewrite merge_complete. }
  split; [|exact Hids].
  apply (f_equal length) in Hids. rewrite !length_map in Hids.
  rewrite length_map. by rewrite Hids.
Qed.

Lemma full_roster_witness :
  ∃ players,
    get_14_min_stats "NA1_1" Samples.ranked Samples.timeline_full =
      Ok players ∧
    length players = 10%nat ∧
    map Player.participantId players = [1; 2; 3; 4; 5; 6; 7; 8; 9; 10].
Proof.
  apply (full_roster "NA1_1" Samples.ranked
           (Samples.minutes (mkFrame (Some Samples.frame14_full) (Some [])))
           Samples.frame14_full).
  - split; [reflexivity|]. split; [reflexivity|].
    eexists. split; reflexivity.
  - reflexivity.
  - refine (bool_decide_unpack _ _). vm_compute. exact I.
  - apply Forall_forall. refine (bool_decide_unpack _ _).
    vm_compute. exact I.
Defined.

(** C8. A match whose [queueId] is not 420 gets the empty result from every
    timeline, an unreadable one included: the result does not depend on the
    timeline at all. This holds whatever the game version is. *)
Theorem rejected_queue_ignores_timeline (match_id : string)
    (match_data : MatchData) (timeline1 timeline2 : Timeline) :
  queueId match_data ≠ Some 420 →
  get_14_min_stats match_id match_data timeline1 = Ok [] ∧
  get_14_min_stats match_id match_data timeline1 =
  get_14_min_stats match_id match_data timeline2.
Proof.
  intros Hqueue.
  assert (Hempty : ∀ t, get_14_min_stats match_id match_data t = Ok []).
  { intros t. unfold get_14_min_stats.
    destruct (String.prefix _ _); [done|].
    by rewrite bool_decide_eq_false_2. }
  by rewrite !Hempty.
Qed.

Lemma rejected_queue_ignores_timeline_witness :
  get_14_min_stats "NA1_1" Samples.flex Samples.timeline_full = Ok [] ∧
  get_14_min_stats "NA1_1" Samples.flex Samples.timeline_full =
  get_14_min_stats "NA1_1" Samples.flex Samples.timeline_unreadable.
Proof.
  apply rejected_queue_ignores_timeline. discriminate.
Defined.

End extractor.

(** * Machine numbers: properties *)

Section machine_numbers.

Ltac abstract_pow :=
  repeat match goal with
  | |- context [Z.pow 2 ?x] =>
      let v := fresh "pw" in set (v := Z.pow 2 x) in *; clearbody v
  | H : context [Z.pow 2 ?x] |- _ =>
      let v := fresh "pw" in set (v := Z.pow 2 x) in *; clearbody v
  end.

Lemma fexp_above (x : Z) : -1021 ≤ x → fexp 53 1024 x = x - 53.
Proof. intros Hx. unfold fexp, emin. lia. Qed.

Lemma iter_pos_nat {A} (f : A → A) (p : positive) : ∀ x,
  iter_pos f p x = Nat.iter (Pos.to_nat p) f x.
Proof.
  induction p as [p IH|p IH|]; intros x; cbn [iter_pos].
  - rewrite !IH, Pos2Nat.inj_xI.
    replace (S (2 * Pos.to_nat p)) with (Pos.to_nat p + S (Pos.to_nat p))%nat
      by lia.
    by rewrite Nat.iter_add, Nat.iter_succ_r.
  - rewrite !IH, Pos2Nat.inj_xO.
    replace (2 * Pos.to_nat p)%nat with (Pos.to_nat p + Pos.to_nat p)%nat
      by lia.
    by rewrite Nat.iter_add.
  - done.
Qed.

Lemma shr_1_m (mrs : shr_record) :
  0 ≤ shr_m mrs → shr_m (shr_1 mrs) = shr_m mrs / 2.
Proof.
  destruct mrs as [m r s]. cbn [shr_m shr_1]. intros Hm.
  rewrite <- Z.div2_div.
  destruct m as [|[p|p|]|p]; done.
Qed.

Lemma shr_iter_m (n : nat) : ∀ mrs,
  0 ≤ shr_m mrs →
  shr_m (Nat.iter n shr_1 mrs) = shr_m mrs / 2 ^ Z.of_nat n.
Proof.
  induction n as [|n IH]; intros mrs Hm.
  - cbn. by rewrite Z.div_1_r.
  - rewrite Nat.iter_succ_r, IH by (rewrite shr_1_m by done; by apply Z.div_pos).
    rewrite shr_1_m by done. rewrite Z.div_div by lia.
    by rewrite Nat2Z.inj_succ, Z.pow_succ_r by lia.
Qed.

Lemma digits_bounds (p : positive) :
  2 ^ (Zpos (digits2_pos p) - 1) ≤ Zpos p < 2 ^ Zpos (digits2_pos p).
Proof.
  induction p as [p IH|p IH|]; cbn [digits2_pos].
  - rewrite Pos2Z.inj_succ, Pos2Z.inj_xI.
    replace (Z.succ (Zpos (digits2_pos p)) - 1)
      with (Z.succ (Zpos (digits2_pos p) - 1)) by lia.
    rewrite !Z.pow_succ_r by lia. abstract_pow. lia.
  - rewrite Pos2Z.inj_succ. change (Zpos p~0) with (2 * Zpos p).
    replace (Z.succ (Zpos (digits2_pos p)) - 1)
      with (Z.succ (Zpos (digits2_pos p) - 1)) by lia.
    rewrite !Z.pow_succ_r by lia. abstract_pow. lia.
  - done.
Qed.

Lemma digits_unique (p : positive) (d : Z) :
  2 ^ (d - 1) ≤ Zpos p < 2 ^ d → Zpos (digits2_pos p) = d.
Proof.
  intros [Hlo Hhi]. pose proof (digits_bounds p) as [Hlo' Hhi'].
  assert (0 < d).
  { destruct (decide (0 < d)) as [|Hd]; [done|]. exfalso.
    assert (2 ^ d ≤ 1); [|lia].
    destruct (decide (d = 0)) as [->|]; [done|].
    rewrite Z.pow_neg_r by lia. lia. }
  destruct (Z.lt_trichotomy (Zpos (digits2_pos p)) d) as [Hlt|[Heq|Hgt]];
    [|done|]; exfalso.
  - assert (2 ^ Zpos (digits2_pos p) ≤ 2 ^ (d - 1))
      by (apply Z.pow_le_mono_r; lia). lia.
  - assert (2 ^ d ≤ 2 ^ (Zpos (digits2_pos p) - 1))
      by (apply Z.pow_le_mono_r; lia). lia.
Qed.

Lemma iter_xO (p k : positive) :
  Zpos (Pos.iter xO p k) = Zpos p * 2 ^ Zpos k.
Proof.
  rewrite Pos2Nat.inj_iter.
  rewrite <- (positive_nat_Z k).
  generalize (Pos.to_nat k). intros n.
  induction n as [|n IH]; cbn [nat_rect].
  - change (Z.of_nat 0) with 0. rewrite Z.pow_0_r. lia.
  - rewrite (Pos2Z.inj_xO (nat_rect _ _ _ n)).
    rewrite IH, Nat2Z.inj_succ, Z.pow_succ_r by lia. ring.
Qed.

Lemma fexp_normal (e : Z) : -1074 ≤ e → fexp 53 1024 (53 + e) - e = 0.
Proof. intros He. unfold fexp, emin. lia. Qed.

(** A mantissa of 53 bits with an exponent in range is a float. *)
Lemma round_exact (s : bool) (p : positive) (e : Z) :
  Zpos (digits2_pos p) = 53 → -1074 ≤ e ≤ 971 →
  binary_round_aux 53 1024 s (Zpos p) e loc_Exact = S754_finite s p e.
Proof.
  intros Hd He. unfold binary_round_aux, shr_fexp.
  cbn [Zdigits2 shr_record_of_loc]. rewrite Hd, fexp_normal by lia.
  cbn [shr shr_m loc_of_shr_record round_nearest_even Zdigits2
       shr_record_of_loc].
  rewrite Hd, fexp_normal by lia. cbn [shr shr_m].
  by rewrite (proj2 (Z.leb_le e (1024 - 53))) by lia.
Qed.

Lemma round_nearest_even_bounds (m : Z) (l : location) :
  m ≤ round_nearest_even m l ≤ m + 1.
Proof.
  destruct l as [|[]]; cbn [round_nearest_even]; [lia|..|lia|lia].
  destruct (Z.even m); lia.
Qed.

(** A mantissa of more than 53 bits is rounded to 53 bits. *)
Lemma round_regular (s : bool) (p : positive) (e : Z) :
  let d := Zpos (digits2_pos p) in
  53 < d → -1074 ≤ e → e + d ≤ 1000 →
  ∃ m e',
    binary_round_aux 53 1024 s (Zpos p) e loc_Exact = S754_finite s m e' ∧
    Zpos (digits2_pos m) = 53 ∧ e + d - 53 ≤ e' ≤ e + d - 52.
Proof.
  intros d Hd He Hmax. unfold binary_round_aux, shr_fexp.
  cbn [Zdigits2 shr_record_of_loc]. fold d.
  assert (Hn1 : fexp 53 1024 (d + e) - e = d - 53)
    by (unfold fexp, emin; lia).
  rewrite Hn1.
  destruct (d - 53) as [|n|n] eqn:En; [lia| |lia].
  cbn [shr]. rewrite iter_pos_nat.
  set (r1 := Nat.iter (Pos.to_nat n) shr_1 _).
  assert (Hm1 : shr_m r1 = Zpos p / 2 ^ Zpos n).
  { unfold r1. rewrite shr_iter_m by done. cbn [shr_m].
    by rewrite positive_nat_Z. }
  pose proof (digits_bounds p) as [Hlo Hhi]. fold d in Hlo, Hhi.
  assert (H52 : 2 ^ 52 ≤ shr_m r1 < 2 ^ 53).
  { rewrite Hm1.
    assert (Hpow : 2 ^ d = 2 ^ 53 * 2 ^ Zpos n).
    { rewrite <- Z.pow_add_r by lia. f_equal. lia. }
    assert (Hpow' : 2 ^ (d - 1) = 2 ^ 52 * 2 ^ Zpos n).
    { rewrite <- Z.pow_add_r by lia. f_equal. lia. }
    assert (0 < 2 ^ Zpos n) by (apply Z.pow_pos_nonneg; lia).
    split.
    - apply Z.div_le_lower_bound; [done|]. rewrite Hpow' in Hlo. lia.
    - apply Z.div_lt_upper_bound; [done|]. rewrite Hpow in Hhi. lia. }
  pose proof (round_nearest_even_bounds (shr_m r1) (loc_of_shr_record r1))
    as Hr.
  set (m2 := round_nearest_even (shr_m r1) (loc_of_shr_record r1)) in *.
  destruct m2 as [|q|q] eqn:Em2; [lia| |lia].
  destruct (decide (Zpos q < 2 ^ 53)) as [Hlt|Hge].
  - assert (Hq : Zpos (digits2_pos q) = 53)
      by (apply digits_unique; lia).
    cbn [Zdigits2 shr_record_of_loc]. rewrite Hq, fexp_normal by lia.
    cbn [shr shr_m].
    rewrite (proj2 (Z.leb_le (e + Zpos n) (1024 - 53))) by lia.
    exists q, (e + Zpos n). split; [done|]. split; [done|]. lia.
  - assert (Hq : Zpos q = 2 ^ 53) by lia.
    assert (q = 9007199254740992%positive) as -> by lia.
    cbn [Zdigits2 shr_record_of_loc].
    change (Zpos (digits2_pos 9007199254740992)) with 54.
    assert (Hn2 : fexp 53 1024 (54 + (e + Zpos n)) - (e + Zpos n) = 1)
      by (unfold fexp, emin; lia).
    rewrite Hn2. cbn [shr iter_pos shr_1 shr_m].
    rewrite (proj2 (Z.leb_le (e + Zpos n + 1) (1024 - 53))) by lia.
    eexists _, _. split; [done|]. split; [done|]. lia.
Qed.

Lemma digits_le (p : positive) (k : Z) :
  Zpos p < 2 ^ k → Zpos (digits2_pos p) ≤ k.
Proof.
  intros Hp. pose proof (digits_bounds p) as [Hlo _].
  destruct (decide (Zpos (digits2_pos p) ≤ k)) as [|Hgt]; [done|]. exfalso.
  assert (2 ^ k ≤ 2 ^ (Zpos (digits2_pos p) - 1)); [|lia].
  destruct (decide (0 ≤ k)).
  - apply Z.pow_le_mono_r; lia.
  - rewrite (Z.pow_neg_r 2 k) by lia. lia.
Qed.

(** The mantissa and exponent of an integer below 2^53, which needs no
    rounding. *)
Lemma binary_round_small (s : bool) (p : positive) :
  let d := Zpos (digits2_pos p) in
  Zpos p < 2 ^ 53 →
  binary_round 53 1024 s p 0 =
  S754_finite s (Z.to_pos (Zpos p * 2 ^ (53 - d))) (d - 53).
Proof.
  intros d Hp. unfold binary_round, shl_align.
  pose proof (digits_le p 53 Hp) as Hd. fold d in Hd.
  pose proof (digits_bounds p) as [Hlo Hhi]. fold d in Hlo, Hhi.
  assert (Hf : fexp 53 1024 (d + 0) = d - 53)
    by (unfold fexp, emin; lia).
  fold d. rewrite Hf, Z.sub_0_r.
  destruct (d - 53) as [|k|k] eqn:Ek; [|lia|].
  - replace (53 - d) with 0 by lia. rewrite Z.mul_1_r, Pos2Z.id.
    apply round_exact; lia.
  - assert (Hk : Zpos k = 53 - d) by lia.
    assert (Hm : Zpos (Pos.iter xO p k) = Zpos p * 2 ^ (53 - d))
      by (rewrite iter_xO; by rewrite Hk).
    rewrite <- Hm, Pos2Z.id. apply round_exact; [|lia].
    apply digits_unique. rewrite Hm.
    assert (Hpow : 2 ^ 53 = 2 ^ d * 2 ^ (53 - d)).
    { rewrite <- Z.pow_add_r by lia. f_equal. lia. }
    assert (Hpow' : 2 ^ (53 - 1) = 2 ^ (d - 1) * 2 ^ (53 - d)).
    { rewrite <- Z.pow_add_r by lia. f_equal. lia. }
    assert (0 < 2 ^ (53 - d)) by (apply Z.pow_pos_nonneg; lia).
    rewrite Hpow, Hpow'. split; nia.
Qed.

(** Every 64-bit integer that is not zero becomes a normal float of its
    sign. *)
Lemma binary_round_regular (s : bool) (p : positive) :
  Zpos p ≤ 2 ^ 63 →
  ∃ m e, binary_round 53 1024 s p 0 = S754_finite s m e ∧
         Zpos (digits2_pos m) = 53 ∧ -52 ≤ e ≤ 12.
Proof.
  intros Hp.
  pose proof (digits_le p 64 ltac:(lia)) as Hd.
  destruct (decide (Zpos p < 2 ^ 53)) as [Hsmall|Hbig].
  - rewrite binary_round_small by done.
    pose proof (digits_le p 53 Hsmall) as Hd'.
    pose proof (digits_bounds p) as [Hlo Hhi].
    set (d := Zpos (digits2_pos p)) in *.
    eexists _, _. split; [done|]. split; [|lia].
    assert (Hpow : 2 ^ 53 = 2 ^ d * 2 ^ (53 - d)).
    { rewrite <- Z.pow_add_r by lia. f_equal. lia. }
    assert (Hpow' : 2 ^ (53 - 1) = 2 ^ (d - 1) * 2 ^ (53 - d)).
    { rewrite <- Z.pow_add_r by lia. f_equal. lia. }
    assert (0 < 2 ^ (53 - d)) by (apply Z.pow_pos_nonneg; lia).
    apply digits_unique. rewrite Z2Pos.id by nia.
    rewrite Hpow, Hpow'. split; nia.
  - pose proof (digits_bounds p) as [Hlo Hhi].
    set (d := Zpos (digits2_pos p)) in *.
    assert (53 < d).
    { destruct (decide (53 < d)) as [|Hle]; [done|]. exfalso.
      assert (2 ^ d ≤ 2 ^ 53) by (apply Z.pow_le_mono_r; lia). lia. }
    unfold binary_round, shl_align. fold d.
    assert (Hf : fexp 53 1024 (d + 0) = d - 53)
      by (unfold fexp, emin; lia).
    rewrite Hf, Z.sub_0_r. destruct (d - 53) as [|k|k] eqn:Ek; [lia| |lia].
    destruct (round_regular s p 0) as (m & e & Hr & Hm & He);
      [by fold d|lia|fold d; lia|].
    fold d in He. exists m, e. split; [done|]. split; [done|]. lia.
Qed.

(** Halving a normal float is exact: the exponent goes down by one. *)
Lemma fdiv_two (s : bool) (m : positive) (e : Z) :
  Zpos (digits2_pos m) = 53 → -1000 ≤ e ≤ 900 →
  fdiv (S754_finite s m e) (of_int64 2) = S754_finite s m (e - 1).
Proof.
  intros Hd He.
  change (of_int64 2) with (S754_finite false 4503599627370496 (-51)).
  unfold fdiv, SFdiv, SFdiv_core_binary. cbn [Zdigits2]. rewrite Hd.
  change (Zpos (digits2_pos 4503599627370496)) with 53.
  assert (He' : Z.min (fexp 53 1024 (53 + e - (53 + -51))) (e - -51) = e - 2)
    by (unfold fexp, emin; lia).
  rewrite He'. replace (e - -51 - (e - 2)) with 53 by lia.
  cbv iota. rewrite Z.shiftl_mul_pow2 by lia.
  replace (Zpos m * 2 ^ 53) with (Zpos m~0 * 4503599627370496) by lia.
  destruct (Z.div_eucl (Zpos m~0 * 4503599627370496) 4503599627370496)
    as [q r] eqn:Ediv.
  assert (Hq : q = Zpos m~0).
  { rewrite <- (Z.div_mul (Zpos m~0) 4503599627370496) by done.
    unfold Z.div. by rewrite Ediv. }
  assert (Hr : r = 0).
  { rewrite <- (Z.mod_mul (Zpos m~0) 4503599627370496) by done.
    unfold Z.modulo. by rewrite Ediv. }
  subst q r. change (new_location 4503599627370496 0) with loc_Exact.
  unfold binary_round_aux, shr_fexp. cbn [Zdigits2 digits2_pos].
  change (Zpos (PosDef.Pos.succ (digits2_pos m)))
    with (Zpos (Pos.succ (digits2_pos m))).
  rewrite (Pos2Z.inj_succ (digits2_pos m)).
  assert (Hn : fexp 53 1024 (Z.succ (Zpos (digits2_pos m)) + (e - 2))
               - (e - 2) = 1)
    by (unfold fexp, emin; lia).
  rewrite Hn.
  cbn [shr shr_record_of_loc iter_pos shr_1 shr_m loc_of_shr_record
       round_nearest_even Zdigits2 orb].
  rewrite Hd, fexp_normal by lia. cbn [shr shr_m].
  rewrite (proj2 (Z.leb_le (e - 2 + 1) (1024 - 53))) by lia.
  rewrite xorb_false_r. f_equal. lia.
Qed.

Lemma of_int64_2 : of_int64 2 = S754_finite false 4503599627370496 (-51).
Proof. reflexivity. Qed.

(** [abs(n) / 2] for a 64-bit integer: zero, or a normal float of the sign
    of [n]. *)
Lemma true_divide_2_regular (n : Z) :
  n ≠ 0 → Z.abs n ≤ 2 ^ 63 →
  ∃ m e, true_divide n 2 = S754_finite (n <? 0) m e ∧
         Zpos (digits2_pos m) = 53 ∧ -53 ≤ e ≤ 11.
Proof.
  intros Hn Hb. unfold true_divide, of_int64 at 1, binary_normalize.
  destruct n as [|p|p]; [done|..].
  - destruct (binary_round_regular false p) as (m & e & -> & Hm & He);
      [lia|].
    exists m, (e - 1). rewrite fdiv_two by (done || lia).
    split; [done|]. split; [done|lia].
  - destruct (binary_round_regular true p) as (m & e & -> & Hm & He);
      [lia|].
    exists m, (e - 1). rewrite fdiv_two by (done || lia).
    split; [done|]. split; [done|lia].
Qed.

Lemma true_divide_0 : true_divide 0 2 = S754_zero false.
Proof. reflexivity. Qed.

(** Below 2^53 the quotient is the exact half. *)
Lemma true_divide_2_exact (n : Z) :
  Z.abs n < 2 ^ 53 → (real (true_divide n 2) == n # 2)%Q.
Proof.
  intros Hb. destruct n as [|p|p]; [done|..].
  - unfold true_divide, of_int64 at 1, binary_normalize.
    rewrite binary_round_small by lia.
    pose proof (digits_le p 53 ltac:(lia)) as Hd.
    pose proof (digits_bounds p) as [Hlo Hhi].
    set (d := Zpos (digits2_pos p)) in *.
    assert (Hpow : 2 ^ 53 = 2 ^ d * 2 ^ (53 - d)).
    { rewrite <- Z.pow_add_r by lia. f_equal. lia. }
    assert (Hpow' : 2 ^ (53 - 1) = 2 ^ (d - 1) * 2 ^ (53 - d)).
    { rewrite <- Z.pow_add_r by lia. f_equal. lia. }
    assert (0 < 2 ^ (53 - d)) by (apply Z.pow_pos_nonneg; lia).
    assert (Hm : Zpos (Z.to_pos (Zpos p * 2 ^ (53 - d)))
                 = Zpos p * 2 ^ (53 - d)) by (rewrite Z2Pos.id; nia).
    rewrite fdiv_two; [| |lia].
    2: { apply digits_unique. rewrite Hm, Hpow, Hpow'. split; nia. }
    unfold real. rewrite (proj2 (Z.leb_gt 0 (d - 53 - 1))) by lia.
    unfold Qeq. cbn [Qnum Qden]. rewrite Hm.
    rewrite Z2Pos.id by (apply Z.pow_pos_nonneg; lia).
    replace (- (d - 53 - 1)) with (Z.succ (53 - d)) by lia.
    rewrite Z.pow_succ_r by lia. ring.
  - unfold true_divide, of_int64 at 1, binary_normalize.
    rewrite binary_round_small by lia.
    pose proof (digits_le p 53 ltac:(lia)) as Hd.
    pose proof (digits_bounds p) as [Hlo Hhi].
    set (d := Zpos (digits2_pos p)) in *.
    assert (Hpow : 2 ^ 53 = 2 ^ d * 2 ^ (53 - d)).
    { rewrite <- Z.pow_add_r by lia. f_equal. lia. }
    assert (Hpow' : 2 ^ (53 - 1) = 2 ^ (d - 1) * 2 ^ (53 - d)).
    { rewrite <- Z.pow_add_r by lia. f_equal. lia. }
    assert (0 < 2 ^ (53 - d)) by (apply Z.pow_pos_nonneg; lia).
    assert (Hm : Zpos (Z.to_pos (Zpos p * 2 ^ (53 - d)))
                 = Zpos p * 2 ^ (53 - d)) by (rewrite Z2Pos.id; nia).
    rewrite fdiv_two; [| |lia].
    2: { apply digits_unique. rewrite Hm, Hpow, Hpow'. split; nia. }
    unfold real. rewrite (proj2 (Z.leb_gt 0 (d - 53 - 1))) by lia.
    unfold Qeq. cbn [Qnum Qden].
    change (Zneg ?q) with (- Zpos q). rewrite Hm.
    rewrite Z2Pos.id by (apply Z.pow_pos_nonneg; lia).
    replace (- (d - 53 - 1)) with (Z.succ (53 - d)) by lia.
    rewrite Z.pow_succ_r by lia. ring.
Qed.


Lemma true_divide_2_half (n : Z) :
  Z.abs n ≤ 2 ^ 53 → (real (true_divide n 2) == n # 2)%Q.
Proof.
  intros Hb. destruct (decide (Z.abs n < 2 ^ 53)) as [Hlt|Hge].
  - by apply true_divide_2_exact.
  - assert (n = 2 ^ 53 ∨ n = - 2 ^ 53) as [-> | ->] by lia; by vm_compute.
Qed.

Lemma wrap64_range (n : Z) : int64 (wrap64 n).
Proof.
  unfold int64, wrap64.
  pose proof (Z.mod_pos_bound (n + 2 ^ 63) (2 ^ 64) ltac:(lia)). lia.
Qed.

Lemma wrap64_int64 (n : Z) : int64 n → wrap64 n = n.
Proof.
  unfold int64, wrap64. intros Hn. rewrite Z.mod_small by lia. lia.
Qed.

(** The half of a 64-bit integer is a number. *)
Lemma true_divide_2_finite (n : Z) : int64 n → finite (true_divide n 2).
Proof.
  intros Hn. destruct (decide (n = 0)) as [->|Hne]; [done|].
  destruct (true_divide_2_regular n Hne) as (m & e & -> & _); [|done].
  unfold int64 in Hn. lia.
Qed.

(** A number and its opposite add up to [0.0]. *)
Lemma fadd_fneg_r (x : float64) : finite x → fadd x (fneg x) = fzero.
Proof.
  destruct x as [s| | |s m e]; try done; intros _.
  - by destruct s.
  - unfold fadd, fneg, SFopp, SFadd, shl_align. rewrite Z.min_id, Z.sub_diag.
    cbn [fst]. by destruct s; cbn [negb cond_Zopp]; rewrite ?Z.add_opp_diag_r,
      ?Z.add_opp_diag_l.
Qed.

Lemma fadd_fneg_l (x : float64) : finite x → fadd (fneg x) x = fzero.
Proof.
  destruct x as [s| | |s m e]; try done; intros _.
  - by destruct s.
  - unfold fadd, fneg, SFopp, SFadd, shl_align. rewrite Z.min_id, Z.sub_diag.
    cbn [fst]. by destruct s; cbn [negb cond_Zopp]; rewrite ?Z.add_opp_diag_r,
      ?Z.add_opp_diag_l.
Qed.

Lemma real_fneg (x : float64) : (real (fneg x) == - real x)%Q.
Proof.
  destruct x as [s| | |s m e]; try done.
  unfold fneg, SFopp, real. destruct (0 <=? e), s; cbn [negb];
    unfold Qeq, Qopp, inject_Z; cbn [Qnum Qden]; lia.
Qed.

End machine_numbers.

(** * The role-differential transforms: properties *)

Section transforms.

Lemma getitem_setitem name col cols :
  getitem name (setitem name col cols) = Some col.
Proof.
  induction cols as [|c cols IH]; simpl.
  - by rewrite decide_True.
  - destruct (decide (c.1 = name)) as [E|E]; simpl.
    + by rewrite decide_True.
    + by rewrite decide_False.
Qed.

Lemma getitem_setitem_ne name name' col cols :
  name' ≠ name →
  getitem name' (setitem name col cols) = getitem name' cols.
Proof.
  intros Hne. induction cols as [|c cols IH]; simpl.
  - by rewrite decide_False.
  - destruct (decide (c.1 = name)) as [E|E]; simpl.
    + rewrite decide_False by done. rewrite decide_False by congruence. done.
    + destruct (decide (c.1 = name')); [done|apply IH].
Qed.

Lemma setitem_setitem name col1 col2 cols :
  setitem name col2 (setitem name col1 cols) = setitem name col2 cols.
Proof.
  induction cols as [|c cols IH]; simpl.
  - by rewrite decide_True.
  - destruct (decide (c.1 = name)) as [E|E]; simpl.
    + by rewrite decide_True.
    + rewrite decide_False by done. by rewrite IH.
Qed.

(** Writing a column that is not there appends it. *)
Lemma setitem_absent name col cols :
  getitem name cols = None → setitem name col cols = cols ++ [(name, col)].
Proof.
  induction cols as [|c cols IH]; simpl; [done|].
  destruct (decide (c.1 = name)); [done|].
  intros Hnone. by rewrite IH.
Qed.

Lemma zip_with_upd label v (f : Z * Player.t → float64) rs :
  zip_with (λ (r : Z * Player.t) q, if decide (r.1 = label) then v else q)
           rs (map f rs) =
  map (upd label v f) rs.
Proof. induction rs as [|r rs IH]; [done|]. simpl. by rewrite IH. Qed.

Lemma loc_assign_written label out v f df :
  loc_assign label out v (written f out df) =
  written (upd label v f) out df.
Proof.
  unfold loc_assign, written. cbn [rows columns].
  by rewrite getitem_setitem, setitem_setitem, zip_with_upd.
Qed.

Lemma pair_up_written value out (l : positive) (σ : gmap positive DataFrame)
    f df group :
  pair_up value out l (<[l := written f out df]> σ) group =
  <[l := written (pair_write value f group) out df]> σ.
Proof.
  unfold pair_up, pair_write.
  destruct group as [|p1 [|p2 [|p3 group]]]; try done.
  destruct (0 <? _); by rewrite !alter_insert_eq, !loc_assign_written.
Qed.

Lemma inner_loop_written value out (l : positive)
    (σ : gmap positive DataFrame) df
    (gs : list (string * list (Z * Player.t))) : ∀ f,
  foldl (λ σ by_role, pair_up value out l σ by_role.2)
        (<[l := written f out df]> σ) gs =
  <[l := written (foldl (pair_write value) f (map snd gs)) out df]> σ.
Proof.
  induction gs as [|g gs IH]; intros f; [done|].
  cbn [foldl map]. by rewrite pair_up_written, IH.
Qed.

Lemma outer_loop_written value out (l : positive)
    (σ : gmap positive DataFrame) df
    (ms : list (string * list (Z * Player.t))) : ∀ f,
  foldl (λ σ by_match,
           foldl (λ σ by_role, pair_up value out l σ by_role.2)
                 σ (groupby Player.teamPosition by_match.2))
        (<[l := written f out df]> σ) ms =
  <[l := written
           (foldl (pair_write value) f
              (flat_map (λ by_match,
                 map snd (groupby Player.teamPosition by_match.2)) ms))
           out df]> σ.
Proof.
  induction ms as [|m ms IH]; intros f; [done|].
  cbn [foldl flat_map]. by rewrite inner_loop_written, IH, foldl_app.
Qed.

(** The transform as a whole: the input is copied to a fresh object and
    the copy gets the column of the values the loops leave. *)
Lemma role_diff_written value out players (σ : gmap positive DataFrame) df :
  σ !! players = Some df →
  role_diff value out players σ =
  Some (fresh (dom σ),
        <[fresh (dom σ) :=
            written (foldl (pair_write value) (λ _, fzero)
                           (role_groups (rows df))) out df]> σ).
Proof.
  intros Hdf. unfold role_diff, copy. rewrite Hdf. cbn [mbind option_bind].
  rewrite alter_insert_eq, lookup_insert_eq. cbn [mbind option_bind].
  change (assign_scalar out fzero df) with (written (λ _, fzero) out df).
  cbn [rows written]. by rewrite outer_loop_written.
Qed.

Lemma run_role_diff t :
  run t = role_diff (value_column t) (output_column t).
Proof. by destruct t. Qed.

Lemma cell_written f out df i :
  cell out i (written f out df) = f <$> rows df !! i.
Proof.
  unfold cell, written. cbn [columns]. rewrite getitem_setitem.
  cbn [mbind option_bind]. apply list_lookup_fmap.
Qed.

(** *** The groups the loops visit *)

Lemma elem_of_map {A B} (f : A → B) l y :
  y ∈ map f l ↔ ∃ x, y = f x ∧ x ∈ l.
Proof. apply list_elem_of_fmap. Qed.

Lemma elem_of_flat_map {A B} (f : A → list B) l y :
  y ∈ flat_map f l ↔ ∃ x, x ∈ l ∧ y ∈ f x.
Proof.
  rewrite list_elem_of_In, in_flat_map.
  split; intros (x & H1 & H2); exists x; by rewrite ?list_elem_of_In in *.
Qed.

Lemma groupby_inv key rs x :
  x ∈ groupby key rs → ∃ k, x = (k, filter (λ r, key r.2 = k) rs).
Proof.
  unfold groupby. rewrite elem_of_map. intros (k & -> & _). by exists k.
Qed.

Lemma groupby_elem key rs (r : Z * Player.t) :
  r ∈ rs →
  (key r.2, filter (λ r', key r'.2 = key r.2) rs) ∈ groupby key rs.
Proof.
  intros Hr. unfold groupby. apply elem_of_map. exists (key r.2).
  split; [done|].
  rewrite merge_sort_Permutation, elem_of_remove_dups.
  apply elem_of_map. by exists r.
Qed.

Lemma role_groups_inv rs g :
  g ∈ role_groups rs → ∃ m k, g = role_group m k rs.
Proof.
  unfold role_groups. rewrite elem_of_flat_map.
  intros (by_match & Hm & Hg).
  apply groupby_inv in Hm as [m ->]. cbn [snd] in Hg.
  apply elem_of_map in Hg as (by_role & -> & Hk).
  apply groupby_inv in Hk as [k ->]. by exists m, k.
Qed.

Lemma role_groups_elem rs (r : Z * Player.t) :
  r ∈ rs →
  role_group (Player.match_id r.2) (Player.teamPosition r.2) rs
    ∈ role_groups rs.
Proof.
  intros Hr. unfold role_groups. apply elem_of_flat_map.
  eexists. split; [by apply (groupby_elem Player.match_id)|].
  cbn [snd]. apply elem_of_map.
  eexists. split; [|apply (groupby_elem Player.teamPosition _ r)].
  - reflexivity.
  - by apply list_elem_of_filter.
Qed.

Lemma role_group_elem m k rs (r : Z * Player.t) :
  r ∈ role_group m k rs ↔
  Player.teamPosition r.2 = k ∧ Player.match_id r.2 = m ∧ r ∈ rs.
Proof. unfold role_group. by rewrite !list_elem_of_filter. Qed.

(** *** Rows with distinct index labels *)

Lemma label_inj (rs : list (Z * Player.t)) r r' :
  NoDup (map fst rs) → r ∈ rs → r' ∈ rs → r.1 = r'.1 → r = r'.
Proof.
  intros Hnd Hr Hr' Heq.
  apply list_elem_of_lookup in Hr as [i Hi].
  apply list_elem_of_lookup in Hr' as [j Hj].
  assert (i = j) as ->.
  { apply (NoDup_lookup (map fst rs) i j r.1 Hnd).
    - change (map fst rs) with (fst <$> rs).
      by rewrite list_lookup_fmap, Hi.
    - change (map fst rs) with (fst <$> rs).
      by rewrite list_lookup_fmap, Hj, Heq. }
  congruence.
Qed.

Lemma role_group_NoDup m k (rs : list (Z * Player.t)) :
  NoDup (map fst rs) → NoDup (role_group m k rs).
Proof.
  intros Hnd. unfold role_group. do 2 apply NoDup_filter.
  by apply (NoDup_fmap_1 fst).
Qed.

Lemma pair_write_unpaired value f group :
  length group ≠ 2%nat → pair_write value f group = f.
Proof. by destruct group as [|p1 [|p2 [|p3 group]]]. Qed.

(** A role group writes the label of a row only if it is the row's own
    group. *)
Lemma pair_write_other value rs g (r : Z * Player.t) f :
  NoDup (map fst rs) → r ∈ rs → g ∈ role_groups rs →
  pair_write value f g r = f r ∨
  g = role_group (Player.match_id r.2) (Player.teamPosition r.2) rs.
Proof.
  intros Hnd Hr Hg. apply role_groups_inv in Hg as (m & k & Hg).
  assert (Hown : ∀ q, q ∈ g → r.1 = q.1 →
            g = role_group (Player.match_id r.2)
                           (Player.teamPosition r.2) rs).
  { intros q Hq Heq. rewrite Hg in Hq.
    apply role_group_elem in Hq as (Hk & Hm & Hq).
    assert (r = q) as -> by by apply (label_inj rs).
    by rewrite Hk, Hm. }
  destruct g as [|q1 [|q2 [|q3 g]]]; try by left.
  unfold pair_write, upd.
  destruct (decide (r.1 = q2.1)) as [E2|E2].
  { right. apply (Hown q2); [|done]. apply elem_of_cons. right. by left. }
  destruct (decide (r.1 = q1.1)) as [E1|E1].
  { right. apply (Hown q1); [|done]. by left. }
  left. destruct (0 <? _); by rewrite !decide_False.
Qed.

Lemma foldl_keep {A}
    (step : (Z * Player.t → float64) → A → Z * Player.t → float64)
    (r : Z * Player.t) G : ∀ f,
  (∀ g f, g ∈ G → step f g r = f r) →
  foldl step f G r = f r.
Proof.
  induction G as [|g G IH]; intros f Hstep; [done|].
  cbn [foldl]. rewrite IH.
  - apply Hstep. by left.
  - intros g' f' Hg'. apply Hstep. by right.
Qed.

Lemma foldl_settle {A}
    (step : (Z * Player.t → float64) → A → Z * Player.t → float64)
    (r : Z * Player.t) (own : A) (e : float64) G f :
  own ∈ G →
  (∀ g f, g ∈ G → step f g r = f r ∨ g = own) →
  (∀ f, step f own r = e) →
  foldl step f G r = e.
Proof.
  intros Hown Hstep He.
  apply list_elem_of_split in Hown as (G1 & G2 & ->).
  rewrite foldl_app. cbn [foldl].
  assert (Hrest : ∀ G' f', (∀ g, g ∈ G' → g ∈ G1 ++ own :: G2) →
            f' r = e → foldl step f' G' r = e).
  { induction G' as [|g G' IH]; intros f' Hsub Hf'; [done|].
    cbn [foldl]. apply IH.
    - intros g' Hg'. apply Hsub. by right.
    - destruct (Hstep g f') as [Hk| ->].
      + apply Hsub. by left.
      + by rewrite Hk.
      + apply He. }
  apply Hrest; [|apply He].
  intros g Hg. apply elem_of_app. right. by right.
Qed.

(** The values the loops leave, row by row, for distinct labels. *)
Lemma written_unpaired value rs (r : Z * Player.t) :
  NoDup (map fst rs) → r ∈ rs →
  length (role_group (Player.match_id r.2) (Player.teamPosition r.2) rs)
    ≠ 2%nat →
  foldl (pair_write value) (λ _, fzero) (role_groups rs) r = fzero.
Proof.
  intros Hnd Hr Hlen.
  rewrite foldl_keep; [done|].
  intros g f Hg.
  destruct (pair_write_other value rs g r f Hnd Hr Hg) as [Hk| ->]; [done|].
  by rewrite pair_write_unpaired.
Qed.

Lemma written_paired value rs m k (p1 p2 : Z * Player.t) :
  NoDup (map fst rs) →
  role_group m k rs = [p1; p2] →
  let diff := int64_sub (value p1.2) (value p2.2) in
  let half_diff := true_divide (int64_abs diff) 2 in
  let F := foldl (pair_write value) (λ _, fzero) (role_groups rs) in
  F p1 = (if 0 <? diff then half_diff else fneg half_diff) ∧
  F p2 = (if 0 <? diff then fneg half_diff else half_diff).
Proof.
  intros Hnd Hg diff half_diff F.
  assert (Hin : ∀ p, p ∈ [p1; p2] →
            Player.teamPosition p.2 = k ∧ Player.match_id p.2 = m ∧ p ∈ rs).
  { intros p Hp. rewrite <- Hg in Hp. by apply role_group_elem in Hp. }
  destruct (Hin p1) as (Hk1 & Hm1 & Hr1); [by left|].
  destruct (Hin p2) as (Hk2 & Hm2 & Hr2); [apply elem_of_cons; right; by left|].
  assert (Hne : p1.1 ≠ p2.1).
  { intros Heq. pose proof (role_group_NoDup m k rs Hnd) as Hnd2.
    rewrite Hg in Hnd2. apply NoDup_cons in Hnd2 as [Hnot _].
    apply Hnot. rewrite (label_inj rs p1 p2 Hnd Hr1 Hr2 Heq). by left. }
  split.
  - unfold F. apply (foldl_settle _ p1 [p1; p2]).
    + rewrite <- Hg, <- Hm1, <- Hk1. by apply role_groups_elem.
    + intros g f Hgin.
      destruct (pair_write_other value rs g p1 f Hnd Hr1 Hgin) as [Hk| ->];
        [by left|right]. by rewrite Hm1, Hk1.
    + intros f. unfold pair_write, upd. fold diff. fold half_diff.
      destruct (0 <? diff);
        rewrite decide_False by done; by rewrite decide_True.
  - unfold F. apply (foldl_settle _ p2 [p1; p2]).
    + rewrite <- Hg, <- Hm2, <- Hk2. by apply role_groups_elem.
    + intros g f Hgin.
      destruct (pair_write_other value rs g p2 f Hnd Hr2 Hgin) as [Hk| ->];
        [by left|right]. by rewrite Hm2, Hk2.
    + intros f. unfold pair_write, upd. fold diff. fold half_diff.
      destruct (0 <? diff); by rewrite decide_True.
Qed.

Lemma filter_order {A} (P : A → Prop) `{∀ x, Decision (P x)} (p1 p2 : A) l :
  ∀ i j, NoDup l → filter P l = [p1; p2] →
         l !! i = Some p1 → l !! j = Some p2 → (i < j)%nat.
Proof.
  induction l as [|a l IH]; intros i j Hnd Hf Hi Hj; [done|].
  apply NoDup_cons in Hnd as [Ha Hnd].
  rewrite filter_cons in Hf. destruct (decide (P a)) as [HP|HP].
  - injection Hf as -> Hf.
    assert (p2 ∈ l) as Hp2.
    { apply (list_elem_of_filter P l p2). rewrite Hf. by left. }
    destruct i as [|i].
    + destruct j as [|j]; [|lia]. injection Hj as Hj.
      exfalso. apply Ha. by rewrite Hj.
    + exfalso. apply Ha. cbn in Hi. by apply list_elem_of_lookup_2 in Hi.
  - assert (Hin : ∀ p, p ∈ [p1; p2] → P p).
    { intros p Hp. rewrite <- Hf in Hp.
      by apply list_elem_of_filter in Hp as [HPp _]. }
    destruct i as [|i].
    { injection Hi as ->. destruct HP. apply Hin. by left. }
    destruct j as [|j].
    { injection Hj as ->. destruct HP. apply Hin. apply elem_of_cons.
      right. by left. }
    cbn in Hi, Hj. pose proof (IH i j Hnd Hf Hi Hj). lia.
Qed.

(** The outcome of a transform on a table with distinct labels: a new
    object whose output column holds, row by row, what the loops leave. *)
Lemma run_cells t (σ : gmap positive DataFrame) players df :
  σ !! players = Some df →
  ∃ players' σ' df',
    run t players σ = Some (players', σ') ∧
    σ' !! players' = Some df' ∧
    ∀ i, cell (output_column t) i df' =
         foldl (pair_write (value_column t)) (λ _, fzero)
               (role_groups (rows df)) <$> rows df !! i.
Proof.
  intros Hdf. rewrite run_role_diff.
  eexists _, _, _. split; [by apply role_diff_written|].
  split; [apply lookup_insert_eq|].
  intros i. apply cell_written.
Qed.

(** *** The arithmetic of one pair *)

(** What the two rows of a pair get: a number and its opposite, which add
    up to [0.0]. Each is half of the lead of its row over the other one
    when the difference is at most 2^53 in size, so that neither the
    subtraction wraps nor the conversion rounds. *)
Lemma pair_outputs (v1 v2 : Z) :
  let diff := int64_sub v1 v2 in
  let half_diff := true_divide (int64_abs diff) 2 in
  let out1 := if 0 <? diff then half_diff else fneg half_diff in
  let out2 := if 0 <? diff then fneg half_diff else half_diff in
  fadd out1 out2 = fzero ∧
  (Z.abs (v1 - v2) ≤ 2 ^ 53 →
   (real out1 == (v1 - v2) # 2)%Q ∧ (real out2 == (v2 - v1) # 2)%Q).
Proof.
  intros diff half_diff out1 out2.
  assert (Hfin : finite half_diff).
  { apply true_divide_2_finite, wrap64_range. }
  split.
  - unfold out1, out2.
    destruct (0 <? diff); [by apply fadd_fneg_r|by apply fadd_fneg_l].
  - intros Hb.
    assert (Hd : diff = v1 - v2).
    { unfold diff, int64_sub. apply wrap64_int64. unfold int64. lia. }
    assert (Ha : int64_abs diff = Z.abs (v1 - v2)).
    { rewrite Hd. unfold int64_abs. apply wrap64_int64. unfold int64. lia. }
    assert (Hh : (real half_diff == Z.abs (v1 - v2) # 2)%Q).
    { unfold half_diff. rewrite Ha. apply true_divide_2_half. lia. }
    unfold out1, out2. rewrite Hd.
    destruct (Z.ltb_spec 0 (v1 - v2)); rewrite ?real_fneg, Hh;
      split; unfold Qeq, Qopp; cbn [Qnum Qden]; lia.
Qed.

(** A difference that fits in 64 bits with its absolute value is computed
    as it stands. *)
Lemma int64_sub_exact (v1 v2 : Z) :
  - 2 ^ 63 < v1 - v2 < 2 ^ 63 →
  int64_sub v1 v2 = v1 - v2 ∧
  int64_abs (int64_sub v1 v2) = Z.abs (v1 - v2).
Proof.
  intros Hr.
  assert (Hd : int64_sub v1 v2 = v1 - v2).
  { unfold int64_sub. apply wrap64_int64. unfold int64. lia. }
  split; [done|]. rewrite Hd. unfold int64_abs.
  apply wrap64_int64. unfold int64. lia.
Qed.

(** C2 (as stated, refuted). Two junglers with 10000 and 12000 gold that
    carry the same index label form a valid role group, and both get
    +1000: every [.loc] write goes to both rows, and the last one wins.
    Their outputs sum to 2000. On a table with distinct labels, two
    junglers whose gold differs by 2^53 + 1 get +2^52 and -2^52: the
    conversion to binary64 rounds the difference, and the outputs are
    2^53 apart. *)
Lemma role_diff_not_zero_sum :
  (∃ players' σ' df',
     role_gold_diff 1%positive (DiffSamples.store_of DiffSamples.relabelled)
       = Some (players', σ') ∧
     σ' !! players' = Some df' ∧
     role_group "NA1_1" "JUNGLE" (rows DiffSamples.relabelled)
       = rows DiffSamples.relabelled ∧
     ¬ zero_sum "roleGoldDiff" df' 0 1) ∧
  (∃ players' σ' df',
     role_gold_diff 1%positive (DiffSamples.store_of DiffSamples.wide)
       = Some (players', σ') ∧
     σ' !! players' = Some df' ∧
     role_group "NA1_1" "JUNGLE" (rows DiffSamples.wide)
       = rows DiffSamples.wide ∧
     NoDup (map fst (rows DiffSamples.wide)) ∧
     int64_column Player.totalGold (rows DiffSamples.wide) ∧
     ¬ same_gap "roleGoldDiff" df' 0 1 9007199254740993 0).
Proof.
  split.
  - destruct (run_cells Gold (DiffSamples.store_of DiffSamples.relabelled)
                1%positive DiffSamples.relabelled eq_refl)
      as (players' & σ' & df' & Hrun & Hdf' & Hcell).
    exists players', σ', df'.
    split; [exact Hrun|]. split; [exact Hdf'|]. split; [reflexivity|].
    intros (out1 & out2 & H1 & H2 & Hsum).
    rewrite (Hcell 0%nat : cell "roleGoldDiff" 0 df' = _) in H1.
    rewrite (Hcell 1%nat : cell "roleGoldDiff" 1 df' = _) in H2.
    vm_compute in H1, H2. injection H1 as <-. injection H2 as <-.
    vm_compute in Hsum. discriminate Hsum.
  - destruct (run_cells Gold (DiffSamples.store_of DiffSamples.wide)
                1%positive DiffSamples.wide eq_refl)
      as (players' & σ' & df' & Hrun & Hdf' & Hcell).
    exists players', σ', df'.
    split; [exact Hrun|]. split; [exact Hdf'|]. split; [reflexivity|].
    split; [refine (bool_decide_unpack _ _); vm_compute; exact I|].
    split; [refine (bool_decide_unpack _ _); vm_compute; exact I|].
    intros (out1 & out2 & H1 & H2 & Hgap).
    rewrite (Hcell 0%nat : cell "roleGoldDiff" 0 df' = _) in H1.
    rewrite (Hcell 1%nat : cell "roleGoldDiff" 1 df' = _) in H2.
    vm_compute in H1, H2. injection H1 as <-. injection H2 as <-.
    vm_compute in Hgap. discriminate Hgap.
Qed.

(** C2 (amended). On a table with distinct index labels, the outputs of
    the two rows of a valid role group sum to [0.0], for each of the six
    transforms. When the column read is an [int64] column and the two
    values differ by at most 2^53, the distance of the two outputs is the
    distance of the two values. *)
Theorem role_diff_zero_sum (t : Transform) (σ : gmap positive DataFrame)
    (players : positive) (df : DataFrame) (m k : string)
    (p1 p2 : Z * Player.t) (i j : nat) :
  σ !! players = Some df →
  NoDup (map fst (rows df)) →
  role_group m k (rows df) = [p1; p2] →
  rows df !! i = Some p1 →
  rows df !! j = Some p2 →
  ∃ players' σ' df',
    run t players σ = Some (players', σ') ∧
    σ' !! players' = Some df' ∧
    zero_sum (output_column t) df' i j ∧
    (int64_column (value_column t) (rows df) →
     Z.abs (value_column t p1.2 - value_column t p2.2) ≤ 2 ^ 53 →
     same_gap (output_column t) df' i j
       (value_column t p1.2) (value_column t p2.2)).
Proof.
  intros Hdf Hnd Hg Hi Hj.
  destruct (run_cells t σ players df Hdf)
    as (players' & σ' & df' & Hrun & Hdf' & Hcell).
  destruct (written_paired (value_column t) (rows df) m k p1 p2 Hnd Hg)
    as [H1 H2].
  destruct (pair_outputs (value_column t p1.2) (value_column t p2.2))
    as [Hsum Hhalf].
  exists players', σ', df'.
  split; [exact Hrun|]. split; [exact Hdf'|]. split.
  - eexists _, _.
    split; [by rewrite Hcell, Hi|]. split; [by rewrite Hcell, Hj|].
    by rewrite H1, H2, Hsum.
  - intros _ Hb. destruct (Hhalf Hb) as [Hr1 Hr2].
    eexists _, _.
    split; [by rewrite Hcell, Hi|]. split; [by rewrite Hcell, Hj|].
    rewrite H1, H2, Hr1, Hr2.
    unfold Qeq, Qabs, Qminus, Qplus, Qopp, inject_Z. cbn [Qnum Qden]. lia.
Qed.

(** The two junglers of the sample table, with 10000 and 12000 gold. *)
Lemma role_diff_zero_sum_witness :
  ∃ players' σ' df',
    role_gold_diff 1%positive Samples.store = Some (players', σ') ∧
    σ' !! players' = Some df' ∧
    zero_sum "roleGoldDiff" df' 0 1 ∧
    same_gap "roleGoldDiff" df' 0 1 10000 12000.
Proof.
  destruct (role_diff_zero_sum Gold Samples.store 1%positive Samples.table
              "NA1_1" "JUNGLE"
              (0, Samples.player "NA1_1" "JUNGLE" 10000)
              (1, Samples.player "NA1_1" "JUNGLE" 12000) 0 1 eq_refl)
    as (players' & σ' & df' & Hrun & Hdf' & Hsum & Hgap);
    [| reflexivity | reflexivity | reflexivity |].
  - refine (bool_decide_unpack _ _). vm_compute. exact I.
  - exists players', σ', df'.
    split; [exact Hrun|]. split; [exact Hdf'|]. split; [exact Hsum|].
    apply Hgap.
    + refine (bool_decide_unpack _ _). vm_compute. exact I.
    + vm_compute. discriminate.
Defined.

(** C3 (as stated, refuted). With 10000 and 12000 gold under the same
    index label, the first row is behind and yet gets +1000, like the
    second. With 2^62 and -2^62 - 1 gold under distinct labels, the first
    row leads by 2^63 + 1, which wraps around to a negative difference:
    the first row gets -2^62. *)
Lemma role_diff_sign_fails :
  (∃ players' σ' df',
     role_gold_diff 1%positive (DiffSamples.store_of DiffSamples.relabelled)
       = Some (players', σ') ∧
     σ' !! players' = Some df' ∧
     role_group "NA1_1" "JUNGLE" (rows DiffSamples.relabelled)
       = rows DiffSamples.relabelled ∧
     ¬ sign_rule "roleGoldDiff" df' 0 1 10000 12000) ∧
  (∃ players' σ' df',
     role_gold_diff 1%positive
       (DiffSamples.store_of DiffSamples.overflowing)
       = Some (players', σ') ∧
     σ' !! players' = Some df' ∧
     role_group "NA1_1" "JUNGLE" (rows DiffSamples.overflowing)
       = rows DiffSamples.overflowing ∧
     NoDup (map fst (rows DiffSamples.overflowing)) ∧
     int64_column Player.totalGold (rows DiffSamples.overflowing) ∧
     ¬ sign_rule "roleGoldDiff" df' 0 1
         4611686018427387904 (-4611686018427387905)).
Proof.
  split.
  - destruct (run_cells Gold (DiffSamples.store_of DiffSamples.relabelled)
                1%positive DiffSamples.relabelled eq_refl)
      as (players' & σ' & df' & Hrun & Hdf' & Hcell).
    exists players', σ', df'.
    split; [exact Hrun|]. split; [exact Hdf'|]. split; [reflexivity|].
    intros (_ & Hle & _). destruct Hle as [H1 _]; [lia|].
    rewrite (Hcell 0%nat : cell "roleGoldDiff" 0 df' = _) in H1.
    vm_compute in H1. discriminate H1.
  - destruct (run_cells Gold (DiffSamples.store_of DiffSamples.overflowing)
                1%positive DiffSamples.overflowing eq_refl)
      as (players' & σ' & df' & Hrun & Hdf' & Hcell).
    exists players', σ', df'.
    split; [exact Hrun|]. split; [exact Hdf'|]. split; [reflexivity|].
    split; [refine (bool_decide_unpack _ _); vm_compute; exact I|].
    split; [refine (bool_decide_unpack _ _); vm_compute; exact I|].
    intros (Hpos & _). destruct Hpos as [H1 _]; [lia|].
    rewrite (Hcell 0%nat : cell "roleGoldDiff" 0 df' = _) in H1.
    vm_compute in H1. discriminate H1.
Qed.

(** C3 (amended). On a table with distinct index labels whose source
    column is an [int64] column, take a valid role group, with [p1] its
    first row and [diff = p1.value - p2.value], and let [diff] fit in 64
    bits with its absolute value. With [half] the float [|diff| / 2]: if
    [diff > 0] then [p1] gets [+half] and [p2] gets [-half]; otherwise
    [p1] gets [-half] and [p2] gets [+half]. On a tie these are [-0.0] for
    [p1] and [0.0] for [p2], both equal to [0.0]. Up to 2^53 the float
    [half] is the number [|diff| / 2]. *)
Theorem role_diff_sign (t : Transform) (σ : gmap positive DataFrame)
    (players : positive) (df : DataFrame) (m k : string)
    (p1 p2 : Z * Player.t) (i j : nat) :
  σ !! players = Some df →
  NoDup (map fst (rows df)) →
  int64_column (value_column t) (rows df) →
  role_group m k (rows df) = [p1; p2] →
  rows df !! i = Some p1 →
  rows df !! j = Some p2 →
  let diff := value_column t p1.2 - value_column t p2.2 in
  - 2 ^ 63 < diff < 2 ^ 63 →
  ∃ players' σ' df',
    run t players σ = Some (players', σ') ∧
    σ' !! players' = Some df' ∧
    (i < j)%nat ∧
    sign_rule (output_column t) df' i j
      (value_column t p1.2) (value_column t p2.2) ∧
    (diff = 0 →
     cell (output_column t) i df' = Some (S754_zero true) ∧
     cell (output_column t) j df' = Some (S754_zero false)) ∧
    (Z.abs diff ≤ 2 ^ 53 →
     (real (true_divide (Z.abs diff) 2) == Z.abs diff # 2)%Q).
Proof.
  intros Hdf Hnd _ Hg Hi Hj diff Hrange.
  destruct (run_cells t σ players df Hdf)
    as (players' & σ' & df' & Hrun & Hdf' & Hcell).
  destruct (written_paired (value_column t) (rows df) m k p1 p2 Hnd Hg)
    as [H1 H2].
  destruct (int64_sub_exact _ _ Hrange) as [Hd Ha].
  rewrite Ha, Hd in H1, H2. fold diff in H1, H2.
  exists players', σ', df'.
  split; [exact Hrun|]. split; [exact Hdf'|].
  split; [|split; [|split]].
  - unfold role_group in Hg. rewrite list_filter_filter in Hg.
    eapply filter_order; [|exact Hg|exact Hi|exact Hj].
    by apply (NoDup_fmap_1 fst).
  - unfold sign_rule. fold diff. split; [|split].
    + intros Hpos. rewrite !Hcell, Hi, Hj.
      cbn [fmap option_fmap option_map].
      rewrite H1, H2. by rewrite (proj2 (Z.ltb_lt _ _) Hpos).
    + intros Hle. rewrite !Hcell, Hi, Hj.
      cbn [fmap option_fmap option_map].
      rewrite H1, H2. by rewrite (proj2 (Z.ltb_ge _ _) Hle).
    + intros H0. rewrite H0. split; reflexivity.
  - intros H0. rewrite !Hcell, Hi, Hj. cbn [fmap option_fmap option_map].
    rewrite H1, H2, H0. split; reflexivity.
  - intros Hb. apply true_divide_2_half. lia.
Qed.

(** The scenario of the claim: two junglers with 10000 and 12000 gold get
    -1000.0 and +1000.0. *)
Lemma role_diff_sign_witness :
  ∃ players' σ' df' out1 out2,
    role_gold_diff 1%positive Samples.store = Some (players', σ') ∧
    σ' !! players' = Some df' ∧
    cell "roleGoldDiff" 0 df' = Some out1 ∧
    cell "roleGoldDiff" 1 df' = Some out2 ∧
    out1 = S754_finite true 8796093022208000 (-43) ∧
    out2 = S754_finite false 8796093022208000 (-43) ∧
    (real out1 == -1000)%Q ∧ (real out2 == 1000)%Q.
Proof.
  destruct (role_diff_sign Gold Samples.store 1%positive Samples.table
              "NA1_1" "JUNGLE"
              (0, Samples.player "NA1_1" "JUNGLE" 10000)
              (1, Samples.player "NA1_1" "JUNGLE" 12000) 0 1 eq_refl)
    as (players' & σ' & df' & Hrun & Hdf' & _ & (_ & Hle & _) & _);
    [| | reflexivity | reflexivity | reflexivity | |].
  - refine (bool_decide_unpack _ _). vm_compute. exact I.
  - refine (bool_decide_unpack _ _). vm_compute. exact I.
  - vm_compute. split; reflexivity.
  - destruct Hle as [H1 H2]; [vm_compute; discriminate|].
    exists players', σ', df'. eexists _, _.
    split; [exact Hrun|]. split; [exact Hdf'|].
    split; [exact H1|]. split; [exact H2|].
    split; [reflexivity|]. split; [reflexivity|]. split; reflexivity.
Defined.

(** C4 (as stated, refuted). A top laner without a counterpart, whose
    role group has one row, shares its index label with a jungler of a
    valid pair: the write for the jungler goes to both rows, and the top
    laner ends with -1000.0. *)
Lemma unpaired_role_written :
  ∃ players' σ' df' p,
    role_gold_diff 1%positive
      (DiffSamples.store_of DiffSamples.shared_label)
      = Some (players', σ') ∧
    σ' !! players' = Some df' ∧
    rows DiffSamples.shared_label !! 2%nat = Some p ∧
    length (role_group (Player.match_id p.2) (Player.teamPosition p.2)
                       (rows DiffSamples.shared_label)) = 1%nat ∧
    ¬ zero_at "roleGoldDiff" df' 2.
Proof.
  destruct (run_cells Gold (DiffSamples.store_of DiffSamples.shared_label)
              1%positive DiffSamples.shared_label eq_refl)
    as (players' & σ' & df' & Hrun & Hdf' & Hcell).
  exists players', σ', df'. eexists.
  split; [exact Hrun|]. split; [exact Hdf'|]. split; [reflexivity|].
  split; [reflexivity|].
  intros (v & Hv & H0).
  rewrite (Hcell 2%nat : cell "roleGoldDiff" 2 df' = _) in Hv.
  vm_compute in Hv. injection Hv as <-. vm_compute in H0. discriminate H0.
Qed.

(** C4 (amended). On a table with distinct index labels, a row whose role
    group does not have exactly two rows has [0.0] in the output column of
    each of the six transforms; the column has a value in every row, the
    default [0.0] being written to all rows before the loops run. *)
Theorem unpaired_role_zero (t : Transform) (σ : gmap positive DataFrame)
    (players : positive) (df : DataFrame) (p : Z * Player.t) (i : nat) :
  σ !! players = Some df →
  NoDup (map fst (rows df)) →
  rows df !! i = Some p →
  length (role_group (Player.match_id p.2) (Player.teamPosition p.2)
                     (rows df)) ≠ 2%nat →
  ∃ players' σ' df',
    run t players σ = Some (players', σ') ∧
    σ' !! players' = Some df' ∧
    cell (output_column t) i df' = Some fzero ∧
    zero_at (output_column t) df' i ∧
    (∀ i', (i' < length (rows df))%nat →
           is_Some (cell (output_column t) i' df')).
Proof.
  intros Hdf Hnd Hi Hlen.
  destruct (run_cells t σ players df Hdf)
    as (players' & σ' & df' & Hrun & Hdf' & Hcell).
  assert (Hzero : cell (output_column t) i df' = Some fzero).
  { rewrite Hcell, Hi. cbn [fmap option_fmap option_map]. f_equal.
    apply written_unpaired; [done| |done].
    by apply list_elem_of_lookup_2 in Hi. }
  exists players', σ', df'.
  split; [exact Hrun|]. split; [exact Hdf'|]. split; [exact Hzero|]. split.
  - by exists fzero.
  - intros i' Hi'. rewrite Hcell.
    destruct (lookup_lt_is_Some_2 (rows df) i' Hi') as [q ->]. by eexists.
Qed.

Lemma unpaired_role_zero_witness :
  ∃ players' σ' df',
    role_gold_diff 1%positive Samples.store = Some (players', σ') ∧
    σ' !! players' = Some df' ∧
    cell "roleGoldDiff" 2 df' = Some fzero ∧
    zero_at "roleGoldDiff" df' 2 ∧
    (∀ i', (i' < 3)%nat → is_Some (cell "roleGoldDiff" i' df')).
Proof.
  apply (unpaired_role_zero Gold Samples.store 1%positive Samples.table
           (2, Samples.player "NA1_1" "TOP" 7000) 2).
  - reflexivity.
  - refine (bool_decide_unpack _ _). vm_compute. exact I.
  - reflexivity.
  - vm_compute. discriminate.
Defined.

(** C7. Each of the six transforms leaves the table it is given, and every
    other object, as it was, and returns a new table: the rows of the input
    with their labels, in the same order, every column of the input with
    its values, and the output column with one value per row. When the
    input does not have the output column, as for a table that comes from
    the extractor, the columns of the result are those of the input
    followed by this one new column. *)
Theorem role_diff_pure (t : Transform) (σ : gmap positive DataFrame)
    (players : positive) (df : DataFrame) :
  σ !! players = Some df →
  ∃ players' σ' df' col,
    run t players σ = Some (players', σ') ∧
    σ !! players' = None ∧
    σ' !! players = Some df ∧
    (∀ l, l ≠ players' → σ' !! l = σ !! l) ∧
    σ' !! players' = Some df' ∧
    rows df' = rows df ∧
    (∀ name, name ≠ output_column t →
             getitem name (columns df') = getitem name (columns df)) ∧
    getitem (output_column t) (columns df') = Some col ∧
    length col = length (rows df) ∧
    (getitem (output_column t) (columns df) = None →
     columns df' = columns df ++ [(output_column t, col)]).
Proof.
  intros Hdf. rewrite run_role_diff.
  assert (Hfresh : σ !! fresh (dom σ) = None).
  { apply not_elem_of_dom. apply is_fresh. }
  eexists _, _, _, _. split; [by apply role_diff_written|].
  split; [exact Hfresh|]. split; [|split; [|split]].
  - rewrite lookup_insert_ne; [done|]. intros E. congruence.
  - intros l Hl. by rewrite lookup_insert_ne.
  - apply lookup_insert_eq.
  - unfold written. cbn [rows columns].
    split; [done|]. split; [|split; [|split]].
    + intros name Hne. by apply getitem_setitem_ne.
    + apply getitem_setitem.
    + apply length_map.
    + intros Hnew. by apply setitem_absent.
Qed.

Lemma role_diff_pure_witness :
  ∃ players' σ' df' col,
    role_gold_diff 1%positive Samples.store = Some (players', σ') ∧
    Samples.store !! players' = None ∧
    σ' !! 1%positive = Some Samples.table ∧
    σ' !! players' = Some df' ∧
    rows df' = rows Samples.table ∧
    columns df' = [("roleGoldDiff", col)] ∧
    length col = 3%nat.
Proof.
  destruct (role_diff_pure Gold Samples.store 1%positive Samples.table
              eq_refl)
    as (players' & σ' & df' & col & Hrun & Hnew & Hold & _ & Hdf' & Hrows
        & _ & _ & Hlen & Hcols).
  exists players', σ', df', col.
  split; [exact Hrun|]. split; [exact Hnew|]. split; [exact Hold|].
  split; [exact Hdf'|]. split; [exact Hrows|].
  split; [exact (Hcols eq_refl)|exact Hlen].
Defined.

End transforms.

(** * The counters as counts of events: properties *)

Section counters.

Lemma on_champion_kill_counts e c :
  on_champion_kill e c =
  mkCounters (kills_14 (event_counts e c)) (deaths_14 (event_counts e c))
             (assists_14 (event_counts e c)) (plates_taken c)
             (towers_killed c) (dragons c) (horde_kills c) (wards_placed c).
Proof.
  destruct c. unfold on_champion_kill, event_counts, credit.
  cbn [kills_14 deaths_14 assists_14 plates_taken towers_killed dragons
       horde_kills wards_placed].
  destruct (decide (Event.type e = "CHAMPION_KILL")) as [E|E].
  - by rewrite bool_decide_eq_true_2.
  - by rewrite bool_decide_eq_false_2.
Qed.

Lemma on_plate_counts e c :
  on_plate e c =
  mkCounters (kills_14 c) (deaths_14 c) (assists_14 c)
             (plates_taken (event_counts e c))
             (towers_killed c) (dragons c) (horde_kills c) (wards_placed c).
Proof.
  destruct c. unfold on_plate, event_counts, credit.
  cbn [kills_14 deaths_14 assists_14 plates_taken towers_killed dragons
       horde_kills wards_placed].
  destruct (decide (Event.type e = "TURRET_PLATE_DESTROYED")) as [E|E].
  - rewrite bool_decide_eq_true_2 by done.
    by destruct (truthy (Event.killerId e)).
  - by rewrite bool_decide_eq_false_2.
Qed.

Lemma on_tower_counts e c :
  on_tower e c =
  mkCounters (kills_14 c) (deaths_14 c) (assists_14 c) (plates_taken c)
             (towers_killed (event_counts e c))
             (dragons c) (horde_kills c) (wards_placed c).
Proof.
  destruct c. unfold on_tower, event_counts, credit.
  cbn [kills_14 deaths_14 assists_14 plates_taken towers_killed dragons
       horde_kills wards_placed].
  destruct (_ && _); [|done].
  by destruct (truthy (Event.killerId e)).
Qed.

Lemma on_elite_monster_counts e c :
  on_elite_monster e c =
  mkCounters (kills_14 c) (deaths_14 c) (assists_14 c) (plates_taken c)
             (towers_killed c)
             (dragons (event_counts e c)) (horde_kills (event_counts e c))
             (wards_placed c).
Proof.
  destruct c. unfold on_elite_monster, event_counts.
  cbn [kills_14 deaths_14 assists_14 plates_taken towers_killed dragons
       horde_kills wards_placed].
  destruct (decide (Event.type e = "ELITE_MONSTER_KILL")) as [E|E].
  - rewrite bool_decide_eq_true_2 by done. cbn [andb].
    destruct (truthy (Event.killerTeamId e)); [|done].
    destruct (decide (Event.monsterType e = Some "DRAGON")) as [D|D].
    + rewrite (bool_decide_eq_true_2 _ D).
      rewrite bool_decide_eq_false_2; [done|]. rewrite D. discriminate.
    + rewrite (bool_decide_eq_false_2 _ D).
      destruct (decide (Event.monsterType e = Some "HORDE")) as [H|H].
      * by rewrite (bool_decide_eq_true_2 _ H).
      * by rewrite (bool_decide_eq_false_2 _ H).
  - rewrite bool_decide_eq_false_2 by done. cbn [andb].
    by destruct (truthy (Event.killerTeamId e)).
Qed.

Lemma on_ward_counts e c :
  on_ward e c =
  mkCounters (kills_14 c) (deaths_14 c) (assists_14 c) (plates_taken c)
             (towers_killed c) (dragons c) (horde_kills c)
             (wards_placed (event_counts e c)).
Proof.
  destruct c. unfold on_ward, event_counts.
  cbn [kills_14 deaths_14 assists_14 plates_taken towers_killed dragons
       horde_kills wards_placed].
  destruct (decide (Event.type e = "WARD_PLACED")) as [E|E].
  - rewrite (bool_decide_eq_true_2 _ E). cbn [andb].
    by destruct (bool_decide _).
  - by rewrite (bool_decide_eq_false_2 _ E).
Qed.

(** The five [if]s of the loop body act on disjoint counters. *)
Lemma dispatch_event_counts e c : dispatch e c = event_counts e c.
Proof.
  unfold dispatch.
  rewrite on_ward_counts, on_elite_monster_counts, on_tower_counts,
    on_plate_counts, on_champion_kill_counts.
  reflexivity.
Qed.

Lemma count_credit id d p :
  count (credit id d) p =
  count d p + (if decide (p ≠ 0 ∧ id = Some p) then 1 else 0).
Proof.
  unfold credit. destruct (truthy id) as [i|] eqn:Hid.
  - apply truthy_Some in Hid as [-> Hi]. rewrite count_incr.
    destruct (decide (p = i)) as [->|Hne].
    + by rewrite decide_True.
    + rewrite decide_False; [done|]. intros [_ [=]]. done.
  - rewrite decide_False; [lia|]. intros [Hp Hid'].
    apply truthy_None in Hid as [Hid|Hid]; congruence.
Qed.

Lemma count_foldl_incr_nat (l : list Z) p d :
  count (foldl (λ acc aid, incr aid acc) d l) p =
  count d p + Z.of_nat (length (filter (λ aid, aid = p) l)).
Proof. apply count_foldl_incr. Qed.

Lemma indicator_iff (P Q : Prop) `{Decision P, Decision Q} :
  (P ↔ Q) →
  (if decide P then 1 else 0) = (if decide Q then 1 else 0).
Proof. intros HPQ. destruct (decide P), (decide Q); tauto || done. Qed.

(** A counter whose every step adds a weight holds the sum of the weights
    of the window. *)
Lemma aggregate_sum `{Countable K} (get : Counters → gmap K Z) (key : K)
    (w : Event.t → Z) fs :
  (∀ e c, count (get (dispatch e c)) key = count (get c) key + w e) →
  get no_counts = ∅ →
  count (get (aggregate fs)) key = foldr Z.add 0 (map w (window fs)).
Proof.
  intros Hstep Hzero. rewrite aggregate_window.
  assert (Hgen : ∀ es c,
    count (get (foldl (λ c e, dispatch e c) c es)) key =
    count (get c) key + foldr Z.add 0 (map w es)).
  { induction es as [|e es IH]; intros c; cbn [foldl map foldr]; [lia|].
    rewrite IH, Hstep. lia. }
  rewrite Hgen, Hzero. unfold count. by rewrite lookup_empty.
Qed.

Lemma sum_indicator {A} (P : A → Prop) `{∀ x, Decision (P x)} (l : list A) :
  foldr Z.add 0 (map (λ x, if decide (P x) then 1 else 0) l) = tally P l.
Proof.
  unfold tally. induction l as [|x l IH]; [done|].
  cbn [map foldr]. rewrite filter_cons, IH.
  destruct (decide (P x)); cbn [length]; lia.
Qed.

Lemma aggregate_tally `{Countable K} (get : Counters → gmap K Z) (key : K)
    (P : Event.t → Prop) `{∀ e, Decision (P e)} fs :
  (∀ e c, count (get (dispatch e c)) key =
          count (get c) key + (if decide (P e) then 1 else 0)) →
  get no_counts = ∅ →
  count (get (aggregate fs)) key = tally P (window fs).
Proof.
  intros Hstep Hzero.
  rewrite (aggregate_sum get key (λ e, if decide (P e) then 1 else 0))
    by done.
  apply sum_indicator.
Qed.

Lemma tally_ext {A} (P Q : A → Prop) `{∀ x, Decision (P x)}
    `{∀ x, Decision (Q x)} (l : list A) :
  (∀ x, P x ↔ Q x) → tally P l = tally Q l.
Proof.
  intros HPQ. unfold tally. f_equal.
  induction l as [|x l IH]; [done|]. rewrite !filter_cons.
  destruct (decide (P x)) as [HP|HP], (decide (Q x)) as [HQ|HQ];
    cbn [length]; rewrite ?IH; try done.
  - destruct HQ. by apply HPQ.
  - destruct HP. by apply HPQ.
Qed.

Lemma sum_permutation {A} (w : A → Z) (l1 l2 : list A) :
  l1 ≡ₚ l2 → foldr Z.add 0 (map w l1) = foldr Z.add 0 (map w l2).
Proof.
  induction 1 as [|x l1 l2 _ IH|x y l|l1 l2 l3 _ IH1 _ IH2];
    cbn [map foldr]; [done|by rewrite IH|lia|by rewrite IH1].
Qed.

(** *** The eight counters, one step *)

Lemma kills_weight p e c :
  count (kills_14 (dispatch e c)) p =
  count (kills_14 c) p + (if decide (p ≠ 0 ∧ kills_by p e) then 1 else 0).
Proof.
  rewrite dispatch_event_counts. cbn [event_counts kills_14].
  unfold kills_by. case_bool_decide as Ht.
  - rewrite count_credit. f_equal. apply indicator_iff. tauto.
  - rewrite decide_False; [lia|tauto].
Qed.

Lemma deaths_weight p e c :
  count (deaths_14 (dispatch e c)) p =
  count (deaths_14 c) p + (if decide (p ≠ 0 ∧ deaths_of p e) then 1 else 0).
Proof.
  rewrite dispatch_event_counts. cbn [event_counts deaths_14].
  unfold deaths_of. case_bool_decide as Ht.
  - rewrite count_credit. f_equal. apply indicator_iff. tauto.
  - rewrite decide_False; [lia|tauto].
Qed.

Lemma assists_weight p e c :
  count (assists_14 (dispatch e c)) p =
  count (assists_14 c) p + Z.of_nat (assists_of p e).
Proof.
  rewrite dispatch_event_counts. cbn [event_counts assists_14].
  unfold assists_of. case_bool_decide as Ht.
  - rewrite decide_True by done. apply count_foldl_incr.
  - rewrite decide_False by done. simpl. lia.
Qed.

Lemma plates_weight p e c :
  count (plates_taken (dispatch e c)) p =
  count (plates_taken c) p +
  (if decide (p ≠ 0 ∧ plates_by p e) then 1 else 0).
Proof.
  rewrite dispatch_event_counts. cbn [event_counts plates_taken].
  unfold plates_by. case_bool_decide as Ht.
  - rewrite count_credit. f_equal. apply indicator_iff. tauto.
  - rewrite decide_False; [lia|tauto].
Qed.

Lemma towers_weight p e c :
  count (towers_killed (dispatch e c)) p =
  count (towers_killed c) p +
  (if decide (p ≠ 0 ∧ towers_by p e) then 1 else 0).
Proof.
  rewrite dispatch_event_counts. cbn [event_counts towers_killed].
  unfold towers_by.
  destruct (bool_decide_reflect (Event.type e = "BUILDING_KILL")) as [Ht|Ht];
    cbn [andb]; [|rewrite decide_False; [lia|tauto]].
  destruct (bool_decide_reflect
              (Event.buildingType e = Some "TOWER_BUILDING")) as [Hb|Hb];
    [|rewrite decide_False; [lia|tauto]].
  rewrite count_credit. f_equal. apply indicator_iff. tauto.
Qed.

Lemma team_weight (monster : string) (d : gmap Z Z) e team :
  count (match truthy (Event.killerTeamId e) with
         | Some team_id =>
             if bool_decide (Event.type e = "ELITE_MONSTER_KILL") &&
                bool_decide (Event.monsterType e = Some monster)
             then incr team_id d else d
         | None => d
         end) team =
  count d team +
  (if decide (team ≠ 0 ∧ Event.type e = "ELITE_MONSTER_KILL" ∧
              Event.killerTeamId e = Some team ∧
              Event.monsterType e = Some monster) then 1 else 0).
Proof.
  destruct (truthy (Event.killerTeamId e)) as [t|] eqn:Hid.
  - apply truthy_Some in Hid as [Hid Ht].
    destruct (bool_decide_reflect (Event.type e = "ELITE_MONSTER_KILL"))
      as [Hty|Hty]; cbn [andb]; [|rewrite decide_False; [lia|tauto]].
    destruct (bool_decide_reflect (Event.monsterType e = Some monster))
      as [Hm|Hm]; [|rewrite decide_False; [lia|tauto]].
    rewrite count_incr. f_equal.
    destruct (decide (team = t)) as [->|Hne].
    + by rewrite decide_True.
    + rewrite decide_False; [done|]. intros (_ & _ & Hid' & _). congruence.
  - rewrite decide_False; [lia|]. intros (H0 & _ & Hid' & _).
    apply truthy_None in Hid as [Hid|Hid]; congruence.
Qed.

Lemma dragons_weight team e c :
  count (dragons (dispatch e c)) team =
  count (dragons c) team +
  (if decide (team ≠ 0 ∧ dragons_by team e) then 1 else 0).
Proof.
  rewrite dispatch_event_counts. cbn [event_counts dragons].
  apply (team_weight "DRAGON").
Qed.

Lemma horde_weight team e c :
  count (horde_kills (dispatch e c)) team =
  count (horde_kills c) team +
  (if decide (team ≠ 0 ∧ horde_by team e) then 1 else 0).
Proof.
  rewrite dispatch_event_counts. cbn [event_counts horde_kills].
  apply (team_weight "HORDE").
Qed.

Lemma wards_weight pid e c :
  count (wards_placed (dispatch e c)) pid =
  count (wards_placed c) pid + (if decide (wards_by pid e) then 1 else 0).
Proof.
  rewrite dispatch_event_counts. cbn [event_counts wards_placed].
  unfold wards_by.
  destruct (bool_decide_reflect (Event.type e = "WARD_PLACED")) as [Ht|Ht];
    cbn [andb]; [|rewrite decide_False; [lia|tauto]].
  case_bool_decide as Hw; [|rewrite decide_False; [lia|tauto]].
  rewrite count_incr. f_equal. apply indicator_iff.
  split; [intros ->; done|intros (_ & _ & ->); done].
Qed.

(** *** The eight counters, over the window *)

Lemma kills_tally fs p :
  p ≠ 0 → count (kills_14 (aggregate fs)) p = tally (kills_by p) (window fs).
Proof.
  intros Hp.
  rewrite (aggregate_tally kills_14 p (λ e, p ≠ 0 ∧ kills_by p e));
    [|apply kills_weight|done].
  apply tally_ext. tauto.
Qed.

Lemma deaths_tally fs p :
  p ≠ 0 →
  count (deaths_14 (aggregate fs)) p = tally (deaths_of p) (window fs).
Proof.
  intros Hp.
  rewrite (aggregate_tally deaths_14 p (λ e, p ≠ 0 ∧ deaths_of p e));
    [|apply deaths_weight|done].
  apply tally_ext. tauto.
Qed.

Lemma assists_sum fs p :
  count (assists_14 (aggregate fs)) p =
  foldr Z.add 0 (map (λ e, Z.of_nat (assists_of p e)) (window fs)).
Proof. apply aggregate_sum; [apply assists_weight|done]. Qed.

Lemma plates_tally fs p :
  p ≠ 0 →
  count (plates_taken (aggregate fs)) p = tally (plates_by p) (window fs).
Proof.
  intros Hp.
  rewrite (aggregate_tally plates_taken p (λ e, p ≠ 0 ∧ plates_by p e));
    [|apply plates_weight|done].
  apply tally_ext. tauto.
Qed.

Lemma towers_tally fs p :
  p ≠ 0 →
  count (towers_killed (aggregate fs)) p = tally (towers_by p) (window fs).
Proof.
  intros Hp.
  rewrite (aggregate_tally towers_killed p (λ e, p ≠ 0 ∧ towers_by p e));
    [|apply towers_weight|done].
  apply tally_ext. tauto.
Qed.

Lemma dragons_tally fs team :
  team ≠ 0 →
  count (dragons (aggregate fs)) team = tally (dragons_by team) (window fs).
Proof.
  intros Hp.
  rewrite (aggregate_tally dragons team (λ e, team ≠ 0 ∧ dragons_by team e));
    [|apply dragons_weight|done].
  apply tally_ext. tauto.
Qed.

Lemma horde_tally fs team :
  team ≠ 0 →
  count (horde_kills (aggregate fs)) team = tally (horde_by team) (window fs).
Proof.
  intros Hp.
  rewrite (aggregate_tally horde_kills team
             (λ e, team ≠ 0 ∧ horde_by team e));
    [|apply horde_weight|done].
  apply tally_ext. tauto.
Qed.

Lemma wards_tally fs pid :
  count (wards_placed (aggregate fs)) pid = tally (wards_by pid) (window fs).
Proof. apply aggregate_tally; [apply wards_weight|done]. Qed.

(** *** The cutoff *)

Lemma sum_app {A} (w : A → Z) (l1 l2 : list A) :
  foldr Z.add 0 (map w (l1 ++ l2)) =
  foldr Z.add 0 (map w l1) + foldr Z.add 0 (map w l2).
Proof.
  induction l1 as [|x l1 IH]; cbn [app map foldr]; [done|]. rewrite IH. lia.
Qed.

(** A counter whose every step adds a weight: an event of the window adds
    its own weight to what the counter holds without it. *)
Lemma aggregate_insert `{Countable K} (get : Counters → gmap K Z) (key : K)
    (w : Event.t → Z) fs fs' pre post event :
  (∀ e c, count (get (dispatch e c)) key = count (get c) key + w e) →
  get no_counts = ∅ →
  window fs = pre ++ event :: post →
  window fs' = pre ++ post →
  count (get (aggregate fs)) key = count (get (aggregate fs')) key + w event.
Proof.
  intros Hstep Hzero Hfs Hfs'.
  rewrite !(aggregate_sum get key w) by done.
  rewrite Hfs, Hfs', !sum_app. cbn [map foldr]. lia.
Qed.

(** C5. Frames 0 to 14 are scanned, and of their events those with a
    timestamp of at most 840000 ms are counted. An event later than
    840000 ms changes no counter in whatever frame it stands (frame 14
    included), nor does any event of a frame after frame 14: the counters
    are those of the timeline without the event. An event in one of the
    frames 0 to 14 with a timestamp up to and including 840000 ms is
    counted: each of the eight counters holds what it holds for the
    timeline without the event, plus what the event is credited for (a
    kill, a death, its assists, a plate, a tower, a dragon, a void grub,
    a ward). *)
Theorem timestamp_cutoff (before after : list Frame)
    (pf : option (list (Z * PFrame.t))) (es1 es2 : list Event.t)
    (event : Event.t) :
  let fs := before ++ mkFrame pf (Some (es1 ++ event :: es2)) :: after in
  let fs' := before ++ mkFrame pf (Some (es1 ++ es2)) :: after in
  (840000 < default 0 (Event.timestamp event) →
   aggregate fs = aggregate fs') ∧
  ((15 ≤ length before)%nat → aggregate fs = aggregate fs') ∧
  (default 0 (Event.timestamp event) ≤ 840000 →
   (length before ≤ 14)%nat →
   ∀ (p team : Z) (pid : option Z),
     count (kills_14 (aggregate fs)) p =
       count (kills_14 (aggregate fs')) p +
       (if decide (p ≠ 0 ∧ kills_by p event) then 1 else 0) ∧
     count (deaths_14 (aggregate fs)) p =
       count (deaths_14 (aggregate fs')) p +
       (if decide (p ≠ 0 ∧ deaths_of p event) then 1 else 0) ∧
     count (assists_14 (aggregate fs)) p =
       count (assists_14 (aggregate fs')) p + Z.of_nat (assists_of p event) ∧
     count (plates_taken (aggregate fs)) p =
       count (plates_taken (aggregate fs')) p +
       (if decide (p ≠ 0 ∧ plates_by p event) then 1 else 0) ∧
     count (towers_killed (aggregate fs)) p =
       count (towers_killed (aggregate fs')) p +
       (if decide (p ≠ 0 ∧ towers_by p event) then 1 else 0) ∧
     count (dragons (aggregate fs)) team =
       count (dragons (aggregate fs')) team +
       (if decide (team ≠ 0 ∧ dragons_by team event) then 1 else 0) ∧
     count (horde_kills (aggregate fs)) team =
       count (horde_kills (aggregate fs')) team +
       (if decide (team ≠ 0 ∧ horde_by team event) then 1 else 0) ∧
     count (wards_placed (aggregate fs)) pid =
       count (wards_placed (aggregate fs')) pid +
       (if decide (wards_by pid event) then 1 else 0)).
Proof.
  intros fs fs'. split; [|split].
  - intros Hlate. apply aggregate_without. by left.
  - intros Hlen. apply aggregate_without. by right.
  - intros Hin Hlen p team pid.
    destruct (window_split before after pf es1 es2 event Hin Hlen)
      as (pre & post & Hfs & Hfs').
    split.
    { apply (aggregate_insert kills_14 p
               (λ e, if decide (p ≠ 0 ∧ kills_by p e) then 1 else 0)
               fs fs' pre post event (kills_weight p) eq_refl Hfs Hfs'). }
    split.
    { apply (aggregate_insert deaths_14 p
               (λ e, if decide (p ≠ 0 ∧ deaths_of p e) then 1 else 0)
               fs fs' pre post event (deaths_weight p) eq_refl Hfs Hfs'). }
    split.
    { apply (aggregate_insert assists_14 p
               (λ e, Z.of_nat (assists_of p e))
               fs fs' pre post event (assists_weight p) eq_refl Hfs Hfs'). }
    split.
    { apply (aggregate_insert plates_taken p
               (λ e, if decide (p ≠ 0 ∧ plates_by p e) then 1 else 0)
               fs fs' pre post event (plates_weight p) eq_refl Hfs Hfs'). }
    split.
    { apply (aggregate_insert towers_killed p
               (λ e, if decide (p ≠ 0 ∧ towers_by p e) then 1 else 0)
               fs fs' pre post event (towers_weight p) eq_refl Hfs Hfs'). }
    split.
    { apply (aggregate_insert dragons team
               (λ e, if decide (team ≠ 0 ∧ dragons_by team e) then 1 else 0)
               fs fs' pre post event (dragons_weight team) eq_refl
               Hfs Hfs'). }
    split.
    { apply (aggregate_insert horde_kills team
               (λ e, if decide (team ≠ 0 ∧ horde_by team e) then 1 else 0)
               fs fs' pre post event (horde_weight team) eq_refl
               Hfs Hfs'). }
    apply (aggregate_insert wards_placed pid
             (λ e, if decide (wards_by pid e) then 1 else 0)
             fs fs' pre post event (wards_weight pid) eq_refl Hfs Hfs').
Qed.

(** Frame 14 holds a kill by participant 3 at 840000 ms and one at
    840001 ms: the second changes nothing, the first adds one kill. A
    control ward placed at 840000 ms in frame 14 adds one ward, and a
    dragon taken then adds one dragon to its team. *)
Lemma timestamp_cutoff_witness :
  aggregate (Samples.minutes (mkFrame (Some Samples.frame14_full)
     (Some [Samples.kill 840000 (Some 3); Samples.kill 840001 (Some 3)]))) =
  aggregate (Samples.minutes (mkFrame (Some Samples.frame14_full)
     (Some [Samples.kill 840000 (Some 3)]))) ∧
  count (kills_14 (aggregate (Samples.minutes
     (mkFrame (Some Samples.frame14_full)
        (Some [Samples.kill 840000 (Some 3)]))))) 3 =
  count (kills_14 (aggregate (Samples.minutes
     (mkFrame (Some Samples.frame14_full) (Some []))))) 3 + 1 ∧
  count (wards_placed (aggregate (Samples.minutes
     (mkFrame (Some Samples.frame14_full)
        (Some [MoreSamples.ward 840000 "CONTROL_WARD" (Some 3)])))))
    (Some 3) =
  count (wards_placed (aggregate (Samples.minutes
     (mkFrame (Some Samples.frame14_full) (Some []))))) (Some 3) + 1 ∧
  count (dragons (aggregate (Samples.minutes
     (mkFrame (Some Samples.frame14_full)
        (Some [MoreSamples.monster 840000 100 "DRAGON"]))))) 100 =
  count (dragons (aggregate (Samples.minutes
     (mkFrame (Some Samples.frame14_full) (Some []))))) 100 + 1.
Proof.
  pose proof (timestamp_cutoff (replicate 14 Samples.quiet) []
                (Some Samples.frame14_full)
                [Samples.kill 840000 (Some 3)] []
                (Samples.kill 840001 (Some 3))) as (Hlate & _ & _).
  pose proof (timestamp_cutoff (replicate 14 Samples.quiet) []
                (Some Samples.frame14_full) [] []
                (Samples.kill 840000 (Some 3))) as (_ & _ & Hkill).
  pose proof (timestamp_cutoff (replicate 14 Samples.quiet) []
                (Some Samples.frame14_full) [] []
                (MoreSamples.ward 840000 "CONTROL_WARD" (Some 3)))
    as (_ & _ & Hward).
  pose proof (timestamp_cutoff (replicate 14 Samples.quiet) []
                (Some Samples.frame14_full) [] []
                (MoreSamples.monster 840000 100 "DRAGON"))
    as (_ & _ & Hdragon).
  split; [apply Hlate; simpl; lia|].
  split; [apply (Hkill ltac:(simpl; lia) ltac:(simpl; lia) 3 100 (Some 3))|].
  split; [apply (Hward ltac:(simpl; lia) ltac:(simpl; lia) 3 100 (Some 3))|].
  apply (Hdragon ltac:(simpl; lia) ltac:(simpl; lia) 3 100 (Some 3)).
Defined.

End counters.

(** * The returned rows: properties *)

Section returned_rows.

(** A table that is returned is empty, or the snapshots of the joined
    rows of an eligible match. *)
Lemma stats_Ok_inv match_id match_data timeline_data players :
  get_14_min_stats match_id match_data timeline_data = Ok players →
  players = [] ∨
  ∃ fs frame14_data,
    frames timeline_data = Some fs ∧
    eligible match_data fs frame14_data ∧
    participants match_data ≠ [] ∧
    frame14_data ≠ [] ∧
    players = map (snapshot match_data (aggregate fs))
                  (merge (participants match_data) frame14_data).
Proof.
  unfold get_14_min_stats.
  destruct (String.prefix _ _) eqn:Hpatch; [intros [= <-]; by left|].
  case_bool_decide as Hqueue; cbn [negb]; [|intros [= <-]; by left].
  destruct (frames timeline_data) as [fs|] eqn:Hfs; [|done].
  destruct (participants match_data) as [|s ps] eqn:Hps; [done|].
  destruct (fs !! 14%nat) as [frame14|] eqn:H14; [|intros [= <-]; by left].
  destruct (participantFrames frame14) as [[|e l]|] eqn:Hpf;
    [done| |intros [= <-]; by left].
  intros [= <-]. right. exists fs, (e :: l).
  split; [done|]. split; [|done].
  split; [done|]. split; [done|]. by exists frame14.
Qed.

Lemma stats_rows_snapshot match_id match_data fs players r :
  get_14_min_stats match_id match_data (mkTimeline (Some fs)) = Ok players →
  r ∈ players →
  ∃ joined, r = snapshot match_data (aggregate fs) joined.
Proof.
  intros Hres Hr.
  apply stats_Ok_inv in Hres as [->|(fs' & pfs & Hfs & _ & _ & _ & ->)].
  - by apply elem_of_nil in Hr.
  - cbn [frames] in Hfs. injection Hfs as <-.
    apply list_elem_of_fmap in Hr as (joined & -> & _). by exists joined.
Qed.

(** X1. In every returned row of a participant with a nonzero id, kills_14
    is the number of champion kills of the window whose killerId is that
    participant, deaths_14 the number of those whose victimId is that
    participant, and assists_14 the number of times the participant is
    listed in their assistingParticipantIds. *)
Theorem returned_kills_deaths_assists (match_id : string)
    (match_data : MatchData) (fs : list Frame) (players : list Player.t)
    (r : Player.t) :
  get_14_min_stats match_id match_data (mkTimeline (Some fs)) = Ok players →
  r ∈ players →
  Player.participantId r ≠ 0 →
  Player.kills_14 r = tally (kills_by (Player.participantId r)) (window fs) ∧
  Player.deaths_14 r =
    tally (deaths_of (Player.participantId r)) (window fs) ∧
  Player.assists_14 r =
    foldr Z.add 0
      (map (λ e, Z.of_nat (assists_of (Player.participantId r) e))
           (window fs)).
Proof.
  intros Hres Hr Hp.
  destruct (stats_rows_snapshot _ _ _ _ _ Hres Hr) as [joined ->].
  cbn in Hp |- *.
  by rewrite kills_tally, deaths_tally, assists_sum.
Qed.

Lemma returned_kills_deaths_assists_witness :
  ∃ r, MoreSamples.busy_rows !! 2%nat = Some r ∧
       Player.participantId r = 3 ∧
       Player.kills_14 r = 2 ∧ Player.deaths_14 r = 0 ∧
       Player.assists_14 r = 0.
Proof.
  eexists. split; [reflexivity|]. split; [reflexivity|].
  match goal with
  | |- Player.kills_14 ?r = _ ∧ _ =>
      destruct (returned_kills_deaths_assists "NA1_1" Samples.ranked
                  MoreSamples.busy MoreSamples.busy_rows r eq_refl)
        as (-> & -> & ->)
  end.
  - apply list_elem_of_lookup. by exists 2%nat.
  - discriminate.
  - split; [|split]; reflexivity.
Defined.

(** X2. In every returned row of a participant with a nonzero id,
    platesTaken_14 counts the TURRET_PLATE_DESTROYED events of the window
    with that killerId, and towersKilled_14 the BUILDING_KILL events with
    buildingType TOWER_BUILDING and that killerId; other buildings are not
    counted. *)
Theorem returned_plates_towers (match_id : string)
    (match_data : MatchData) (fs : list Frame) (players : list Player.t)
    (r : Player.t) :
  get_14_min_stats match_id match_data (mkTimeline (Some fs)) = Ok players →
  r ∈ players →
  Player.participantId r ≠ 0 →
  Player.platesTaken_14 r =
    tally (plates_by (Player.participantId r)) (window fs) ∧
  Player.towersKilled_14 r =
    tally (towers_by (Player.participantId r)) (window fs).
Proof.
  intros Hres Hr Hp.
  destruct (stats_rows_snapshot _ _ _ _ _ Hres Hr) as [joined ->].
  cbn in Hp |- *.
  by rewrite plates_tally, towers_tally.
Qed.

Lemma returned_plates_towers_witness :
  ∃ r, MoreSamples.busy_rows !! 0%nat = Some r ∧
       Player.participantId r = 1 ∧
       Player.platesTaken_14 r = 1 ∧ Player.towersKilled_14 r = 1.
Proof.
  eexists. split; [reflexivity|]. split; [reflexivity|].
  match goal with
  | |- Player.platesTaken_14 ?r = _ ∧ _ =>
      destruct (returned_plates_towers "NA1_1" Samples.ranked
                  MoreSamples.busy MoreSamples.busy_rows r eq_refl)
        as (-> & ->)
  end.
  - apply list_elem_of_lookup. by exists 0%nat.
  - discriminate.
  - split; reflexivity.
Defined.

(** X3. teamDragonKills_14 and teamHordeKills_14 of a returned row count
    the ELITE_MONSTER_KILL events of the window with the row's teamId as
    killerTeamId and monsterType DRAGON, respectively HORDE; other monster
    types are not counted, and two rows of the same team carry the same two
    values. *)
Theorem returned_team_objectives (match_id : string)
    (match_data : MatchData) (fs : list Frame) (players : list Player.t)
    (r : Player.t) :
  get_14_min_stats match_id match_data (mkTimeline (Some fs)) = Ok players →
  r ∈ players →
  (Player.teamId r ≠ 0 →
   Player.teamDragonKills_14 r =
     tally (dragons_by (Player.teamId r)) (window fs) ∧
   Player.teamHordeKills_14 r =
     tally (horde_by (Player.teamId r)) (window fs)) ∧
  (∀ r', r' ∈ players → Player.teamId r' = Player.teamId r →
     Player.teamDragonKills_14 r' = Player.teamDragonKills_14 r ∧
     Player.teamHordeKills_14 r' = Player.teamHordeKills_14 r).
Proof.
  intros Hres Hr.
  destruct (stats_rows_snapshot _ _ _ _ _ Hres Hr) as [joined ->].
  split.
  - intros Ht. cbn in Ht |- *. by rewrite dragons_tally, horde_tally.
  - intros r' Hr' Hteam.
    destruct (stats_rows_snapshot _ _ _ _ _ Hres Hr') as [joined' ->].
    cbn in Hteam |- *. by rewrite Hteam.
Qed.

Lemma returned_team_objectives_witness :
  ∃ r, MoreSamples.busy_rows !! 7%nat = Some r ∧
       Player.teamId r = 200 ∧
       Player.teamDragonKills_14 r = 0 ∧ Player.teamHordeKills_14 r = 1.
Proof.
  eexists. split; [reflexivity|]. split; [reflexivity|].
  match goal with
  | |- Player.teamDragonKills_14 ?r = _ ∧ _ =>
      destruct (returned_team_objectives "NA1_1" Samples.ranked
                  MoreSamples.busy MoreSamples.busy_rows r eq_refl)
        as [Hcount _]
  end.
  - apply list_elem_of_lookup. by exists 7%nat.
  - destruct Hcount as (-> & ->); [discriminate|]. split; reflexivity.
Defined.

(** X4. wards_placed of a returned row counts the WARD_PLACED events of the
    window whose creatorId is the row's participant and whose wardType is
    YELLOW_TRINKET, BLUE_TRINKET or CONTROL_WARD; a ward of another type,
    or without a wardType, is not counted. *)
Theorem returned_wards (match_id : string)
    (match_data : MatchData) (fs : list Frame) (players : list Player.t)
    (r : Player.t) :
  get_14_min_stats match_id match_data (mkTimeline (Some fs)) = Ok players →
  r ∈ players →
  Player.wards_placed r =
    tally (wards_by (Some (Player.participantId r))) (window fs).
Proof.
  intros Hres Hr.
  destruct (stats_rows_snapshot _ _ _ _ _ Hres Hr) as [joined ->].
  cbn. by rewrite wards_tally.
Qed.

Lemma returned_wards_witness :
  ∃ r, MoreSamples.busy_rows !! 4%nat = Some r ∧
       Player.participantId r = 5 ∧ Player.wards_placed r = 1.
Proof.
  eexists. split; [reflexivity|]. split; [reflexivity|].
  match goal with
  | |- Player.wards_placed ?r = _ =>
      rewrite (returned_wards "NA1_1" Samples.ranked
                 MoreSamples.busy MoreSamples.busy_rows r eq_refl)
  end.
  - reflexivity.
  - apply list_elem_of_lookup. by exists 4%nat.
Defined.

End returned_rows.

(** * Events that count for nothing, and the order of events *)

Section event_order.

Lemma andb_bool_decide_false (P Q : Prop) `{Decision P, Decision Q} :
  ¬ (P ∧ Q) → bool_decide P && bool_decide Q = false.
Proof.
  intros Hn. destruct (bool_decide_reflect P); [|done].
  destruct (bool_decide_reflect Q); [|done]. tauto.
Qed.

Lemma event_counts_idle e c :
  Event.type e ≠ "CHAMPION_KILL" →
  Event.type e ≠ "TURRET_PLATE_DESTROYED" →
  ¬ (Event.type e = "BUILDING_KILL" ∧
     Event.buildingType e = Some "TOWER_BUILDING") →
  ¬ (Event.type e = "ELITE_MONSTER_KILL" ∧
     Event.monsterType e = Some "DRAGON") →
  ¬ (Event.type e = "ELITE_MONSTER_KILL" ∧
     Event.monsterType e = Some "HORDE") →
  ¬ (Event.type e = "WARD_PLACED" ∧
     Event.wardType e ∈ [Some "YELLOW_TRINKET"; Some "BLUE_TRINKET";
                          Some "CONTROL_WARD"]) →
  event_counts e c = c.
Proof.
  intros Hck Hpl Htw Hdr Hho Hwd. destruct c. unfold event_counts.
  cbn [kills_14 deaths_14 assists_14 plates_taken towers_killed dragons
       horde_kills wards_placed].
  rewrite (bool_decide_eq_false_2 _ Hck), (bool_decide_eq_false_2 _ Hpl).
  rewrite (andb_bool_decide_false _ _ Htw), (andb_bool_decide_false _ _ Hdr),
    (andb_bool_decide_false _ _ Hho), (andb_bool_decide_false _ _ Hwd).
  by destruct (truthy (Event.killerTeamId e)).
Qed.

(** X5. An event changes no counter when its type is none of the five the
    loop looks at, when it is a WARD_PLACED whose wardType is not one of
    YELLOW_TRINKET, BLUE_TRINKET and CONTROL_WARD (a SIGHT_WARD, or no
    wardType), when it is a BUILDING_KILL of something other than a
    TOWER_BUILDING, or when it is an ELITE_MONSTER_KILL of a monster other
    than DRAGON and HORDE. *)
Theorem ignored_events (c : Counters) (event : Event.t) :
  Event.type event ∉ handled_types ∨
  (Event.type event = "WARD_PLACED" ∧
   Event.wardType event ∉ [Some "YELLOW_TRINKET"; Some "BLUE_TRINKET";
                            Some "CONTROL_WARD"]) ∨
  (Event.type event = "BUILDING_KILL" ∧
   Event.buildingType event ≠ Some "TOWER_BUILDING") ∨
  (Event.type event = "ELITE_MONSTER_KILL" ∧
   Event.monsterType event ∉ [Some "DRAGON"; Some "HORDE"]) →
  count_event c event = c.
Proof.
  intros Hcase. unfold count_event.
  destruct (840000 <? _); [done|]. rewrite dispatch_event_counts.
  destruct Hcase as [Hty|[[Hty Hw]|[[Hty Hb]|[Hty Hm]]]].
  - unfold handled_types in Hty.
    rewrite !not_elem_of_cons in Hty.
    destruct Hty as (? & ? & ? & ? & ? & _).
    apply event_counts_idle; tauto.
  - apply event_counts_idle; rewrite ?Hty;
      try done; try (by intros [? ?]); tauto.
  - apply event_counts_idle; rewrite ?Hty;
      try done; try (by intros [? ?]); tauto.
  - rewrite !not_elem_of_cons in Hm. destruct Hm as (? & ? & _).
    apply event_counts_idle; rewrite ?Hty;
      try done; try (by intros [? ?]); tauto.
Qed.

Lemma ignored_events_witness :
  count_event no_counts (MoreSamples.ward 302000 "SIGHT_WARD" (Some 5)) =
    no_counts ∧
  count_event no_counts (MoreSamples.purchase 303000) = no_counts.
Proof.
  split.
  - apply ignored_events. right. left. split; [reflexivity|].
    rewrite !not_elem_of_cons. repeat split; try discriminate.
    apply not_elem_of_nil.
  - apply ignored_events. left. unfold handled_types.
    rewrite !not_elem_of_cons. repeat split; try discriminate.
    apply not_elem_of_nil.
Defined.

Lemma order_free_field `{Countable K} (get : Counters → gmap K Z) (key : K)
    (w : Event.t → Z) fs1 fs2 :
  (∀ e c, count (get (dispatch e c)) key = count (get c) key + w e) →
  get no_counts = ∅ →
  window fs1 ≡ₚ window fs2 →
  count (get (aggregate fs1)) key = count (get (aggregate fs2)) key.
Proof.
  intros Hstep Hzero Hperm.
  rewrite !(aggregate_sum get key w) by done. by apply sum_permutation.
Qed.

Lemma snapshot_order_free match_data fs1 fs2 joined :
  window fs1 ≡ₚ window fs2 →
  snapshot match_data (aggregate fs1) joined =
  snapshot match_data (aggregate fs2) joined.
Proof.
  intros Hperm. unfold snapshot.
  rewrite (order_free_field wards_placed _ _ fs1 fs2
             (wards_weight _) eq_refl Hperm).
  rewrite (order_free_field kills_14 _ _ fs1 fs2
             (kills_weight _) eq_refl Hperm).
  rewrite (order_free_field deaths_14 _ _ fs1 fs2
             (deaths_weight _) eq_refl Hperm).
  rewrite (order_free_field assists_14 _ _ fs1 fs2
             (assists_weight _) eq_refl Hperm).
  rewrite (order_free_field plates_taken _ _ fs1 fs2
             (plates_weight _) eq_refl Hperm).
  rewrite (order_free_field towers_killed _ _ fs1 fs2
             (towers_weight _) eq_refl Hperm).
  rewrite (order_free_field dragons _ _ fs1 fs2
             (dragons_weight _) eq_refl Hperm).
  rewrite (order_free_field horde_kills _ _ fs1 fs2
             (horde_weight _) eq_refl Hperm).
  reflexivity.
Qed.

(** X6. The result depends on the timeline only through the
    participantFrames of frame 14 and the events of the window taken as a
    collection: two timelines that agree on these, whatever the order of
    the events and the frames (0 to 14) they stand in, give the same
    result. *)
Theorem event_order_is_irrelevant (match_id : string)
    (match_data : MatchData) (fs1 fs2 : list Frame) :
  participantFrames <$> fs1 !! 14%nat = participantFrames <$> fs2 !! 14%nat →
  window fs1 ≡ₚ window fs2 →
  get_14_min_stats match_id match_data (mkTimeline (Some fs1)) =
  get_14_min_stats match_id match_data (mkTimeline (Some fs2)).
Proof.
  intros H14 Hperm. unfold get_14_min_stats. cbn [frames].
  destruct (String.prefix _ _); [done|].
  destruct (negb _); [done|].
  destruct (participants match_data) as [|s ps]; [done|].
  destruct (fs1 !! 14%nat) as [f1|], (fs2 !! 14%nat) as [f2|];
    cbn in H14; try done.
  injection H14 as ->.
  destruct (participantFrames f2) as [[|e l]|]; try done.
  f_equal. apply map_ext. intros joined. by apply snapshot_order_free.
Qed.

Lemma event_order_is_irrelevant_witness :
  get_14_min_stats "NA1_1" Samples.ranked
    (mkTimeline (Some MoreSamples.busy)) =
  get_14_min_stats "NA1_1" Samples.ranked
    (mkTimeline (Some MoreSamples.shuffled)).
Proof.
  apply event_order_is_irrelevant; [reflexivity|].
  change (window MoreSamples.shuffled)
    with (reverse (window MoreSamples.busy)).
  symmetry. apply reverse_Permutation.
Defined.

End event_order.

(** * The join and the outcome of [get_14_min_stats]: properties *)

Section join.

Lemma elem_of_merge ps (l : list (Z * PFrame.t)) s f :
  (s, f) ∈ merge ps l ↔ s ∈ ps ∧ (Summary.participantId s, f) ∈ l.
Proof.
  unfold merge. rewrite elem_of_flat_map. split.
  - intros (s' & Hs' & Hin). apply elem_of_map in Hin as (e & [= -> ->] & He).
    apply list_elem_of_filter in He as [Hid He].
    split; [done|]. rewrite <- Hid. by destruct e.
  - intros [Hs Hf]. exists s. split; [done|].
    apply elem_of_map. exists (Summary.participantId s, f).
    split; [done|]. by apply list_elem_of_filter.
Qed.

(** With distinct keys in frame 14, the join keeps the participants that
    have an entry, once each, in their order. *)
Lemma merge_filter (ps : list Summary.t) (l : list (Z * PFrame.t)) :
  NoDup (map fst l) →
  map fst (merge ps l) =
  filter (λ s, Summary.participantId s ∈ map fst l) ps.
Proof.
  intros Hnd. induction ps as [|s ps IH]; [done|].
  unfold merge. cbn [flat_map]. rewrite map_app, filter_cons.
  fold (merge ps l). rewrite IH.
  destruct (decide (Summary.participantId s ∈ map fst l)) as [Hin|Hout].
  - destruct (filter_key_unique l _ Hnd Hin) as [e ->]. done.
  - by rewrite filter_key_absent.
Qed.

(** X7. For a match the filters accept, with a nonempty summary and a
    nonempty frame 14 whose keys are pairwise distinct, the returned rows
    are those of the participants that have an entry in frame 14, one row
    each, in the order of the summary: never more rows than participants,
    and a participant without an entry is dropped without a message. *)
Theorem rows_are_the_framed_participants (match_id : string)
    (match_data : MatchData) (fs : list Frame)
    (frame14_data : list (Z * PFrame.t)) :
  eligible match_data fs frame14_data →
  participants match_data ≠ [] →
  frame14_data ≠ [] →
  NoDup (map fst frame14_data) →
  ∃ players,
    get_14_min_stats match_id match_data (mkTimeline (Some fs)) = Ok players ∧
    map Player.participantId players =
      filter (λ pid, pid ∈ map fst frame14_data)
             (map Summary.participantId (participants match_data)) ∧
    (length players ≤ length (participants match_data))%nat.
Proof.
  intros (Hpatch & Hqueue & frame14 & H14 & Hpf) Hps Hl Hnd.
  unfold get_14_min_stats. rewrite Hpatch, Hqueue.
  rewrite bool_decide_eq_true_2 by done. cbn [negb frames].
  destruct (participants match_data) as [|s ps] eqn:Eps; [done|].
  rewrite H14, Hpf. destruct frame14_data as [|e l] eqn:El; [done|].
  rewrite <- El in *. clear El Hl.
  eexists. split; [reflexivity|].
  assert (Hids : map Player.participantId
            (map (snapshot match_data (aggregate fs))
                 (merge (s :: ps) frame14_data)) =
          filter (λ pid, pid ∈ map fst frame14_data)
                 (map Summary.participantId (s :: ps))).
  { rewrite snapshot_participantId, merge_filter by done.
    generalize (s :: ps). intros qs.
    induction qs as [|q qs IH]; [done|].
    cbn [map]. rewrite !filter_cons.
    destruct (decide (_ ∈ _)); cbn [map]; by rewrite IH. }
  split; [exact Hids|].
  apply (f_equal length) in Hids. rewrite length_map in Hids.
  rewrite Hids. etrans; [apply length_filter|]. by rewrite length_map.
Qed.

Lemma rows_are_the_framed_participants_witness :
  ∃ players,
    get_14_min_stats "NA1_1" Samples.ranked Samples.timeline_nine =
      Ok players ∧
    map Player.participantId players = [1; 2; 3; 4; 5; 6; 7; 8; 9] ∧
    (length players ≤ 10)%nat.
Proof.
  apply (rows_are_the_framed_participants "NA1_1" Samples.ranked
           (Samples.minutes (mkFrame (Some Samples.frame14_nine) (Some [])))
           Samples.frame14_nine).
  - split; [reflexivity|]. split; [reflexivity|].
    eexists. split; reflexivity.
  - discriminate.
  - discriminate.
  - refine (bool_decide_unpack _ _). vm_compute. exact I.
Defined.

(** X8. Every returned row is built from a participant of the summary and
    an entry of frame 14 with that participant's id, in a match that
    passed the three filters: the six summary columns come from the one,
    the five snapshot columns from the other. *)
Theorem returned_rows_are_joined (match_id : string)
    (match_data : MatchData) (timeline_data : Timeline)
    (players : list Player.t) (r : Player.t) :
  get_14_min_stats match_id match_data timeline_data = Ok players →
  r ∈ players →
  ∃ fs frame14_data s f,
    frames timeline_data = Some fs ∧
    eligible match_data fs frame14_data ∧
    s ∈ participants match_data ∧
    (Summary.participantId s, f) ∈ frame14_data ∧
    Player.participantId r = Summary.participantId s ∧
    Player.championName r = Summary.championName s ∧
    Player.teamId r = Summary.teamId s ∧
    Player.totalGold r = PFrame.totalGold f ∧
    Player.xp r = PFrame.xp f ∧
    Player.level r = PFrame.level f ∧
    Player.minionsKilled r = PFrame.minionsKilled f ∧
    Player.jungleMinionsKilled r = PFrame.jungleMinionsKilled f.
Proof.
  intros Hres Hr.
  apply stats_Ok_inv in Hres as [->|(fs & pfs & Hfs & Hel & _ & _ & ->)].
  { by apply elem_of_nil in Hr. }
  apply elem_of_map in Hr as ([s f] & -> & Hin).
  apply elem_of_merge in Hin as [Hs Hf].
  exists fs, pfs, s, f. do 4 (split; [done|]). by repeat split.
Qed.

Lemma returned_rows_are_joined_witness :
  ∃ r fs frame14_data s f,
    MoreSamples.busy_rows !! 2%nat = Some r ∧
    frames (mkTimeline (Some MoreSamples.busy)) = Some fs ∧
    eligible Samples.ranked fs frame14_data ∧
    s ∈ participants Samples.ranked ∧
    (Summary.participantId s, f) ∈ frame14_data ∧
    Player.participantId r = Summary.participantId s ∧
    Player.totalGold r = PFrame.totalGold f.
Proof.
  eexists.
  match goal with
  | |- ∃ fs pfs s f, ?l !! 2%nat = Some ?r ∧ _ =>
      assert (Hr : l !! 2%nat = Some r) by reflexivity
  end.
  destruct (returned_rows_are_joined "NA1_1" Samples.ranked
              (mkTimeline (Some MoreSamples.busy)) MoreSamples.busy_rows _
              eq_refl (list_elem_of_lookup_2 _ _ _ Hr))
    as (fs & pfs & s & f & Hfs & Hel & Hs & Hf & Hid & _ & _ & Hgold & _).
  exists fs, pfs, s, f. do 5 (split; [done|]). by split.
Defined.

(** X9. On a match that passes the patch and queue filters,
    [get_14_min_stats] raises KeyError when the timeline has no frames to
    read, when the summary has no participants (whatever the length of the
    timeline: the columns are selected before the length is checked), and
    when frame 14 carries an empty participantFrames. *)
Theorem raises_key_error (match_id : string) (match_data : MatchData)
    (timeline_data : Timeline) :
  String.prefix "15.9" (default "" (gameVersion match_data)) = false →
  queueId match_data = Some 420 →
  (frames timeline_data = None ∨
   participants match_data = [] ∨
   ∃ fs frame14, frames timeline_data = Some fs ∧
                 fs !! 14%nat = Some frame14 ∧
                 participantFrames frame14 = Some []) →
  get_14_min_stats match_id match_data timeline_data = Raise KeyError.
Proof.
  intros Hpatch Hqueue Hcase. unfold get_14_min_stats.
  rewrite Hpatch, bool_decide_eq_true_2 by done. cbn [negb].
  destruct Hcase as [->|[Hps|(fs & frame14 & -> & H14 & Hpf)]]; [done|..].
  - rewrite Hps. by destruct (frames timeline_data).
  - rewrite H14, Hpf. by destruct (participants match_data).
Qed.

Lemma raises_key_error_witness :
  get_14_min_stats "NA1_1" Samples.ranked Samples.timeline_unreadable =
    Raise KeyError ∧
  get_14_min_stats "NA1_1"
    (mkMatchData "NA1_1" (Some 420) (Some "15.8.676.5337") [])
    Samples.timeline_full = Raise KeyError.
Proof.
  split.
  - apply raises_key_error; [reflexivity|reflexivity|by left].
  - apply raises_key_error; [reflexivity|reflexivity|right; by left].
Defined.

End join.

(** * The columns of a returned row: invariants *)

Section row_invariants.

Lemma sum_nonneg {A} (w : A → Z) (l : list A) :
  (∀ x, 0 ≤ w x) → 0 ≤ foldr Z.add 0 (map w l).
Proof.
  intros Hw. induction l as [|x l IH]; cbn [map foldr]; [lia|].
  specialize (Hw x). lia.
Qed.

Lemma count_nonneg `{Countable K} (get : Counters → gmap K Z) (key : K)
    (w : Event.t → Z) fs :
  (∀ e c, count (get (dispatch e c)) key = count (get c) key + w e) →
  get no_counts = ∅ →
  (∀ e, 0 ≤ w e) →
  0 ≤ count (get (aggregate fs)) key.
Proof.
  intros Hstep Hzero Hw. rewrite (aggregate_sum get key w) by done.
  by apply sum_nonneg.
Qed.

Lemma indicator_nonneg (P : Prop) `{Decision P} :
  0 ≤ (if decide P then 1 else 0).
Proof. destruct (decide P); lia. Qed.

Lemma snapshot_counts_nonneg match_data fs joined :
  let r := snapshot match_data (aggregate fs) joined in
  0 ≤ Player.kills_14 r ∧ 0 ≤ Player.deaths_14 r ∧
  0 ≤ Player.assists_14 r ∧ 0 ≤ Player.platesTaken_14 r ∧
  0 ≤ Player.towersKilled_14 r ∧ 0 ≤ Player.teamDragonKills_14 r ∧
  0 ≤ Player.teamHordeKills_14 r ∧ 0 ≤ Player.wards_placed r.
Proof.
  cbn.
  split; [apply (count_nonneg kills_14 _ _ fs (kills_weight _) eq_refl);
          intros; apply indicator_nonneg|].
  split; [apply (count_nonneg deaths_14 _ _ fs (deaths_weight _) eq_refl);
          intros; apply indicator_nonneg|].
  split; [apply (count_nonneg assists_14 _ _ fs (assists_weight _) eq_refl);
          intros; lia|].
  split; [apply (count_nonneg plates_taken _ _ fs (plates_weight _) eq_refl);
          intros; apply indicator_nonneg|].
  split; [apply (count_nonneg towers_killed _ _ fs (towers_weight _) eq_refl);
          intros; apply indicator_nonneg|].
  split; [apply (count_nonneg dragons _ _ fs (dragons_weight _) eq_refl);
          intros; apply indicator_nonneg|].
  split; [apply (count_nonneg horde_kills _ _ fs (horde_weight _) eq_refl);
          intros; apply indicator_nonneg|].
  apply (count_nonneg wards_placed _ _ fs (wards_weight _) eq_refl).
  intros; apply indicator_nonneg.
Qed.

(** The rates are rounded quotients: for 29 gold, 14 times the rate is not
    29. *)
Lemma gold_per_minute_rounds :
  ¬ (real (true_divide 29 14) * 14 == 29)%Q.
Proof. intros H. vm_compute in H. discriminate H. Qed.

(** X10. In every returned row: match_id is the matchId of the payload
    (the match_id argument is not used for it), teamPosition is never
    UTILITY, win and firstBloodKill are 0 or 1, totalMinionsKilled is the
    64-bit sum of minionsKilled and jungleMinionsKilled, which is their sum
    when that fits in 64 bits, goldPerMinute and csPerMinute are the
    binary64 quotients of totalGold and of totalMinionsKilled by 14, and
    the eight event counts are not negative. *)
Theorem returned_row_invariants (match_id : string) (match_data : MatchData)
    (timeline_data : Timeline) (players : list Player.t) (r : Player.t) :
  get_14_min_stats match_id match_data timeline_data = Ok players →
  r ∈ players →
  Player.match_id r = matchId match_data ∧
  Player.teamPosition r ≠ "UTILITY" ∧
  (Player.win r = 0 ∨ Player.win r = 1) ∧
  (Player.firstBloodKill r = 0 ∨ Player.firstBloodKill r = 1) ∧
  Player.totalMinionsKilled r =
    int64_add (Player.minionsKilled r) (Player.jungleMinionsKilled r) ∧
  (int64 (Player.minionsKilled r + Player.jungleMinionsKilled r) →
   Player.totalMinionsKilled r =
     Player.minionsKilled r + Player.jungleMinionsKilled r) ∧
  Player.goldPerMinute r = true_divide (Player.totalGold r) 14 ∧
  Player.csPerMinute r = true_divide (Player.totalMinionsKilled r) 14 ∧
  0 ≤ Player.kills_14 r ∧ 0 ≤ Player.deaths_14 r ∧
  0 ≤ Player.assists_14 r ∧ 0 ≤ Player.platesTaken_14 r ∧
  0 ≤ Player.towersKilled_14 r ∧ 0 ≤ Player.teamDragonKills_14 r ∧
  0 ≤ Player.teamHordeKills_14 r ∧ 0 ≤ Player.wards_placed r.
Proof.
  intros Hres Hr.
  apply stats_Ok_inv in Hres as [->|(fs & pfs & _ & _ & _ & _ & ->)].
  { by apply elem_of_nil in Hr. }
  apply elem_of_map in Hr as (joined & -> & _).
  split; [done|]. split.
  { cbn. destruct (decide (Summary.teamPosition joined.1 = "UTILITY"));
      [discriminate|done]. }
  split; [cbn; destruct (Summary.win joined.1); auto|].
  split; [cbn; destruct (Summary.firstBloodKill joined.1); auto|].
  split; [done|].
  split; [intros Hfit; by apply wrap64_int64|].
  split; [done|]. split; [done|].
  apply snapshot_counts_nonneg.
Qed.

Lemma returned_row_invariants_witness :
  ∃ r, MoreSamples.busy_rows !! 4%nat = Some r ∧
       Player.match_id r = "NA1_1" ∧
       Player.teamPosition r = "SUPPORT" ∧
       Player.totalMinionsKilled r = 84 ∧
       Player.goldPerMinute r = true_divide (Player.totalGold r) 14.
Proof.
  eexists.
  match goal with
  | |- ?l !! 4%nat = Some ?r ∧ _ =>
      assert (Hr : l !! 4%nat = Some r) by reflexivity
  end.
  destruct (returned_row_invariants "other id" Samples.ranked
              (mkTimeline (Some MoreSamples.busy)) _ _
              eq_refl (list_elem_of_lookup_2 _ _ _ Hr))
    as (Hid & _ & _ & _ & _ & Hcs & Hgpm & _).
  split; [exact Hr|]. split; [exact Hid|]. split; [reflexivity|].
  split; [|exact Hgpm].
  apply Hcs. refine (bool_decide_unpack _ _). vm_compute. exact I.
Defined.

End row_invariants.

(** * The fetch helpers: further properties *)

Section fetch_more.
Import Http.

(** X11. A 200 response whose JSON body is not an object (a list, a
    string, a number, null) makes [fetch_with_retry] raise AttributeError:
    the body is printed with [data.keys()] before it is returned. This
    holds after any number of retried 429 responses. *)
Theorem fetch_with_retry_not_an_object (url : string) (w : World)
    (k fuel : nat) (data : JSON) :
  (∀ i, (i < k)%nat → throttled (reply w url i)) →
  status_code (reply w url k) = 200 →
  json (reply w url k) = Some data →
  ¬ is_object data →
  fetch_with_retry (S k + fuel) url w =
  (Some (Raise AttributeError), later w url (S k) (10 * Z.of_nat k)).
Proof.
  intros Hk H200 Hjson Hobj.
  replace (S k + fuel)%nat with (k + S fuel)%nat by lia.
  rewrite fetch_retries by done. cbn [fetch_with_retry].
  rewrite requests_get_later, reply_later, Nat.add_0_r, Hjson, H200.
  cbn. rewrite later_later.
  replace (k + 1)%nat with (S k) by lia.
  replace (10 * Z.of_nat k + 0) with (10 * Z.of_nat k) by lia.
  by destruct data.
Qed.

Lemma fetch_with_retry_not_an_object_witness :
  fetch_with_retry 1 "u"
    (Samples.start (λ _ _, mkResponse 200 (Some (JArr [JStr "NA1_1"])))) =
  (Some (Raise AttributeError),
   mkWorld (λ _ _, mkResponse 200 (Some (JArr [JStr "NA1_1"]))) ["u"] 0).
Proof.
  assert (Hnone : ∀ i, (i < 0)%nat →
            throttled (reply (Samples.start (λ _ _,
              mkResponse 200 (Some (JArr [JStr "NA1_1"])))) "u" i))
    by (intros i Hi; lia).
  exact (fetch_with_retry_not_an_object "u" _ 0 0 (JArr [JStr "NA1_1"])
           Hnone eq_refl eq_refl (λ H, H)).
Defined.

(** X12. Every response whose status is neither 200 nor 429 ends
    [fetch_with_retry] with [None] after that one request, whether its
    body parses or not; [_safe_get] gives up like this only on 401, 403
    and 404. On another status, a 500 say, followed by a 200, [_safe_get]
    with at least two attempts returns the body of the 200, where
    [fetch_with_retry] has returned [None]. *)
Theorem fetchers_differ_on_errors (url : string) (w : World)
    (fuel n : nat) (data : JSON) :
  status_code (reply w url 0) ≠ 200 →
  status_code (reply w url 0) ≠ 429 →
  fetch_with_retry (S fuel) url w = (Some (Ok None), later w url 1 0) ∧
  (gives_up (reply w url 0) →
   _safe_get url (S n) w = (Ok None, later w url 1 0)) ∧
  (¬ gives_up (reply w url 0) →
   status_code (reply w url 1) = 200 →
   json (reply w url 1) = Some data →
   _safe_get url (S (S n)) w = (Ok (Some data), later w url 2 0)).
Proof.
  intros H200 H429. split; [|split].
  - cbn [fetch_with_retry]. rewrite requests_get_later.
    destruct (json (reply w url 0)); [|done].
    destruct (Z.eqb_spec (status_code (reply w url 0)) 200); [done|].
    destruct (Z.eqb_spec (status_code (reply w url 0)) 429); [done|].
    by destruct (_ =? 403).
  - apply safe_get_gives_up.
  - intros Hgive H200' Hjson.
    rewrite safe_get_step by done. cbn [throttles].
    destruct (Z.eqb_spec (status_code (reply w url 0)) 429); [done|].
    erewrite safe_get_200.
    + by rewrite later_later.
    + by rewrite reply_later.
    + by rewrite reply_later.
Qed.

Lemma fetchers_differ_on_errors_witness :
  fetch_with_retry 3 "u"
    (mkWorld Samples.net_mixed ["u"] 10) =
    (Some (Ok None), mkWorld Samples.net_mixed ["u"; "u"] 10) ∧
  _safe_get "u" 2 (mkWorld Samples.net_mixed ["u"] 10) =
    (Ok (Some Samples.match_body),
     mkWorld Samples.net_mixed ["u"; "u"; "u"] 10).
Proof.
  destruct (fetchers_differ_on_errors "u"
              (mkWorld Samples.net_mixed ["u"] 10) 2 0 Samples.match_body)
    as (Hfetch & _ & Hsafe); [discriminate|discriminate|].
  split; [exact Hfetch|].
  apply Hsafe; [|reflexivity|reflexivity].
  rewrite gives_up_status. vm_compute. lia.
Defined.

(** The requests and the sleep of [_safe_get], for any number of
    attempts. *)
Lemma safe_get_effects url n : ∀ w,
  ∃ k naps,
    (k ≤ n)%nat ∧ 0 ≤ naps ≤ 10 * Z.of_nat k ∧
    (_safe_get url n w).2 = later w url k naps ∧
    (∀ e, (_safe_get url n w).1 = Raise e →
          e = JSONDecodeError ∧
          ∃ j, (j < n)%nat ∧ status_code (reply w url j) = 200 ∧
               json (reply w url j) = None).
Proof.
  induction n as [|n IH]; intros w.
  - exists 0%nat, 0. split; [lia|]. split; [lia|].
    split; [simpl; by rewrite later_0|]. intros e. simpl. discriminate.
  - cbn [_safe_get]. rewrite requests_get_later.
    destruct (Z.eqb_spec (status_code (reply w url 0)) 200) as [H200|H200].
    { exists 1%nat, 0. split; [lia|]. split; [lia|].
      destruct (json (reply w url 0)) eqn:Hjson; cbn.
      - split; [done|]. discriminate.
      - split; [done|]. intros e [= <-]. split; [done|].
        exists 0%nat. split; [lia|]. done. }
    destruct (status_code (reply w url 0) =? 429).
    { destruct (IH (time_sleep 10 (later w url 1 0)))
        as (k & naps & Hk & Hnaps & Hw & Hraise).
      exists (1 + k)%nat, (10 + naps). split; [lia|]. split; [lia|].
      rewrite time_sleep_later in Hw, Hraise. rewrite later_later in Hw.
      split; [rewrite time_sleep_later, Hw; f_equal; lia|].
      intros e He. rewrite time_sleep_later in He.
      destruct (Hraise e He) as (-> & j & Hj & H1 & H2).
      split; [done|]. exists (S j). split; [lia|].
      rewrite reply_later in H1, H2. done. }
    destruct (bool_decide _).
    { exists 1%nat, 0. split; [lia|]. split; [lia|]. cbn.
      split; [done|]. discriminate. }
    destruct (IH (later w url 1 0)) as (k & naps & Hk & Hnaps & Hw & Hraise).
    exists (1 + k)%nat, (0 + naps). split; [lia|]. split; [lia|].
    rewrite later_later in Hw. split; [done|].
    intros e He. destruct (Hraise e He) as (-> & j & Hj & H1 & H2).
    split; [done|]. exists (S j). split; [lia|].
    rewrite reply_later in H1, H2. done.
Qed.

(** X13. For every number of attempts and every reply sequence,
    [_safe_get] makes at most [max_retries] requests, all for the given
    URL, and sleeps at most 10 seconds per request made; with 0 attempts
    it makes none. It raises only when a 200 response has a body that
    does not parse, and then JSONDecodeError: [resp.json()] is not
    guarded. *)
Theorem safe_get_requests_and_sleep (url : string) (max_retries : nat)
    (w : World) :
  ∃ k naps,
    (k ≤ max_retries)%nat ∧ 0 ≤ naps ≤ 10 * Z.of_nat k ∧
    (_safe_get url max_retries w).2 = later w url k naps ∧
    (∀ e, (_safe_get url max_retries w).1 = Raise e →
          e = JSONDecodeError ∧
          ∃ j, (j < max_retries)%nat ∧
               status_code (reply w url j) = 200 ∧
               json (reply w url j) = None) ∧
    (∀ j, (j < max_retries)%nat →
          (∀ i, (i < j)%nat → retried (reply w url i)) →
          status_code (reply w url j) = 200 →
          json (reply w url j) = None →
          (_safe_get url max_retries w).1 = Raise JSONDecodeError).
Proof.
  destruct (safe_get_effects url max_retries w)
    as (k & naps & Hk & Hnaps & Hw & Hraise).
  exists k, naps. do 4 (split; [done|]).
  intros j Hj Hret H200 Hjson.
  replace max_retries with (j + S (max_retries - S j))%nat by lia.
  rewrite safe_get_retries by done. cbn [_safe_get].
  rewrite requests_get_later, reply_later, Nat.add_0_r, H200, Hjson. done.
Qed.

Lemma safe_get_requests_and_sleep_witness :
  _safe_get "u" 3
    (Samples.start (λ n _, match n with
                           | O => Samples.rate_limited
                           | _ => mkResponse 200 None
                           end)) =
  (Raise JSONDecodeError,
   mkWorld (λ n _, match n with
                   | O => Samples.rate_limited
                   | _ => mkResponse 200 None
                   end) ["u"; "u"] 10).
Proof.
  set (w := Samples.start _).
  destruct (safe_get_requests_and_sleep "u" 3 w)
    as (k & naps & _ & _ & _ & _ & Hraise).
  assert (H1 : (_safe_get "u" 3 w).1 = Raise JSONDecodeError).
  { apply (Hraise 1%nat); [lia| |reflexivity|reflexivity].
    intros [|i] Hi; [|lia].
    split; [discriminate|]. rewrite gives_up_status. vm_compute. lia. }
  reflexivity.
Defined.

End fetch_more.

(** * The role-differential transforms: further properties *)

Section transforms_more.

(** X14. On a table with distinct index labels whose source column is an
    [int64] column, when the two values of a valid pair differ by at most
    2^53, each row of the pair gets half of its own lead over the other
    row: the number [(value p - value opponent) / 2], negative when it is
    behind. As numbers the outputs do not depend on which of the two rows
    comes first; as floats they do on a tie, where the first row gets
    [-0.0] and the second [0.0]. *)
Theorem role_diff_half_lead (t : Transform) (σ : gmap positive DataFrame)
    (players : positive) (df : DataFrame) (m k : string)
    (p1 p2 : Z * Player.t) (i j : nat) :
  σ !! players = Some df →
  NoDup (map fst (rows df)) →
  int64_column (value_column t) (rows df) →
  role_group m k (rows df) = [p1; p2] →
  rows df !! i = Some p1 →
  rows df !! j = Some p2 →
  Z.abs (value_column t p1.2 - value_column t p2.2) ≤ 2 ^ 53 →
  ∃ players' σ' df' out1 out2,
    run t players σ = Some (players', σ') ∧
    σ' !! players' = Some df' ∧
    cell (output_column t) i df' = Some out1 ∧
    cell (output_column t) j df' = Some out2 ∧
    (real out1 == (value_column t p1.2 - value_column t p2.2) # 2)%Q ∧
    (real out2 == (value_column t p2.2 - value_column t p1.2) # 2)%Q ∧
    (value_column t p1.2 = value_column t p2.2 →
     out1 = S754_zero true ∧ out2 = S754_zero false).
Proof.
  intros Hdf Hnd _ Hg Hi Hj Hb.
  destruct (run_cells t σ players df Hdf)
    as (players' & σ' & df' & Hrun & Hdf' & Hcell).
  destruct (written_paired (value_column t) (rows df) m k p1 p2 Hnd Hg)
    as [H1 H2].
  destruct (pair_outputs (value_column t p1.2) (value_column t p2.2))
    as [_ Hhalf].
  destruct (Hhalf Hb) as [Hr1 Hr2].
  eexists players', σ', df', _, _.
  split; [exact Hrun|]. split; [exact Hdf'|].
  split; [by rewrite Hcell, Hi|]. split; [by rewrite Hcell, Hj|].
  rewrite H1, H2. split; [exact Hr1|]. split; [exact Hr2|].
  intros ->. unfold int64_sub. rewrite Z.sub_diag. split; reflexivity.
Qed.

Lemma role_diff_half_lead_witness :
  ∃ players' σ' df' out1 out2,
    role_gold_diff 1%positive Samples.store = Some (players', σ') ∧
    σ' !! players' = Some df' ∧
    cell "roleGoldDiff" 0 df' = Some out1 ∧
    cell "roleGoldDiff" 1 df' = Some out2 ∧
    (real out1 == (10000 - 12000) # 2)%Q ∧
    (real out2 == (12000 - 10000) # 2)%Q.
Proof.
  destruct (role_diff_half_lead Gold Samples.store 1%positive Samples.table
              "NA1_1" "JUNGLE"
              (0, Samples.player "NA1_1" "JUNGLE" 10000)
              (1, Samples.player "NA1_1" "JUNGLE" 12000) 0 1 eq_refl)
    as (players' & σ' & df' & out1 & out2 & Hrun & Hdf' & H1 & H2 & Hr1
        & Hr2 & _);
    [| | reflexivity | reflexivity | reflexivity | |].
  - refine (bool_decide_unpack _ _). vm_compute. exact I.
  - refine (bool_decide_unpack _ _). vm_compute. exact I.
  - vm_compute. discriminate.
  - exists players', σ', df', out1, out2. done.
Defined.

Lemma cell_written_ne f out df name i :
  name ≠ out → cell name i (written f out df) = cell name i df.
Proof.
  intros Hne. unfold cell, written. cbn [columns].
  by rewrite getitem_setitem_ne.
Qed.

Lemma cell_written_twice f g out out' df name i :
  cell name i (written g out' (written f out df)) =
  if decide (name = out') then g <$> rows df !! i
  else if decide (name = out) then f <$> rows df !! i
  else cell name i df.
Proof.
  destruct (decide (name = out')) as [->|Hne'].
  { by rewrite cell_written. }
  rewrite cell_written_ne by done.
  destruct (decide (name = out)) as [->|Hne].
  - by rewrite cell_written.
  - by rewrite cell_written_ne.
Qed.

Lemma output_column_inj t t' : output_column t = output_column t' → t = t'.
Proof. by destruct t, t'. Qed.

(** X15. Two transforms applied one after the other give, in either order,
    tables with the rows of the input and the same value in every cell of
    every column; each leaves the other's column as it found it. None of
    the three tables involved in a run is modified by it. *)
Theorem transforms_commute (t t' : Transform) (σ : gmap positive DataFrame)
    (players : positive) (df : DataFrame) :
  σ !! players = Some df →
  ∃ p1 σ1 p2 σ2 df2 q1 τ1 q2 τ2 df2',
    run t players σ = Some (p1, σ1) ∧
    run t' p1 σ1 = Some (p2, σ2) ∧
    σ2 !! p2 = Some df2 ∧
    run t' players σ = Some (q1, τ1) ∧
    run t q1 τ1 = Some (q2, τ2) ∧
    τ2 !! q2 = Some df2' ∧
    rows df2 = rows df ∧ rows df2' = rows df ∧
    (∀ name i, cell name i df2 = cell name i df2') ∧
    σ2 !! players = Some df ∧ σ2 !! p1 = σ1 !! p1.
Proof.
  intros Hdf. rewrite !run_role_diff.
  set (F := foldl (pair_write (value_column t)) (λ _, fzero)
                  (role_groups (rows df))).
  set (F' := foldl (pair_write (value_column t')) (λ _, fzero)
                   (role_groups (rows df))).
  pose proof (role_diff_written (value_column t) (output_column t)
                players σ df Hdf) as H1. fold F in H1.
  pose proof (role_diff_written (value_column t') (output_column t')
                players σ df Hdf) as H1'. fold F' in H1'.
  set (p1 := fresh (dom σ)) in *.
  set (σ1 := <[p1 := written F (output_column t) df]> σ) in *.
  set (τ1 := <[p1 := written F' (output_column t') df]> σ) in *.
  assert (Hp1 : σ1 !! p1 = Some (written F (output_column t) df))
    by apply lookup_insert_eq.
  assert (Hq1 : τ1 !! p1 = Some (written F' (output_column t') df))
    by apply lookup_insert_eq.
  pose proof (role_diff_written (value_column t') (output_column t')
                p1 σ1 _ Hp1) as H2.
  pose proof (role_diff_written (value_column t) (output_column t)
                p1 τ1 _ Hq1) as H2'.
  cbn [rows written] in H2, H2'. fold F' in H2. fold F in H2'.
  assert (Hfresh : σ !! p1 = None).
  { apply not_elem_of_dom. apply is_fresh. }
  assert (Hfresh1 : σ1 !! fresh (dom σ1) = None).
  { apply not_elem_of_dom. apply is_fresh. }
  eexists p1, σ1, _, _, _, p1, τ1, _, _, _.
  split; [exact H1|]. split; [exact H2|].
  split; [apply lookup_insert_eq|].
  split; [exact H1'|]. split; [exact H2'|].
  split; [apply lookup_insert_eq|].
  split; [done|]. split; [done|]. split; [|split].
  - intros name i. rewrite !cell_written_twice.
    destruct (decide (name = output_column t')) as [->|Hne'];
      destruct (decide (_ = output_column t)) as [E|E]; try done.
    apply output_column_inj in E. unfold F, F'. by rewrite E.
  - assert (fresh (dom σ1) ≠ players).
    { intros E. rewrite E in Hfresh1. unfold σ1 in Hfresh1.
      rewrite lookup_insert_ne in Hfresh1 by congruence. congruence. }
    rewrite lookup_insert_ne by done. unfold σ1.
    rewrite lookup_insert_ne by congruence. done.
  - rewrite lookup_insert_ne; [done|]. intros E. congruence.
Qed.

Lemma transforms_commute_witness :
  ∃ p1 σ1 p2 σ2 df2 q1 τ1 q2 τ2 df2',
    role_gold_diff 1%positive Samples.store = Some (p1, σ1) ∧
    role_xp_diff p1 σ1 = Some (p2, σ2) ∧
    σ2 !! p2 = Some df2 ∧
    role_xp_diff 1%positive Samples.store = Some (q1, τ1) ∧
    role_gold_diff q1 τ1 = Some (q2, τ2) ∧
    τ2 !! q2 = Some df2' ∧
    rows df2 = rows Samples.table ∧ rows df2' = rows Samples.table ∧
    (∀ name i, cell name i df2 = cell name i df2') ∧
    σ2 !! 1%positive = Some Samples.table ∧ σ2 !! p1 = σ1 !! p1.
Proof.
  exact (transforms_commute Gold Xp Samples.store 1%positive Samples.table
           eq_refl).
Defined.

(** X16. Running a transform on its own result gives a new table with the
    same contents: the output column is overwritten with the same values,
    not added a second time. *)
Theorem rerun_gives_the_same_table (t : Transform)
    (σ : gmap positive DataFrame) (players : positive) (df : DataFrame) :
  σ !! players = Some df →
  ∃ p1 σ1 df1 p2 σ2,
    run t players σ = Some (p1, σ1) ∧
    σ1 !! p1 = Some df1 ∧
    run t p1 σ1 = Some (p2, σ2) ∧
    p2 ≠ p1 ∧
    σ2 !! p2 = Some df1 ∧
    σ2 !! p1 = Some df1.
Proof.
  intros Hdf. rewrite !run_role_diff.
  pose proof (role_diff_written (value_column t) (output_column t)
                players σ df Hdf) as H1.
  set (F := foldl _ _ _) in H1.
  set (p1 := fresh (dom σ)) in *.
  set (σ1 := <[p1 := written F (output_column t) df]> σ) in *.
  assert (Hp1 : σ1 !! p1 = Some (written F (output_column t) df))
    by apply lookup_insert_eq.
  pose proof (role_diff_written (value_column t) (output_column t)
                p1 σ1 _ Hp1) as H2.
  change (rows (written F (output_column t) df)) with (rows df) in H2.
  fold F in H2.
  assert (Hfresh1 : σ1 !! fresh (dom σ1) = None).
  { apply not_elem_of_dom. apply is_fresh. }
  assert (Hne : fresh (dom σ1) ≠ p1) by (intros E; congruence).
  assert (Hsame : written F (output_column t)
                    (written F (output_column t) df) =
                  written F (output_column t) df).
  { unfold written. cbn [rows columns]. by rewrite setitem_setitem. }
  rewrite Hsame in H2.
  eexists p1, σ1, _, _, _.
  split; [exact H1|]. split; [exact Hp1|]. split; [exact H2|].
  split; [exact Hne|]. split; [apply lookup_insert_eq|].
  by rewrite lookup_insert_ne.
Qed.

Lemma rerun_gives_the_same_table_witness :
  ∃ p1 σ1 df1 p2 σ2,
    role_gold_diff 1%positive Samples.store = Some (p1, σ1) ∧
    σ1 !! p1 = Some df1 ∧
    role_gold_diff p1 σ1 = Some (p2, σ2) ∧
    p2 ≠ p1 ∧
    σ2 !! p2 = Some df1 ∧
    σ2 !! p1 = Some df1.
Proof.
  exact (rerun_gives_the_same_table Gold Samples.store 1%positive
           Samples.table eq_refl).
Defined.

End transforms_more.

(** * The transforms work match by match *)

Section locality.

Lemma filter_none {A} (P : A → Prop) `{∀ x, Decision (P x)} (l : list A) :
  (∀ x, x ∈ l → ¬ P x) → filter P l = [].
Proof.
  induction l as [|x l IH]; intros Hl; [done|].
  rewrite filter_cons_False by (apply Hl; by left).
  apply IH. intros y Hy. apply Hl. by right.
Qed.

Lemma role_group_app m k (l1 l2 : list (Z * Player.t)) :
  role_group m k (l1 ++ l2) = role_group m k l1 ++ role_group m k l2.
Proof. unfold role_group. by rewrite !filter_app. Qed.

Lemma role_group_other_match m k (l : list (Z * Player.t)) :
  (∀ r, r ∈ l → Player.match_id r.2 ≠ m) → role_group m k l = [].
Proof.
  intros Hl. unfold role_group.
  rewrite (filter_none (λ row, Player.match_id row.2 = m)); [done|].
  exact Hl.
Qed.

(** The value of a row, from its own group alone. *)
Lemma written_pointwise value rs (r : Z * Player.t) :
  NoDup (map fst rs) → r ∈ rs →
  foldl (pair_write value) (λ _, fzero) (role_groups rs) r =
  pair_value value
    (role_group (Player.match_id r.2) (Player.teamPosition r.2) rs) r.
Proof.
  intros Hnd Hr.
  destruct (role_group (Player.match_id r.2) (Player.teamPosition r.2) rs)
    as [|p1 [|p2 [|p3 g]]] eqn:Hg;
    try (apply written_unpaired; [done|done|by rewrite Hg]).
  assert (Hin : r ∈ [p1; p2]).
  { rewrite <- Hg. by apply role_group_elem. }
  destruct (written_paired value rs _ _ p1 p2 Hnd Hg) as [H1 H2].
  assert (Hne : p2.1 ≠ p1.1).
  { intros Heq. pose proof (role_group_NoDup (Player.match_id r.2)
      (Player.teamPosition r.2) rs Hnd) as Hnd2.
    rewrite Hg in Hnd2. apply NoDup_cons in Hnd2 as [Hnot _].
    apply Hnot.
    assert (Hp : ∀ p, p ∈ [p1; p2] → p ∈ rs).
    { intros p Hp. rewrite <- Hg in Hp.
      by apply role_group_elem in Hp as (_ & _ & Hp). }
    rewrite (label_inj rs p1 p2 Hnd); [by left| | |done].
    - apply Hp. by left.
    - apply Hp. apply elem_of_cons. right. by left. }
  apply elem_of_cons in Hin as [->|Hin].
  - rewrite H1. unfold pair_value. by rewrite decide_True.
  - apply elem_of_cons in Hin as [->|Hin]; [|by apply elem_of_nil in Hin].
    rewrite H2. unfold pair_value. by rewrite decide_False.
Qed.

(** X17. On tables with distinct index labels, the output of a row depends
    only on the rows of its own match: a table that holds the rows of
    another table between rows of other matches gives these rows the
    values the smaller table gives them. *)
Theorem other_matches_do_not_matter (t : Transform)
    (σ : gmap positive DataFrame) (a b : positive) (dfa dfb : DataFrame)
    (pre post : list (Z * Player.t)) :
  σ !! a = Some dfa →
  σ !! b = Some dfb →
  rows dfb = pre ++ rows dfa ++ post →
  NoDup (map fst (rows dfb)) →
  (∀ r r', r ∈ rows dfa → r' ∈ pre ++ post →
           Player.match_id r'.2 ≠ Player.match_id r.2) →
  ∃ a' σa dfa' b' σb dfb',
    run t a σ = Some (a', σa) ∧ σa !! a' = Some dfa' ∧
    run t b σ = Some (b', σb) ∧ σb !! b' = Some dfb' ∧
    ∀ i, (i < length (rows dfa))%nat →
         cell (output_column t) (length pre + i) dfb' =
         cell (output_column t) i dfa'.
Proof.
  intros Ha Hb Hrows Hnd Hother.
  destruct (run_cells t σ a dfa Ha) as (a' & σa & dfa' & Hruna & Hdfa' & Hca).
  destruct (run_cells t σ b dfb Hb) as (b' & σb & dfb' & Hrunb & Hdfb' & Hcb).
  exists a', σa, dfa', b', σb, dfb'. do 4 (split; [done|]).
  intros i Hi. rewrite Hca, Hcb.
  destruct (lookup_lt_is_Some_2 (rows dfa) i Hi) as [r Hr].
  assert (Hrb : rows dfb !! (length pre + i)%nat = Some r).
  { rewrite Hrows, lookup_app_r by lia.
    replace (length pre + i - length pre)%nat with i by lia.
    by rewrite lookup_app_l. }
  rewrite Hr, Hrb. cbn [fmap option_fmap option_map]. f_equal.
  assert (Hra : r ∈ rows dfa) by by eapply list_elem_of_lookup_2.
  assert (Hnda : NoDup (map fst (rows dfa))).
  { rewrite Hrows, !map_app in Hnd.
    apply NoDup_app in Hnd as (_ & _ & Hnd).
    by apply NoDup_app in Hnd as (Hnd & _ & _). }
  rewrite !written_pointwise;
    [|done|done|done|by eapply list_elem_of_lookup_2].
  f_equal. rewrite Hrows, !role_group_app.
  rewrite (role_group_other_match _ _ pre), (role_group_other_match _ _ post).
  - by rewrite app_nil_r.
  - intros r' Hr'. apply (Hother r r' Hra). apply elem_of_app. by right.
  - intros r' Hr'. apply (Hother r r' Hra). apply elem_of_app. by left.
Qed.

Lemma other_matches_do_not_matter_witness :
  ∃ a' σa dfa' b' σb dfb',
    role_gold_diff 1%positive TableSamples.two_tables = Some (a', σa) ∧
    σa !! a' = Some dfa' ∧
    role_gold_diff 2%positive TableSamples.two_tables = Some (b', σb) ∧
    σb !! b' = Some dfb' ∧
    ∀ i, (i < 3)%nat →
         cell "roleGoldDiff" (3 + i) dfb' = cell "roleGoldDiff" i dfa'.
Proof.
  apply (other_matches_do_not_matter Gold TableSamples.two_tables
           1%positive 2%positive Samples.table TableSamples.both
           TableSamples.second_match []).
  - reflexivity.
  - reflexivity.
  - reflexivity.
  - refine (bool_decide_unpack _ _). vm_compute. exact I.
  - intros r r' Hr Hr'.
    assert (H : Forall (λ r : Z * Player.t,
                  Forall (λ r' : Z * Player.t,
                            Player.match_id r'.2 ≠ Player.match_id r.2)
                         (TableSamples.second_match ++ []))
                  (rows Samples.table)).
    { refine (bool_decide_unpack _ _). vm_compute. exact I. }
    rewrite Forall_forall in H. specialize (H r Hr).
    rewrite Forall_forall in H. exact (H r' Hr').
Defined.

End locality.

(** * The batch runner: the loops *)

Section runner.
Import Http Batch.
Variable extract : string → JSON → JSON → Result (list Player.t).

Lemma time_sleep_comm a b w :
  time_sleep a (time_sleep b w) = time_sleep b (time_sleep a w).
Proof. unfold time_sleep; simpl. f_equal. lia. Qed.

Lemma time_sleep_add a b w :
  time_sleep a (time_sleep b w) = time_sleep (b + a) w.
Proof. unfold time_sleep; simpl. f_equal. lia. Qed.

Lemma time_sleep_0 w : time_sleep 0 w = w.
Proof. destruct w. unfold time_sleep; simpl. f_equal. lia. Qed.

(** Sleeping before a fetch or after it comes to the same: the replies
    depend on the requests made so far, not on the clock. *)
Lemma fetch_time_sleep s url fuel : ∀ w,
  fetch_with_retry fuel url (time_sleep s w) =
  ((fetch_with_retry fuel url w).1,
   time_sleep s (fetch_with_retry fuel url w).2).
Proof.
  induction fuel as [|fuel IH]; intros w; [done|].
  cbn [fetch_with_retry].
  change (requests_get url (time_sleep s w))
    with ((requests_get url w).1, time_sleep s (requests_get url w).2).
  destruct (requests_get url w) as [resp w1]. cbn [fst snd].
  destruct (json resp) as [data|]; [|done].
  destruct (status_code resp =? 200). { by destruct (keys data). }
  destruct (status_code resp =? 429); [|by destruct (status_code resp =? 403)].
  rewrite time_sleep_comm. apply IH.
Qed.

Lemma process_match_time_sleep s fuel match_id all_data w :
  process_match extract fuel match_id all_data (time_sleep s w) =
  ((process_match extract fuel match_id all_data w).1,
   time_sleep s (process_match extract fuel match_id all_data w).2).
Proof.
  unfold process_match. rewrite fetch_time_sleep.
  destruct (fetch_with_retry fuel (match_url match_id) w) as [[[md|e]|] w1];
    cbn [fst snd]; [|done|done].
  destruct (with_info md) as [m|]; [|done].
  rewrite fetch_time_sleep.
  destruct (fetch_with_retry fuel (timeline_url match_id) w1)
    as [[[td|e]|] w2]; cbn [fst snd]; [|done|done].
  destruct (with_info td) as [t|]; [|done].
  by destruct (extract match_id m t) as [[|p df]|e].
Qed.

Lemma process_batch_time_sleep s fuel batch : ∀ all_data w,
  process_batch extract fuel batch all_data (time_sleep s w) =
  ((process_batch extract fuel batch all_data w).1,
   time_sleep s (process_batch extract fuel batch all_data w).2).
Proof.
  induction batch as [|match_id batch IH]; intros all_data w; [done|].
  cbn [process_batch]. rewrite process_match_time_sleep.
  destruct (process_match extract fuel match_id all_data w) as [[a|] w1];
    cbn [fst snd]; [apply IH|done].
Qed.

(** A batch in two parts. *)
Lemma process_batch_app fuel l1 l2 : ∀ all_data w,
  process_batch extract fuel (l1 ++ l2) all_data w =
  match process_batch extract fuel l1 all_data w with
  | (None, w1) => (None, w1)
  | (Some a1, w1) => process_batch extract fuel l2 a1 w1
  end.
Proof.
  induction l1 as [|match_id l1 IH]; intros all_data w; [done|].
  cbn [app process_batch].
  destruct (process_match extract fuel match_id all_data w) as [[a|] w1];
    [apply IH|done].
Qed.

(** The tables only grow, by tables that are not empty. *)
Lemma process_match_grows fuel match_id all_data w a w' :
  process_match extract fuel match_id all_data w = (Some a, w') →
  ∃ new, a = all_data ++ new ∧ Forall (λ df, df ≠ []) new.
Proof.
  unfold process_match.
  destruct (fetch_with_retry fuel (match_url match_id) w) as [[[md|e]|] w1];
    [| |done].
  2: { intros [= <- _]. exists []. by rewrite app_nil_r. }
  destruct (with_info md) as [m|].
  2: { intros [= <- _]. exists []. by rewrite app_nil_r. }
  destruct (fetch_with_retry fuel (timeline_url match_id) w1)
    as [[[td|e]|] w2]; [| |done].
  2: { intros [= <- _]. exists []. by rewrite app_nil_r. }
  destruct (with_info td) as [t|].
  2: { intros [= <- _]. exists []. by rewrite app_nil_r. }
  destruct (extract match_id m t) as [[|p df]|e]; intros [= <- _].
  - exists []. by rewrite app_nil_r.
  - exists [p :: df]. split; [done|]. by constructor.
  - exists []. by rewrite app_nil_r.
Qed.

Lemma process_batch_grows fuel batch : ∀ all_data w a w',
  process_batch extract fuel batch all_data w = (Some a, w') →
  ∃ new, a = all_data ++ new ∧ Forall (λ df, df ≠ []) new.
Proof.
  induction batch as [|match_id batch IH]; intros all_data w a w'.
  - intros [= <- _]. exists []. by rewrite app_nil_r.
  - cbn [process_batch].
    destruct (process_match extract fuel match_id all_data w) as [[a1|] w1]
      eqn:E1; [|done].
    intros E2. apply process_match_grows in E1 as (n1 & -> & H1).
    apply IH in E2 as (n2 & -> & H2).
    exists (n1 ++ n2). split; [by rewrite app_assoc|]. by apply Forall_app.
Qed.

(** The values of the range are the starts of the batches: [k] is the
    index of a batch exactly when [k * batch_size] is below the length. *)
Lemma range_len_spec (n : nat) (batch_size : Z) (k : nat) :
  0 < batch_size →
  (k < range_len (Z.of_nat n) batch_size)%nat ↔
  Z.of_nat k * batch_size < Z.of_nat n.
Proof.
  intros Hb. unfold range_len.
  rewrite decide_True by done.
  destruct (decide (0 < Z.of_nat n)) as [Hn|Hn]; [|split; [lia | nia]].
  assert (H0 : 0 ≤ (Z.of_nat n - 1) / batch_size)
    by (apply Z.div_pos; lia).
  split; intros H.
  - assert (Z.of_nat k ≤ (Z.of_nat n - 1) / batch_size) by lia.
    pose proof (Z.mul_div_le (Z.of_nat n - 1) batch_size Hb). nia.
  - assert (Z.of_nat k ≤ (Z.of_nat n - 1) / batch_size); [|lia].
    apply Z.div_le_lower_bound; lia.
Qed.

Lemma range_positive (n : nat) (batch_size : Z) :
  0 < batch_size →
  range (Z.of_nat n) batch_size =
  Returned (map (λ k, Z.of_nat k * batch_size)
                (seq 0 (range_len (Z.of_nat n) batch_size))).
Proof. intros Hb. unfold range. by rewrite decide_False by lia. Qed.

Lemma concat_ignore_index_rows all_data :
  map snd (rows (concat_ignore_index all_data)) = concat all_data.
Proof.
  unfold concat_ignore_index. cbn [rows].
  generalize (concat all_data). intros l.
  change (map snd (imap (λ i p, (Z.of_nat i, p)) l))
    with (snd <$> imap (λ i p, (Z.of_nat i, p)) l).
  rewrite fmap_imap. unfold compose. cbn [snd].
  induction l as [|x l IH]; [done|].
  cbn [imap]. f_equal. exact IH.
Qed.

(** A later checkpoint replaces an earlier one. *)
Lemma save_checkpoint_twice path a new d :
  save_checkpoint path (a ++ new) (save_checkpoint path a d) =
  save_checkpoint path (a ++ new) d.
Proof.
  destruct path as [p|]; [|by destruct a, new].
  destruct a as [|x a]; [done|].
  cbn [app save_checkpoint].
  destruct (decide (p = "")); [done|].
  by rewrite insert_insert_eq.
Qed.

Lemma batches_run fuel match_ids batch_size pause_time checkpoint_path :
  0 < batch_size →
  ∀ c k0 a m,
    (k0 + c)%nat = range_len (Z.of_nat (length match_ids)) batch_size →
    (0 ≤ pause_time ∨ (c ≤ 1)%nat) →
    let rest := drop (Z.to_nat (Z.of_nat k0 * batch_size)) match_ids in
    let run :=
      batches extract fuel match_ids batch_size pause_time checkpoint_path
        (map (λ k, Z.of_nat k * batch_size) (seq k0 c)) a m in
    ((process_batch extract fuel rest a (world m)).1 = None →
     run.1 = None) ∧
    ∀ a' w', process_batch extract fuel rest a (world m) = (Some a', w') →
      run =
      (Some (Returned a'),
       mkMachine (time_sleep (pause_time * Z.of_nat (pred c)) w')
         (match c with
          | O => disk m
          | S _ => save_checkpoint checkpoint_path a' (disk m)
          end)).
Proof.
  intros Hb. induction c as [|c IH]; intros k0 a m HC Hpause rest run.
  - assert (Hrest : rest = []).
    { apply drop_ge.
      assert (¬ (k0 < range_len (Z.of_nat (length match_ids)) batch_size)%nat)
        as Hk by lia.
      rewrite range_len_spec in Hk by done. lia. }
    unfold run. rewrite Hrest. cbn [seq map batches process_batch].
    split; [done|]. intros a' w' [= <- <-].
    rewrite Z.mul_0_r, time_sleep_0. by destruct m.
  - set (i := Z.of_nat k0 * batch_size) in *.
    set (batch := take (Z.to_nat batch_size) (drop (Z.to_nat i) match_ids)).
    set (rest' :=
           drop (Z.to_nat (Z.of_nat (S k0) * batch_size)) match_ids).
    assert (Hsplit : rest = batch ++ rest').
    { unfold rest, batch, rest'.
      rewrite <- (take_drop (Z.to_nat batch_size)
                    (drop (Z.to_nat i) match_ids)) at 1.
      f_equal. rewrite drop_drop. f_equal. unfold i. lia. }
    assert (Hlast : i + batch_size < Z.of_nat (length match_ids) ↔
                    (0 < c)%nat).
    { replace (i + batch_size) with (Z.of_nat (S k0) * batch_size)
        by (unfold i; lia).
      rewrite <- range_len_spec by done. lia. }
    unfold run. cbn [seq map batches]. fold i. fold batch.
    rewrite Hsplit, process_batch_app.
    destruct (process_batch extract fuel batch a (world m)) as [[a1|] w1]
      eqn:E1; [|done].
    destruct (process_batch_grows _ _ _ _ _ _ E1) as (n1 & -> & _).
    destruct (decide (i + batch_size < Z.of_nat (length match_ids)))
      as [Hmore|Hmore].
    + assert (0 < c)%nat as Hc by (by apply Hlast).
      rewrite decide_False by lia.
      edestruct (IH (S k0) (a ++ n1)
                   (mkMachine (time_sleep pause_time w1)
                      (save_checkpoint checkpoint_path (a ++ n1) (disk m))))
        as [IHnone IHsome]; [lia|lia|].
      cbn [world disk] in IHnone, IHsome. fold rest' in IHnone, IHsome.
      rewrite process_batch_time_sleep in IHnone, IHsome.
      destruct (process_batch extract fuel rest' (a ++ n1) w1)
        as [[a2|] w2] eqn:E2; cbn [fst snd] in *.
      * split; [done|]. intros a' w' [= <- <-].
        rewrite (IHsome a2 (time_sleep pause_time w2) eq_refl).
        destruct (process_batch_grows _ _ _ _ _ _ E2) as (n2 & -> & _).
        rewrite save_checkpoint_twice, time_sleep_add.
        destruct c as [|c]; [lia|]. cbn [pred].
        do 3 f_equal. lia.
      * split; [|done]. intros _. by apply IHnone.
    + assert (c = 0)%nat as -> by lia.
      assert (Hrest' : rest' = []).
      { apply drop_ge. unfold i in Hmore. lia. }
      rewrite Hrest'. cbn [seq map batches process_batch fst].
      split; [done|]. intros a' w' [= <- <-].
      cbn [pred]. by rewrite Z.mul_0_r, time_sleep_0.
Qed.

Lemma pauses_range_len (n : nat) (batch_size : Z) :
  0 < batch_size →
  Z.of_nat (pred (range_len (Z.of_nat n) batch_size)) = pauses n batch_size.
Proof.
  intros Hb. unfold pauses, range_len. rewrite decide_True by done.
  replace (Z.of_nat n + batch_size - 1)
    with (Z.of_nat n - 1 + 1 * batch_size) by lia.
  rewrite Z.div_add by lia.
  destruct (decide (0 < Z.of_nat n)) as [Hn|Hn].
  - assert (0 ≤ (Z.of_nat n - 1) / batch_size) by (apply Z.div_pos; lia).
    lia.
  - assert (n = 0)%nat as -> by lia. cbn [pred Z.of_nat].
    assert ((0 - 1) / batch_size < 0); [|lia].
    apply Z.div_lt_upper_bound; lia.
Qed.

Lemma range_len_nil (batch_size : Z) :
  range_len (Z.of_nat 0) batch_size = 0%nat.
Proof.
  unfold range_len. destruct (decide (0 < batch_size)).
  - by rewrite decide_False by lia.
  - by rewrite decide_False by lia.
Qed.

Lemma range_len_negative (n : nat) (batch_size : Z) :
  batch_size < 0 → range_len (Z.of_nat n) batch_size = 0%nat.
Proof.
  intros Hb. unfold range_len.
  rewrite decide_False by lia. by rewrite decide_False by lia.
Qed.

(** The run as the one-by-one processing of all the ids. *)
Lemma run_of_process_batch fuel match_ids batch_size pause_time
    checkpoint_path m all_data w' :
  0 < batch_size →
  0 ≤ pause_time ∨
    (range_len (Z.of_nat (length match_ids)) batch_size ≤ 1)%nat →
  process_batch extract fuel match_ids [] (world m) = (Some all_data, w') →
  process_matches_batch extract fuel match_ids batch_size pause_time
    checkpoint_path m =
  (Some (Returned (concat_ignore_index all_data)),
   mkMachine
     (time_sleep (pause_time * pauses (length match_ids) batch_size) w')
     (save_checkpoint checkpoint_path all_data (disk m))).
Proof.
  intros Hb Hpause Hall. unfold process_matches_batch.
  rewrite range_positive by done.
  destruct (batches_run fuel match_ids batch_size pause_time
              checkpoint_path Hb
              (range_len (Z.of_nat (length match_ids)) batch_size)
              0%nat [] m eq_refl Hpause) as [_ Hsome].
  change (drop _ match_ids) with match_ids in Hsome.
  rewrite (Hsome all_data w' Hall).
  rewrite pauses_range_len by done.
  assert (Hdisk :
    match range_len (Z.of_nat (length match_ids)) batch_size with
    | O => disk m
    | S _ => save_checkpoint checkpoint_path all_data (disk m)
    end = save_checkpoint checkpoint_path all_data (disk m)).
  { destruct (range_len _ _) eqn:EC; [|done].
    assert (¬ (0 < range_len (Z.of_nat (length match_ids)) batch_size)%nat)
      as H0 by lia.
    rewrite range_len_spec in H0 by done.
    destruct match_ids as [|x l]; [|cbn [length] in H0; lia].
    injection Hall as <- _. by destruct checkpoint_path. }
  rewrite Hdisk. by destruct all_data.
Qed.

(** A run that returns a table has processed every id. *)
Lemma run_returned fuel match_ids batch_size pause_time checkpoint_path
    m df m' :
  process_matches_batch extract fuel match_ids batch_size pause_time
    checkpoint_path m = (Some (Returned df), m') →
  ∃ all_data w',
    (batch_size < 0 ∧ all_data = [] ∧ w' = world m ∨
     0 < batch_size ∧
     process_batch extract fuel match_ids [] (world m)
       = (Some all_data, w')) ∧
    df = concat_ignore_index all_data ∧
    world m' = time_sleep
                 (pause_time *
                  Z.of_nat
                    (pred (range_len (Z.of_nat (length match_ids))
                             batch_size))) w' ∧
    disk m' = save_checkpoint checkpoint_path all_data (disk m).
Proof.
  intros Hrun.
  destruct (Z.lt_trichotomy batch_size 0) as [Hb|[->|Hb]].
  - unfold process_matches_batch, range in Hrun.
    rewrite decide_False in Hrun by lia.
    rewrite range_len_negative in Hrun by done.
    cbn [seq map batches] in Hrun. injection Hrun as <- <-.
    exists [], (world m). split; [by left|]. split; [done|].
    rewrite range_len_negative by done.
    rewrite Z.mul_0_r, time_sleep_0. split; [done|].
    by destruct checkpoint_path.
  - unfold process_matches_batch, range in Hrun.
    by rewrite decide_True in Hrun by done.
  - set (C := range_len (Z.of_nat (length match_ids)) batch_size).
    assert (Hpause : 0 ≤ pause_time ∨ (C ≤ 1)%nat).
    { destruct (decide (0 ≤ pause_time)) as [|Hneg]; [by left|].
      destruct (decide (C ≤ 1)%nat) as [|HC]; [by right|]. exfalso.
      unfold process_matches_batch in Hrun.
      rewrite range_positive in Hrun by done. fold C in Hrun.
      destruct C as [|[|C2]] eqn:EC; [lia|lia|].
      cbn [seq map batches] in Hrun.
      destruct (process_batch extract fuel _ [] (world m)) as [[a1|] w1];
        [|done].
      rewrite decide_True in Hrun.
      - by rewrite decide_True in Hrun by lia.
      - cbn [Z.of_nat Z.mul]. rewrite Z.add_0_l.
        replace batch_size with (Z.of_nat 1 * batch_size) by lia.
        apply range_len_spec; [done|]. fold C. lia. }
    destruct (process_batch extract fuel match_ids [] (world m))
      as [[all_data|] w'] eqn:Hall.
    + rewrite (run_of_process_batch _ _ _ _ _ _ _ _ Hb Hpause Hall) in Hrun.
      injection Hrun as <- <-. exists all_data, w'.
      split; [by right|]. split; [done|]. cbn [world disk].
      subst C. by rewrite pauses_range_len.
    + exfalso. unfold process_matches_batch in Hrun.
      rewrite range_positive in Hrun by done.
      destruct (batches_run fuel match_ids batch_size pause_time
                  checkpoint_path Hb C 0%nat [] m eq_refl Hpause)
        as [Hnone _].
      change (drop _ match_ids) with match_ids in Hnone.
      rewrite Hall in Hnone. specialize (Hnone eq_refl). subst C.
      destruct (batches extract fuel match_ids batch_size pause_time
                  checkpoint_path _ [] m) as [[[[|]|]|] ?];
        cbn [fst] in Hnone; done.
Qed.

Lemma fetched_later N w url k :
  (k = 0 ∨ length (sent w) + k ≤ N)%nat →
  fetched N 1 w (later w url (S k) (10 * Z.of_nat k)).
Proof.
  intros Hk. split; [done|]. exists k. cbn [later sent slept].
  rewrite length_app, length_replicate. split; [lia|]. done.
Qed.

Lemma fetched_trans N c1 c2 w1 w2 w3 :
  fetched N c1 w1 w2 → fetched N c2 w2 w3 → fetched N (c1 + c2) w1 w3.
Proof.
  intros (Hn1 & r1 & Hs1 & Hz1 & Hr1) (Hn2 & r2 & Hs2 & Hz2 & Hr2).
  split; [congruence|]. exists (r1 + r2)%nat.
  split; [lia|]. split; lia.
Qed.

Lemma quiet_from_fetched N c w w' :
  fetched N c w w' → quiet_from N w → quiet_from N w'.
Proof. intros [Hn _] Hq n url Hle. rewrite Hn. by apply Hq. Qed.

(** When the network stops rate limiting, a fetch returns. *)
Lemma fetch_finishes N url : ∀ fuel w,
  quiet_from N w → (N - length (sent w) < fuel)%nat →
  ∃ r k, fetch_with_retry fuel url w
         = (Some r, later w url (S k) (10 * Z.of_nat k)) ∧
         (k = 0 ∨ length (sent w) + k ≤ N)%nat.
Proof.
  induction fuel as [|fuel IH]; intros w Hq Hfuel; [lia|].
  cbn [fetch_with_retry]. rewrite requests_get_later.
  destruct (json (reply w url 0)) as [data|] eqn:Hjson.
  2: { exists (Ok None), 0%nat. split; [done|]. by left. }
  destruct (Z.eqb_spec (status_code (reply w url 0)) 200) as [H200|H200].
  { destruct (keys data); eexists _, 0%nat; (split; [done|by left]). }
  destruct (Z.eqb_spec (status_code (reply w url 0)) 429) as [H429|H429].
  2: { exists (Ok None), 0%nat.
       split; [by destruct (status_code _ =? 403)|by left]. }
  assert (Hlt : (length (sent w) < N)%nat).
  { destruct (decide (length (sent w) < N)%nat) as [|Hge]; [done|].
    exfalso. apply (Hq (length (sent w)) url); [lia|].
    unfold reply in *. rewrite Nat.add_0_r in *.
    split; [done|by eexists]. }
  rewrite time_sleep_later.
  destruct (IH (later w url 1 (0 + 10))) as (r & k & Hr & Hk).
  - done.
  - cbn [later sent]. rewrite length_app, length_replicate. lia.
  - exists r, (S k). rewrite Hr, later_later. split.
    + do 2 f_equal. lia.
    + right. cbn [later sent] in Hk.
      rewrite length_app, length_replicate in Hk. lia.
Qed.

Lemma process_match_finishes N fuel match_id all_data w :
  quiet_from N w → (N < fuel)%nat →
  ∃ a w' calls,
    process_match extract fuel match_id all_data w = (Some a, w') ∧
    (1 ≤ calls ≤ 2)%nat ∧ fetched N calls w w'.
Proof.
  intros Hq Hfuel. unfold process_match.
  assert (Hdone : ∀ (a : list (list Player.t)) w' calls, (1 ≤ calls ≤ 2)%nat → fetched N calls w w' →
    ∃ a0 w0 calls0, (Some a, w') = (Some a0, w0) ∧
      (1 ≤ calls0 ≤ 2)%nat ∧ fetched N calls0 w w0).
  { intros a w' calls Hc F. by exists a, w', calls. }
  destruct (fetch_finishes N (match_url match_id) fuel w Hq)
    as (r1 & k1 & -> & Hk1); [lia|].
  pose proof (fetched_later N w (match_url match_id) k1 Hk1) as F1.
  set (w1 := later w (match_url match_id) (S k1) (10 * Z.of_nat k1)) in *.
  destruct r1 as [md|e]; [|by apply (Hdone _ _ 1%nat); [lia|]].
  destruct (with_info md) as [m|]; [|by apply (Hdone _ _ 1%nat); [lia|]].
  destruct (fetch_finishes N (timeline_url match_id) fuel w1)
    as (r2 & k2 & -> & Hk2);
    [by eapply quiet_from_fetched|lia|].
  pose proof (fetched_trans _ _ _ _ _ _ F1
                (fetched_later N w1 (timeline_url match_id) k2 Hk2)) as F2.
  set (w2 := later w1 (timeline_url match_id) (S k2) (10 * Z.of_nat k2))
    in *.
  destruct r2 as [td|e]; [|by apply (Hdone _ _ 2%nat); [lia|]].
  destruct (with_info td) as [t|]; [|by apply (Hdone _ _ 2%nat); [lia|]].
  destruct (extract match_id m t) as [[|p df]|e];
    by apply (Hdone _ _ 2%nat); [lia|].
Qed.

Lemma process_batch_finishes N fuel batch : ∀ all_data w,
  quiet_from N w → (N < fuel)%nat →
  ∃ a w' calls,
    process_batch extract fuel batch all_data w = (Some a, w') ∧
    (length batch ≤ calls ≤ 2 * length batch)%nat ∧ fetched N calls w w'.
Proof.
  induction batch as [|match_id batch IH]; intros all_data w Hq Hfuel.
  - exists all_data, w, 0%nat. split; [done|]. split; [simpl; lia|].
    split; [done|]. exists 0%nat. split; [lia|]. split; [lia|by left].
  - cbn [process_batch].
    destruct (process_match_finishes N fuel match_id all_data w Hq Hfuel)
      as (a1 & w1 & c1 & -> & Hc1 & F1).
    destruct (IH a1 w1) as (a2 & w2 & c2 & -> & Hc2 & F2);
      [by eapply quiet_from_fetched|done|].
    exists a2, w2, (c1 + c2)%nat. split; [done|].
    split; [cbn [length]; lia|]. by eapply fetched_trans.
Qed.

Lemma extends_refl w : extends w w.
Proof. by split. Qed.

Lemma extends_trans w1 w2 w3 :
  extends w1 w2 → extends w2 w3 → extends w1 w3.
Proof.
  intros [Hn1 Hs1] [Hn2 Hs2]. split; [congruence|by etrans].
Qed.

Lemma extends_later w url k naps : extends w (later w url k naps).
Proof. split; [done|]. by apply prefix_app_r. Qed.

Lemma extends_length w w' : extends w w' →
  (length (sent w) ≤ length (sent w'))%nat.
Proof. intros [_ Hs]. by apply prefix_length. Qed.

(** Whatever a fetch does, it sends requests for its URL and sleeps. *)
Lemma fetch_world url : ∀ fuel w r w',
  fetch_with_retry fuel url w = (r, w') →
  ∃ k naps, w' = later w url k naps.
Proof.
  induction fuel as [|fuel IH]; intros w r w'.
  { intros [= _ <-]. exists 0%nat, 0. by rewrite later_0. }
  cbn [fetch_with_retry]. rewrite requests_get_later.
  destruct (json (reply w url 0)) as [data|].
  2: { intros [= _ <-]. by eexists _, _. }
  destruct (status_code (reply w url 0) =? 200).
  { destruct (keys data); intros [= _ <-]; by eexists _, _. }
  destruct (status_code (reply w url 0) =? 429).
  2: { destruct (status_code _ =? 403); intros [= _ <-]; by eexists _, _. }
  rewrite time_sleep_later. intros H.
  apply IH in H as (k & naps & ->). rewrite later_later. by eexists _, _.
Qed.

(** A payload a fetch returns is the body of a 200 reply, and a dict. *)
Lemma fetch_returns url : ∀ fuel w data w',
  fetch_with_retry fuel url w = (Some (Ok (Some data)), w') →
  ∃ k naps, w' = later w url (S k) naps ∧
    reply w url k = mkResponse 200 (Some data) ∧ is_object data.
Proof.
  induction fuel as [|fuel IH]; intros w data w'; [done|].
  cbn [fetch_with_retry]. rewrite requests_get_later.
  destruct (reply w url 0) as [status body] eqn:Hreply. cbn [json status_code].
  destruct body as [data0|]; [|done].
  destruct (Z.eqb_spec status 200) as [->|H200].
  { destruct (keys data0) eqn:Hkeys; [|done]. intros [= <- <-].
    exists 0%nat, 0. split; [done|]. split; [done|].
    by destruct data0. }
  destruct (status =? 429); [|by destruct (status =? 403)].
  rewrite time_sleep_later. intros H.
  apply IH in H as (k & naps & -> & Hk & Hobj).
  exists (S k), (0 + 10 + naps). rewrite later_later.
  split; [done|]. split; [|done].
  by rewrite reply_later in Hk.
Qed.

Lemma with_info_Some data m : with_info data = Some m → data = Some m.
Proof.
  destruct data as [[| | | | |fields]|]; try done. cbn [with_info].
  by destruct (bool_decide _).
Qed.

Lemma fetched_pair_extends w w' first first' match_id md td :
  extends w w' → (first' ≤ first)%nat →
  fetched_pair w first match_id md td →
  fetched_pair w' first' match_id md td.
Proof.
  intros [Hn Hs] Hle (i & j & Hij & Hi & Hj & Hri & Hrj).
  exists i, j. rewrite Hn. split; [lia|].
  split; [by eapply prefix_lookup_Some|].
  split; [by eapply prefix_lookup_Some|]. done.
Qed.

Lemma sent_later_last w url k naps :
  sent (later w url (S k) naps) !! (length (sent w) + k)%nat = Some url.
Proof.
  cbn [later sent]. rewrite lookup_app_r by lia.
  apply lookup_replicate_2. lia.
Qed.

(** One match: nothing is added, or the table extracted from the two
    payloads just fetched. *)
Lemma process_match_provenance fuel match_id all_data w a w' :
  process_match extract fuel match_id all_data w = (Some a, w') →
  extends w w' ∧
  (a = all_data ∨
   ∃ md td table,
     a = all_data ++ [table] ∧
     fetched_pair w' (length (sent w)) match_id md td ∧
     with_info (Some md) = Some md ∧ with_info (Some td) = Some td ∧
     extract match_id md td = Ok table).
Proof.
  unfold process_match.
  destruct (fetch_with_retry fuel (match_url match_id) w) as [[r1|] w1]
    eqn:E1; [|done].
  destruct (fetch_world _ _ _ _ _ E1) as (k1' & n1' & Hw1).
  assert (X1 : extends w w1) by (rewrite Hw1; apply extends_later).
  destruct r1 as [md0|e]; [|intros [= <- <-]; split; [done|by left]].
  destruct (with_info md0) as [md|] eqn:Hmd;
    [|intros [= <- <-]; split; [done|by left]].
  apply with_info_Some in Hmd as Hmd0. subst md0.
  destruct (fetch_with_retry fuel (timeline_url match_id) w1) as [[r2|] w2]
    eqn:E2; [|done].
  destruct (fetch_world _ _ _ _ _ E2) as (k2' & n2' & Hw2).
  assert (X2 : extends w1 w2) by (rewrite Hw2; apply extends_later).
  assert (X : extends w w2) by (by eapply extends_trans).
  destruct r2 as [td0|e]; [|intros [= <- <-]; split; [done|by left]].
  destruct (with_info td0) as [td|] eqn:Htd;
    [|intros [= <- <-]; split; [done|by left]].
  apply with_info_Some in Htd as Htd0. subst td0.
  destruct (extract match_id md td) as [[|p df]|e] eqn:Hex;
    intros [= <- <-]; (split; [done|]); [by left| |by left].
  right. exists md, td, (p :: df). split; [done|].
  split; [|done].
  apply fetch_returns in E1 as (k1 & n1 & -> & Hr1 & _).
  apply fetch_returns in E2 as (k2 & n2 & -> & Hr2 & _).
  exists (length (sent w) + k1)%nat,
         (length (sent w) + S k1 + k2)%nat.
  split; [lia|].
  split.
  { eapply prefix_lookup_Some; [apply sent_later_last|].
    apply extends_later. }
  split.
  { replace (length (sent w) + S k1)%nat
      with (length (sent (later w (match_url match_id) (S k1) n1))).
    - apply sent_later_last.
    - cbn [later sent]. rewrite length_app, length_replicate. lia. }
  split; [exact Hr1|].
  unfold reply in Hr2. cbn [later sent net] in Hr2.
  rewrite length_app, length_replicate in Hr2. exact Hr2.
Qed.

Lemma process_batch_provenance fuel batch : ∀ all_data w a w',
  process_batch extract fuel batch all_data w = (Some a, w') →
  extends w w' ∧
  ∃ new, a = all_data ++ new ∧
    Forall (λ table, ∃ match_id md td,
              match_id ∈ batch ∧
              fetched_pair w' (length (sent w)) match_id md td ∧
              with_info (Some md) = Some md ∧
              with_info (Some td) = Some td ∧
              extract match_id md td = Ok table) new.
Proof.
  induction batch as [|match_id batch IH]; intros all_data w a w'.
  { intros [= <- <-]. split; [apply extends_refl|].
    exists []. by rewrite app_nil_r. }
  cbn [process_batch].
  destruct (process_match extract fuel match_id all_data w) as [[a1|] w1]
    eqn:E1; [|done].
  intros E2.
  apply process_match_provenance in E1 as [X1 H1].
  apply IH in E2 as (X2 & n2 & -> & H2).
  split; [by eapply extends_trans|].
  assert (H2' : Forall (λ table, ∃ match_id0 md td,
              match_id0 ∈ match_id :: batch ∧
              fetched_pair w' (length (sent w)) match_id0 md td ∧
              with_info (Some md) = Some md ∧
              with_info (Some td) = Some td ∧
              extract match_id0 md td = Ok table) n2).
  { eapply Forall_impl; [exact H2|].
    intros table (id & md & td & Hid & Hp & Hm & Ht & Hex).
    exists id, md, td. split; [by right|]. split; [|done].
    eapply fetched_pair_extends; [apply extends_refl| |exact Hp].
    by apply extends_length. }
  destruct H1 as [->|(md & td & table & -> & Hp & Hm & Ht & Hex)].
  - by exists n2.
  - exists (table :: n2). split; [by rewrite <- app_assoc|].
    constructor; [|done].
    exists match_id, md, td. split; [by left|]. split; [|done].
    by eapply fetched_pair_extends.
Qed.

End runner.

(** * The batch runner: properties *)

Section runner_results.
Import Http Batch.

Lemma with_info_has_info md : with_info (Some md) = Some md → has_info md.
Proof.
  destruct md as [| | | | |fields]; try done. cbn [with_info].
  case_bool_decide as Hin; [|done]. intros _. by exists fields.
Qed.

Lemma concat_nonempty {A} (a : list (list A)) :
  Forall (λ df, df ≠ []) a → concat a = [] → a = [].
Proof.
  destruct a as [|x a]; [done|]. intros Hne Hc.
  apply Forall_cons in Hne as [Hx _]. cbn [concat] in Hc.
  by apply app_eq_nil in Hc as [? _].
Qed.

Lemma elem_of_concat {A} (x : A) (ls : list (list A)) :
  x ∈ concat ls ↔ ∃ l, x ∈ l ∧ l ∈ ls.
Proof.
  induction ls as [|l ls IH]; cbn [concat].
  - split; [by intros ?%elem_of_nil|].
    by intros (? & _ & ?%elem_of_nil).
  - rewrite elem_of_app, IH. split.
    + intros [Hx|(l' & Hx & Hl')]; [exists l; split; [done|by left]|].
      exists l'. split; [done|by right].
    + intros (l' & Hx & [->|Hl']%elem_of_cons); [by left|].
      right. by exists l'.
Qed.

Lemma concat_ignore_index_lookup all_data i r :
  rows (concat_ignore_index all_data) !! i = Some r ↔
  ∃ p, concat all_data !! i = Some p ∧ r = (Z.of_nat i, p).
Proof.
  unfold concat_ignore_index. cbn [rows]. rewrite list_lookup_imap.
  destruct (concat all_data !! i) as [p|]; cbn.
  - split; [intros [= <-]; by exists p|by intros (? & [= <-] & ->)].
  - split; [done|by intros (? & ? & _)].
Qed.

Lemma concat_ignore_index_labels all_data :
  NoDup (map fst (rows (concat_ignore_index all_data))).
Proof.
  apply NoDup_alt. intros i j l Hi Hj.
  change (map fst ?x) with (fst <$> x) in Hi, Hj.
  rewrite list_lookup_fmap in Hi, Hj.
  destruct (rows _ !! i) as [ri|] eqn:Ei; [|done].
  destruct (rows _ !! j) as [rj|] eqn:Ej; [|done].
  apply concat_ignore_index_lookup in Ei as (? & _ & ->).
  apply concat_ignore_index_lookup in Ej as (? & _ & ->).
  cbn in Hi, Hj. injection Hi as <-. injection Hj as Hj. lia.
Qed.

Lemma concat_ignore_index_position all_data r :
  r ∈ rows (concat_ignore_index all_data) →
  rows (concat_ignore_index all_data) !! Z.to_nat r.1 = Some r.
Proof.
  intros Hr. apply list_elem_of_lookup_1 in Hr as [i Hi].
  pose proof Hi as Hi'.
  apply concat_ignore_index_lookup in Hi' as (p & _ & ->).
  cbn [fst]. by rewrite Nat2Z.id.
Qed.

(** The tables a returned run has collected. *)
Lemma run_tables extract fuel match_ids batch_size pause_time
    checkpoint_path m df m' :
  process_matches_batch extract fuel match_ids batch_size pause_time
    checkpoint_path m = (Some (Returned df), m') →
  ∃ all_data,
    Forall (λ table, table ≠ []) all_data ∧
    df = concat_ignore_index all_data ∧
    disk m' = save_checkpoint checkpoint_path all_data (disk m).
Proof.
  intros Hrun.
  apply run_returned in Hrun
    as (a & w' & [(_ & -> & _)|[_ Hall]] & -> & _ & Hd).
  - by exists [].
  - exists a. split; [|done].
    by apply process_batch_grows in Hall as (new & -> & Hnew).
Qed.

(** X18. With a positive batch size and a pause that is not negative, a
    run whose fetches all return gives the table, and sends the requests,
    of processing the ids one after the other in a single loop: the batch
    size, the pause and the checkpoint path change neither. The table
    holds the tables collected, one after the other, under a fresh index.
    On top of the sleeps of the fetches the run sleeps [pause_time] once
    after every batch but the last. *)
Theorem batching_only_adds_pauses
    (extract : string → JSON → JSON → Result (list Player.t))
    (fuel : nat) (match_ids : list string)
    (batch_size pause_time : Z) (checkpoint_path : option string)
    (m : Machine) (all_data : list (list Player.t)) (w' : World) :
  0 < batch_size → 0 ≤ pause_time →
  process_batch extract fuel match_ids [] (world m) = (Some all_data, w') →
  ∃ m',
    process_matches_batch extract fuel match_ids batch_size pause_time
      checkpoint_path m
    = (Some (Returned (concat_ignore_index all_data)), m') ∧
    net (world m') = net w' ∧
    sent (world m') = sent w' ∧
    slept (world m') =
      slept w' + pause_time * pauses (length match_ids) batch_size.
Proof.
  intros Hb Hp Hall. eexists. split.
  - apply run_of_process_batch; [done|by left|exact Hall].
  - done.
Qed.

Lemma batching_only_adds_pauses_witness :
  ∃ m',
    process_matches_batch BatchSamples.read 1 BatchSamples.ids 2 120
      (Some "partial.csv") (BatchSamples.machine BatchSamples.api)
    = (Some (Returned (concat_ignore_index [BatchSamples.ten_rows])), m') ∧
    net (world m') = BatchSamples.api ∧
    sent (world m') =
      [match_url "NA1_1"; timeline_url "NA1_1";
       match_url "NA1_2"; timeline_url "NA1_2"; match_url "NA1_3"] ∧
    slept (world m') = 0 + 120 * pauses 3 2.
Proof.
  apply (batching_only_adds_pauses BatchSamples.read 1 BatchSamples.ids 2
           120 (Some "partial.csv") (BatchSamples.machine BatchSamples.api)
           [BatchSamples.ten_rows]
           (mkWorld BatchSamples.api
              [match_url "NA1_1"; timeline_url "NA1_1";
               match_url "NA1_2"; timeline_url "NA1_2"; match_url "NA1_3"]
              0)).
  - lia.
  - lia.
  - vm_compute. reflexivity.
Defined.

(** X19. When a run returns a table that has rows and the checkpoint path
    is a string that is not empty, the file at this path holds in the end
    exactly the rows of the returned table, in their order and without the
    index, and every other file is as it was. Without a checkpoint path
    ([None] or the empty string), or when the returned table is empty, no
    file is written. *)
Theorem checkpoint_holds_the_returned_rows
    (extract : string → JSON → JSON → Result (list Player.t))
    (fuel : nat) (match_ids : list string) (batch_size pause_time : Z)
    (checkpoint_path : option string) (m m' : Machine) (df : DataFrame) :
  process_matches_batch extract fuel match_ids batch_size pause_time
    checkpoint_path m = (Some (Returned df), m') →
  (∀ path, checkpoint_path = Some path → path ≠ "" → rows df ≠ [] →
     disk m' = <[path := map snd (rows df)]> (disk m)) ∧
  (checkpoint_path = None ∨ checkpoint_path = Some "" ∨ rows df = [] →
     disk m' = disk m).
Proof.
  intros Hrun.
  apply run_tables in Hrun as (a & Hne & -> & ->).
  split.
  - intros path -> Hpath Hrows.
    destruct a as [|x a]; [done|].
    cbn [save_checkpoint]. by rewrite decide_False by done.
  - intros [->|[->|Hrows]]; [done|by destruct a|].
    assert (a = []) as ->; [|by destruct checkpoint_path].
    apply concat_nonempty; [done|].
    rewrite <- concat_ignore_index_rows, Hrows. done.
Qed.

Lemma checkpoint_holds_the_returned_rows_witness :
  disk (process_matches_batch BatchSamples.read 1 BatchSamples.ids 2 120
          (Some "partial.csv") (BatchSamples.machine BatchSamples.api)).2
  = <["partial.csv" := map snd (rows BatchSamples.returned)]> ∅.
Proof.
  destruct (checkpoint_holds_the_returned_rows BatchSamples.read 1
              BatchSamples.ids 2 120 (Some "partial.csv")
              (BatchSamples.machine BatchSamples.api)
              (process_matches_batch BatchSamples.read 1 BatchSamples.ids 2
                 120 (Some "partial.csv")
                 (BatchSamples.machine BatchSamples.api)).2
              BatchSamples.returned) as [Hsaved _].
  - vm_compute. reflexivity.
  - apply (Hsaved "partial.csv"); [reflexivity|discriminate|discriminate].
Defined.

(** X20. If the network stops rate limiting after [N] requests, a run
    with a positive batch size and a pause that is not negative finishes
    and returns a table, whatever the replies are otherwise. It makes at
    least one and at most two requests for each id, plus one for each
    retried 429, of which there are at most [N]; it sleeps 10 seconds for
    each retry and [pause_time] for each pause. *)
Theorem run_finishes
    (extract : string → JSON → JSON → Result (list Player.t))
    (N fuel : nat) (match_ids : list string) (batch_size pause_time : Z)
    (checkpoint_path : option string) (m : Machine) :
  quiet_from N (world m) → (N < fuel)%nat →
  0 < batch_size → 0 ≤ pause_time →
  ∃ df m' retries,
    process_matches_batch extract fuel match_ids batch_size pause_time
      checkpoint_path m = (Some (Returned df), m') ∧
    (retries ≤ N)%nat ∧
    (length match_ids + retries ≤ requests_made (world m) (world m')
       ≤ 2 * length match_ids + retries)%nat ∧
    slept (world m') =
      slept (world m) + 10 * Z.of_nat retries
      + pause_time * pauses (length match_ids) batch_size.
Proof.
  intros Hq Hfuel Hb Hp.
  destruct (process_batch_finishes extract N fuel match_ids [] (world m)
              Hq Hfuel)
    as (a & w' & calls & Hall & Hcalls & _ & retries & Hs & Hz & Hr).
  eexists _, _, retries. split.
  { apply run_of_process_batch; [done|by left|exact Hall]. }
  cbn [world]. unfold requests_made. cbn [time_sleep sent slept].
  split; [lia|]. split; lia.
Qed.

Lemma run_finishes_witness :
  ∃ df m' retries,
    process_matches_batch BatchSamples.read 3 BatchSamples.ids 2 120 None
      (BatchSamples.machine BatchSamples.api_limited)
    = (Some (Returned df), m') ∧
    (retries ≤ 2)%nat ∧
    (3 + retries ≤ requests_made
                      (world (BatchSamples.machine BatchSamples.api_limited))
                      (world m')
       ≤ 2 * 3 + retries)%nat ∧
    slept (world m') = 0 + 10 * Z.of_nat retries + 120 * pauses 3 2.
Proof.
  apply (run_finishes BatchSamples.read 2 3 BatchSamples.ids 2 120 None
           (BatchSamples.machine BatchSamples.api_limited)).
  - intros n url Hn [H429 _]. destruct n as [|[|n]]; [lia|lia|].
    cbn in H429. unfold BatchSamples.api in H429.
    repeat case_decide; vm_compute in H429; discriminate.
  - lia.
  - lia.
  - lia.
Defined.

(** X21. A batch size of zero raises [ValueError] before any request. A
    negative batch size returns the empty table at once: no request, no
    pause, no checkpoint, whatever the ids. A negative pause raises
    [ValueError] at the first pause, after the first batch has been
    processed and its checkpoint written; the tables collected are not
    returned. *)
Theorem runner_parameters_out_of_range
    (extract : string → JSON → JSON → Result (list Player.t))
    (fuel : nat) (match_ids : list string) (batch_size pause_time : Z)
    (checkpoint_path : option string) (m : Machine) :
  let run := process_matches_batch extract fuel match_ids batch_size
               pause_time checkpoint_path m in
  (batch_size = 0 → run = (Some ValueError, m)) ∧
  (batch_size < 0 → run = (Some (Returned empty_frame), m)) ∧
  (∀ all_data w',
     0 < batch_size < Z.of_nat (length match_ids) → pause_time < 0 →
     process_batch extract fuel (take (Z.to_nat batch_size) match_ids) []
       (world m) = (Some all_data, w') →
     run = (Some ValueError,
            mkMachine w' (save_checkpoint checkpoint_path all_data
                            (disk m)))).
Proof.
  intros run. unfold run, process_matches_batch. split; [|split].
  - intros ->. unfold range. by rewrite decide_True by done.
  - intros Hb. unfold range. rewrite decide_False by lia.
    by rewrite range_len_negative by done.
  - intros a w' [Hb Hlen] Hp Hall. rewrite range_positive by lia.
    destruct (range_len (Z.of_nat (length match_ids)) batch_size)
      as [|C] eqn:EC.
    { assert (¬ (0 < range_len (Z.of_nat (length match_ids))
                       batch_size)%nat) as H0 by lia.
      rewrite range_len_spec in H0 by done. lia. }
    cbn [seq map batches].
    change (drop (Z.to_nat (Z.of_nat 0 * batch_size)) match_ids)
      with match_ids.
    rewrite Hall. rewrite decide_True by lia.
    by rewrite decide_True by done.
Qed.

Lemma runner_parameters_out_of_range_witness :
  process_matches_batch BatchSamples.read 1 BatchSamples.ids 2 (-1)
    (Some "partial.csv") (BatchSamples.machine BatchSamples.api)
  = (Some ValueError,
     mkMachine
       (mkWorld BatchSamples.api
          [match_url "NA1_1"; timeline_url "NA1_1";
           match_url "NA1_2"; timeline_url "NA1_2"] 0)
       (save_checkpoint (Some "partial.csv") [BatchSamples.ten_rows] ∅)).
Proof.
  destruct (runner_parameters_out_of_range BatchSamples.read 1
              BatchSamples.ids 2 (-1) (Some "partial.csv")
              (BatchSamples.machine BatchSamples.api)) as (_ & _ & Hneg).
  apply Hneg.
  - cbn. lia.
  - lia.
  - vm_compute. reflexivity.
Defined.

(** X22. Every row of a returned table was extracted from two payloads
    fetched in this run for one of the listed ids: the body of a 200 reply
    to the request for the summary, and the body of a later 200 reply to
    the request for the timeline of the same id, both of them dicts with
    the key ['info']. *)
Theorem rows_come_from_fetched_pairs
    (extract : string → JSON → JSON → Result (list Player.t))
    (fuel : nat) (match_ids : list string) (batch_size pause_time : Z)
    (checkpoint_path : option string) (m m' : Machine) (df : DataFrame)
    (row : Z * Player.t) :
  process_matches_batch extract fuel match_ids batch_size pause_time
    checkpoint_path m = (Some (Returned df), m') →
  row ∈ rows df →
  ∃ match_id match_data timeline_data table,
    match_id ∈ match_ids ∧
    fetched_pair (world m') (length (sent (world m))) match_id
      match_data timeline_data ∧
    has_info match_data ∧ has_info timeline_data ∧
    extract match_id match_data timeline_data = Ok table ∧
    row.2 ∈ table.
Proof.
  intros Hrun Hrow.
  apply run_returned in Hrun
    as (a & w' & [(_ & -> & _)|[_ Hall]] & -> & Hw & _).
  { by apply elem_of_nil in Hrow. }
  apply process_batch_provenance in Hall as (_ & new & -> & Hnew).
  cbn [app] in Hrow.
  assert (Hin : row.2 ∈ concat new).
  { rewrite <- concat_ignore_index_rows. apply elem_of_map. by exists row. }
  apply elem_of_concat in Hin as (table & Hrt & Htable).
  rewrite Forall_forall in Hnew.
  destruct (Hnew table Htable) as (id & md & td & Hid & Hp & Hm & Ht & Hex).
  exists id, md, td, table. split; [done|].
  split.
  { rewrite Hw. destruct Hp as (i & j & Hp). by exists i, j. }
  split; [by apply with_info_has_info|].
  split; [by apply with_info_has_info|]. done.
Qed.

Lemma rows_come_from_fetched_pairs_witness :
  ∃ match_id match_data timeline_data table,
    match_id ∈ BatchSamples.ids ∧
    fetched_pair
      (world (process_matches_batch BatchSamples.read 1 BatchSamples.ids 2
                120 None (BatchSamples.machine BatchSamples.api)).2)
      0 match_id match_data timeline_data ∧
    has_info match_data ∧ has_info timeline_data ∧
    BatchSamples.read match_id match_data timeline_data = Ok table ∧
    BatchSamples.row_of 1 100 "TOP" ∈ table.
Proof.
  apply (rows_come_from_fetched_pairs BatchSamples.read 1 BatchSamples.ids
           2 120 None (BatchSamples.machine BatchSamples.api)
           (process_matches_batch BatchSamples.read 1 BatchSamples.ids 2
              120 None (BatchSamples.machine BatchSamples.api)).2
           BatchSamples.returned (0, BatchSamples.row_of 1 100 "TOP")).
  - vm_compute. reflexivity.
  - apply (list_elem_of_lookup_2 _ 0%nat). vm_compute. reflexivity.
Defined.

(** X23. A table the batch runner returns carries the default index, so
    the transforms need no assumption on its labels: in every role group
    of exactly two rows, a row sits at the position its label names and
    the two outputs sum to [0.0]. When the source column is an [int64]
    column and the two values differ by at most 2^53, the first row gets
    half of its lead over the second, as a number. *)
Theorem transforms_on_a_returned_table
    (extract : string → JSON → JSON → Result (list Player.t))
    (fuel : nat) (match_ids : list string) (batch_size pause_time : Z)
    (checkpoint_path : option string) (m m' : Machine) (df : DataFrame)
    (t : Transform) (σ : gmap positive DataFrame) (players : positive)
    (mid k : string) (p1 p2 : Z * Player.t) :
  process_matches_batch extract fuel match_ids batch_size pause_time
    checkpoint_path m = (Some (Returned df), m') →
  σ !! players = Some df →
  role_group mid k (rows df) = [p1; p2] →
  ∃ players' σ' df' out1 out2,
    run t players σ = Some (players', σ') ∧
    σ' !! players' = Some df' ∧
    rows df !! Z.to_nat p1.1 = Some p1 ∧
    rows df !! Z.to_nat p2.1 = Some p2 ∧
    cell (output_column t) (Z.to_nat p1.1) df' = Some out1 ∧
    cell (output_column t) (Z.to_nat p2.1) df' = Some out2 ∧
    feq (fadd out1 out2) fzero = true ∧
    (int64_column (value_column t) (rows df) →
     Z.abs (value_column t p1.2 - value_column t p2.2) ≤ 2 ^ 53 →
     (real out1 == (value_column t p1.2 - value_column t p2.2) # 2)%Q ∧
     (real out2 == (value_column t p2.2 - value_column t p1.2) # 2)%Q).
Proof.
  intros Hrun Hdf Hg.
  apply run_tables in Hrun as (a & _ & -> & _).
  pose proof (concat_ignore_index_labels a) as Hnd.
  assert (Hin : ∀ p, p ∈ [p1; p2] → p ∈ rows (concat_ignore_index a)).
  { intros p Hp. rewrite <- Hg in Hp.
    by apply role_group_elem in Hp as (_ & _ & ?). }
  pose proof (concat_ignore_index_position a p1 (Hin p1 ltac:(by left)))
    as Hi.
  pose proof (concat_ignore_index_position a p2
                (Hin p2 ltac:(apply elem_of_cons; right; by left))) as Hj.
  destruct (run_cells t σ players _ Hdf)
    as (players' & σ' & df' & Hrun' & Hdf' & Hcell).
  destruct (written_paired (value_column t) _ mid k p1 p2 Hnd Hg)
    as [H1 H2].
  destruct (pair_outputs (value_column t p1.2) (value_column t p2.2))
    as [Hsum Hhalf].
  eexists players', σ', df', _, _.
  split; [exact Hrun'|]. split; [exact Hdf'|].
  split; [exact Hi|]. split; [exact Hj|].
  split; [by rewrite Hcell, Hi|]. split; [by rewrite Hcell, Hj|].
  rewrite H1, H2. split; [by rewrite Hsum|].
  intros _ Hb. by apply Hhalf.
Qed.

(** The two top laners of a returned table, with 4100 and 4600 gold, get
    -250.0 and +250.0. *)
Lemma transforms_on_a_returned_table_witness :
  ∃ players' σ' df' out1 out2,
    role_gold_diff 1%positive {[ 1%positive := BatchSamples.returned ]}
      = Some (players', σ') ∧
    σ' !! players' = Some df' ∧
    cell "roleGoldDiff" 0 df' = Some out1 ∧
    cell "roleGoldDiff" 5 df' = Some out2 ∧
    feq (fadd out1 out2) fzero = true ∧
    (real out1 == (4100 - 4600) # 2)%Q ∧
    (real out2 == (4600 - 4100) # 2)%Q.
Proof.
  destruct (transforms_on_a_returned_table BatchSamples.read 1
              BatchSamples.ids 2 120 (Some "partial.csv")
              (BatchSamples.machine BatchSamples.api)
              (process_matches_batch BatchSamples.read 1 BatchSamples.ids 2
                 120 (Some "partial.csv")
                 (BatchSamples.machine BatchSamples.api)).2
              BatchSamples.returned Gold
              {[ 1%positive := BatchSamples.returned ]} 1%positive
              "NA1_1" "TOP"
              (0, BatchSamples.row_of 1 100 "TOP")
              (5, BatchSamples.row_of 6 200 "TOP"))
    as (players' & σ' & df' & out1 & out2 & Hrun & Hdf' & _ & _ & H1 & H2
        & Hsum & Hhalf).
  - vm_compute. reflexivity.
  - reflexivity.
  - vm_compute. reflexivity.
  - destruct Hhalf as [Hr1 Hr2].
    + refine (bool_decide_unpack _ _). vm_compute. exact I.
    + vm_compute. discriminate.
    + exists players', σ', df', out1, out2. done.
Defined.

(** X24. With [get_14_min_stats] as the extractor, every row of a returned
    table comes from a pair of payloads fetched for a listed id whose
    summary is in queue 420 and not on a patch starting with 15.9, and
    whose timeline has more than 14 frames; the row carries the matchId of
    that summary, and its position is never UTILITY. *)
Theorem returned_rows_pass_the_filters
    (match_of : JSON → MatchData) (timeline_of : JSON → Timeline)
    (fuel : nat) (match_ids : list string) (batch_size pause_time : Z)
    (checkpoint_path : option string) (m m' : Machine) (df : DataFrame)
    (row : Z * Player.t) :
  process_matches_batch (extract_typed match_of timeline_of) fuel match_ids
    batch_size pause_time checkpoint_path m = (Some (Returned df), m') →
  row ∈ rows df →
  ∃ match_id match_data timeline_data fs,
    match_id ∈ match_ids ∧
    fetched_pair (world m') (length (sent (world m))) match_id
      match_data timeline_data ∧
    queueId (match_of match_data) = Some 420 ∧
    String.prefix "15.9"
      (default "" (gameVersion (match_of match_data))) = false ∧
    frames (timeline_of timeline_data) = Some fs ∧
    (14 < length fs)%nat ∧
    Player.match_id row.2 = matchId (match_of match_data) ∧
    Player.teamPosition row.2 ≠ "UTILITY".
Proof.
  intros Hrun Hrow.
  apply run_returned in Hrun
    as (a & w' & [(_ & -> & _)|[_ Hall]] & -> & Hw & _).
  { by apply elem_of_nil in Hrow. }
  apply process_batch_provenance in Hall as (_ & new & -> & Hnew).
  cbn [app] in Hrow.
  assert (Hin : row.2 ∈ concat new).
  { rewrite <- concat_ignore_index_rows. apply elem_of_map. by exists row. }
  apply elem_of_concat in Hin as (table & Hrt & Htable).
  rewrite Forall_forall in Hnew.
  destruct (Hnew table Htable) as (id & md & td & Hid & Hp & _ & _ & Hex).
  unfold extract_typed in Hex.
  apply stats_Ok_inv in Hex
    as [->|(fs & pfs & Hfs & (Hpatch & Hqueue & f14 & H14 & _) & _ & _ & ->)].
  { by apply elem_of_nil in Hrt. }
  apply elem_of_map in Hrt as (joined & -> & _).
  exists id, md, td, fs. split; [done|].
  split.
  { rewrite Hw. destruct Hp as (i & j & Hp). by exists i, j. }
  do 3 (split; [done|]).
  split; [by apply lookup_lt_Some in H14|].
  split; [done|].
  cbn. by destruct (decide (Summary.teamPosition joined.1 = "UTILITY")).
Qed.

Lemma returned_rows_pass_the_filters_witness :
  ∃ match_id match_data timeline_data fs,
    match_id ∈ BatchSamples.ids ∧
    fetched_pair
      (world (process_matches_batch BatchSamples.read 1 BatchSamples.ids 2
                120 None (BatchSamples.machine BatchSamples.api)).2)
      0 match_id match_data timeline_data ∧
    queueId Samples.ranked = Some 420 ∧
    String.prefix "15.9" (default "" (gameVersion Samples.ranked)) = false ∧
    frames Samples.timeline_full = Some fs ∧
    (14 < length fs)%nat ∧
    Player.match_id (BatchSamples.row_of 6 200 "TOP") = "NA1_1" ∧
    Player.teamPosition (BatchSamples.row_of 6 200 "TOP") ≠ "UTILITY".
Proof.
  apply (returned_rows_pass_the_filters (λ _, Samples.ranked)
           (λ _, Samples.timeline_full) 1 BatchSamples.ids
           2 120 None (BatchSamples.machine BatchSamples.api)
           (process_matches_batch BatchSamples.read 1 BatchSamples.ids 2
              120 None (BatchSamples.machine BatchSamples.api)).2
           BatchSamples.returned (5, BatchSamples.row_of 6 200 "TOP")).
  - vm_compute. reflexivity.
  - apply (list_elem_of_lookup_2 _ 5%nat). vm_compute. reflexivity.
Defined.

End runner_results.

(** * The apex-tier collectors: the loops *)

Section dropping_duplicates.
Import Http Apex.

(** *** Dropping duplicates *)

Lemma keep_first_elem {A} (key : A → string) l : ∀ seen x,
  x ∈ keep_first key seen l → x ∈ l ∧ key x ∉ seen.
Proof.
  induction l as [|y l IH]; intros seen x; cbn [keep_first].
  { by intros ?%elem_of_nil. }
  destruct (decide (key y ∈ seen)) as [Hy|Hy].
  - intros [Hx Hs]%IH. split; [by right|done].
  - intros [->|[Hx Hs]%IH]%elem_of_cons; [split; [by left|done]|].
    split; [by right|]. intros Hin. apply Hs. by right.
Qed.

Lemma keep_first_NoDup {A} (key : A → string) l : ∀ seen,
  NoDup (map key (keep_first key seen l)).
Proof.
  induction l as [|y l IH]; intros seen; cbn [keep_first].
  { constructor. }
  destruct (decide (key y ∈ seen)) as [Hy|Hy]; [apply IH|].
  cbn [map]. constructor; [|apply IH].
  intros (x & Hk & [_ Hs]%keep_first_elem)%elem_of_map.
  apply Hs. rewrite <- Hk. by left.
Qed.

Lemma keep_first_complete {A} (key : A → string) l : ∀ seen k,
  k ∈ map key l → k ∉ seen → k ∈ map key (keep_first key seen l).
Proof.
  induction l as [|y l IH]; intros seen k; cbn [keep_first map].
  { by intros ?%elem_of_nil. }
  intros [->|Hk]%elem_of_cons Hs.
  - rewrite decide_False by done. by left.
  - destruct (decide (key y ∈ seen)) as [Hy|Hy]; [by apply IH|].
    cbn [map]. destruct (decide (k = key y)) as [->|Hne]; [by left|].
    right. apply IH; [done|]. intros Hin.
    apply elem_of_cons in Hin as [?|?]; done.
Qed.

Lemma keep_first_sublist {A} (key : A → string) l : ∀ seen,
  keep_first key seen l `sublist_of` l.
Proof.
  induction l as [|y l IH]; intros seen; cbn [keep_first]; [done|].
  destruct (decide (key y ∈ seen)).
  - by apply sublist_cons.
  - by apply sublist_skip.
Qed.

(** Under the default index a row that is kept is the first one with its
    value, and its label is its position. *)
Lemma keep_first_labels (l : list string) : ∀ (n : nat) seen i id,
  (i, id) ∈ keep_first snd seen (imap (λ j x, ((n + j)%nat, x)) l) ↔
  ∃ i', i = (n + i')%nat ∧ l !! i' = Some id ∧ (id ∉ seen) ∧
        ∀ j, (j < i')%nat → l !! j ≠ Some id.
Proof.
  induction l as [|x l IH]; intros n seen i id.
  { cbn. split; [by intros ?%elem_of_nil|by intros (? & _ & ? & _)]. }
  cbn [imap keep_first snd].
  assert (Hshift : imap ((λ j y, ((n + j)%nat, y)) ∘ S) l
                   = imap (λ j y, ((S n + j)%nat, y)) l).
  { apply imap_ext. intros j y _. cbn. f_equal. lia. }
  rewrite Hshift.
  destruct (decide (x ∈ seen)) as [Hx|Hx].
  - rewrite IH. split.
    + intros (i' & -> & Hi & Hs & Hfirst).
      exists (S i'). split; [lia|]. split; [done|]. split; [done|].
      intros [|j] Hj; cbn.
      * intros [= ->]. done.
      * apply Hfirst. lia.
    + intros ([|i'] & -> & Hi & Hs & Hfirst).
      { cbn in Hi. injection Hi as ->. done. }
      exists i'. split; [lia|]. split; [done|]. split; [done|].
      intros j Hj. apply (Hfirst (S j)). lia.
  - rewrite elem_of_cons, IH. split.
    + intros [[= -> ->]|(i' & -> & Hi & Hs & Hfirst)].
      { exists 0%nat. split; [lia|]. split; [done|]. split; [done|].
        intros j Hj. lia. }
      exists (S i'). split; [lia|]. split; [done|].
      split; [by intros ?; apply Hs; right|].
      intros [|j] Hj; cbn.
      * intros [= ->]. apply Hs. by left.
      * apply Hfirst. lia.
    + intros ([|i'] & -> & Hi & Hs & Hfirst).
      { cbn in Hi. injection Hi as ->. left. by rewrite Nat.add_0_r. }
      right. exists i'. split; [lia|]. split; [done|].
      split.
      * intros [->|?]%elem_of_cons; [|done].
        by apply (Hfirst 0%nat); [lia|].
      * intros j Hj. apply (Hfirst (S j)). lia.
Qed.

End dropping_duplicates.

Section match_id_loop.
Import Http Apex.
Variable match_id_frame : JSON → option (list string).

(** *** The attempts for one puuid *)

Lemma attempts_step url delay left l w :
  0 ≤ delay → status_code (reply w url 0) = 429 →
  attempts match_id_frame url delay (S left) l w =
  attempts match_id_frame url delay left l (later w url 1 delay).
Proof.
  intros Hd H429. cbn [attempts]. rewrite requests_get_later, H429.
  cbn [Z.eqb Pos.eqb]. rewrite decide_False by lia.
  by rewrite time_sleep_later.
Qed.

Lemma attempts_429s url delay k : ∀ left l w,
  0 ≤ delay →
  (∀ i, (i < k)%nat → status_code (reply w url i) = 429) →
  attempts match_id_frame url delay (k + left) l w =
  attempts match_id_frame url delay left l
    (later w url k (delay * Z.of_nat k)).
Proof.
  induction k as [|k IH]; intros left l w Hd Hk.
  - cbn [Nat.add]. by rewrite Z.mul_0_r, later_0.
  - change (S k + left)%nat with (S (k + left)).
    rewrite attempts_step by (done || apply Hk; lia).
    rewrite IH; [|done|].
    + rewrite later_later. do 2 f_equal. lia.
    + intros i Hi. rewrite reply_later. apply Hk. lia.
Qed.

(** Whatever the replies: at most [left] requests for the URL, and what
    was appended is the frame of a 200 reply. *)
Lemma attempts_inv url delay : ∀ left l w r w',
  attempts match_id_frame url delay left l w = (r, w') →
  ∃ k naps, (k ≤ left)%nat ∧ w' = later w url k naps ∧
    match r with
    | Done l' =>
        l' = l ∨
        ∃ body ids, l' = l ++ [ids] ∧ (0 < k)%nat ∧
          reply w url (pred k) = mkResponse 200 (Some body) ∧
          match_id_frame body = Some ids
    | Failed _ => True
    end.
Proof.
  induction left as [|left IH]; intros l w r w'.
  { intros [= <- <-]. exists 0%nat, 0. split; [done|].
    split; [by rewrite later_0|by left]. }
  cbn [attempts]. rewrite requests_get_later.
  destruct (reply w url 0) as [status body] eqn:Hreply.
  cbn [status_code json].
  destruct (Z.eqb_spec status 200) as [->|H200].
  { destruct body as [data|].
    2: { intros [= <- <-]. exists 1%nat, 0. split; [lia|]. done. }
    destruct (match_id_frame data) as [ids|] eqn:Hids.
    2: { intros [= <- <-]. exists 1%nat, 0. split; [lia|]. done. }
    intros [= <- <-]. exists 1%nat, 0. split; [lia|]. split; [done|].
    right. exists data, ids. split; [done|]. split; [lia|]. done. }
  destruct (status =? 429).
  2: { intros [= <- <-]. exists 1%nat, 0. split; [lia|].
       split; [done|by left]. }
  destruct (decide (delay < 0)).
  { intros [= <- <-]. exists 1%nat, 0. split; [lia|]. done. }
  rewrite time_sleep_later. intros H.
  apply IH in H as (k & naps & Hk & -> & Hr).
  exists (S k), (0 + delay + naps). split; [lia|].
  split; [by rewrite later_later|].
  destruct r as [l'|e]; [|done].
  destruct Hr as [->|(data & ids & -> & Hpos & Hrep & Hids)]; [by left|].
  right. exists data, ids. split; [done|]. split; [lia|].
  split; [|done]. rewrite reply_later in Hrep.
  replace (pred (S k)) with (1 + pred k)%nat by lia. done.
Qed.

Lemma answered_extends w w' first first' url body :
  Batch.extends w w' → (first' ≤ first)%nat →
  answered w first url body → answered w' first' url body.
Proof.
  intros [Hn Hs] Hle (i & Hi & Hsent & Hnet).
  exists i. rewrite Hn. split; [lia|].
  split; [by eapply prefix_lookup_Some|done].
Qed.

Lemma collect_inv region delay max_retries puuids : ∀ l w l' w',
  collect match_id_frame region delay max_retries puuids l w
    = (Done l', w') →
  Batch.extends w w' ∧
  (requests_made w w' ≤ Z.to_nat max_retries * length puuids)%nat ∧
  ∃ new, l' = l ++ new ∧
    Forall (λ ids, ∃ puuid body,
              puuid ∈ puuids ∧
              answered w' (length (sent w)) (ids_url region puuid) body ∧
              match_id_frame body = Some ids) new.
Proof.
  induction puuids as [|puuid puuids IH]; intros l w l' w'.
  { intros [= <- <-]. split; [by split|]. split.
    - unfold requests_made. lia.
    - exists []. by rewrite app_nil_r. }
  cbn [collect].
  destruct (attempts match_id_frame (ids_url region puuid) delay
              (Z.to_nat max_retries) l w) as [[l1|e] w1] eqn:E1; [|done].
  intros E2.
  apply attempts_inv in E1 as (k & naps & Hk & -> & H1).
  apply IH in E2 as (X2 & Hreq & n2 & -> & H2).
  set (w1 := later w (ids_url region puuid) k naps) in *.
  assert (X1 : Batch.extends w w1) by apply extends_later.
  assert (Hlen : length (sent w1) = (length (sent w) + k)%nat).
  { unfold w1. cbn [later sent]. by rewrite length_app, length_replicate. }
  split; [destruct X1, X2; split; [congruence|by etrans]|].
  split.
  { unfold requests_made in *. cbn [length].
    pose proof (prefix_length _ _ (proj2 X2)). lia. }
  assert (H2' : Forall (λ ids, ∃ puuid0 body,
              puuid0 ∈ puuid :: puuids ∧
              answered w' (length (sent w)) (ids_url region puuid0) body ∧
              match_id_frame body = Some ids) n2).
  { eapply Forall_impl; [exact H2|].
    intros ids (p & body & Hp & Ha & Hf). exists p, body.
    split; [by right|]. split; [|done].
    eapply answered_extends; [by split| |exact Ha]. lia. }
  destruct H1 as [->|(body & ids & -> & Hpos & Hrep & Hids)].
  - by exists n2.
  - exists (ids :: n2). split; [by rewrite <- app_assoc|].
    constructor; [|done].
    exists puuid, body. split; [by left|]. split; [|done].
    eapply answered_extends; [exact X2|done|].
    exists (length (sent w) + pred k)%nat. split; [lia|].
    split; [|exact Hrep].
    unfold w1. cbn [later sent]. rewrite lookup_app_r by lia.
    apply lookup_replicate_2. lia.
Qed.

(** A call that appends nothing has seen no 200. *)
Lemma attempts_quiet url delay : ∀ left l w l' w',
  attempts match_id_frame url delay left l w = (Done l', w') →
  length l' = length l →
  ∃ k naps, w' = later w url k naps ∧
    ∀ i, (i < k)%nat → status_code (reply w url i) ≠ 200.
Proof.
  induction left as [|left IH]; intros l w l' w'.
  { intros [= <- <-] _. exists 0%nat, 0. split; [by rewrite later_0|].
    intros i Hi. lia. }
  cbn [attempts]. rewrite requests_get_later.
  destruct (reply w url 0) as [status body] eqn:Hreply.
  cbn [status_code json].
  destruct (Z.eqb_spec status 200) as [->|H200].
  { destruct body as [data|]; [|done].
    destruct (match_id_frame data) as [ids|]; [|done].
    intros [= <- <-] Hlen. rewrite length_app in Hlen. cbn in Hlen. lia. }
  destruct (status =? 429).
  2: { intros [= <- <-] _. exists 1%nat, 0. split; [done|].
       intros i Hi. assert (i = 0)%nat as -> by lia. by rewrite Hreply. }
  destruct (decide (delay < 0)); [done|].
  rewrite time_sleep_later. intros H Hlen.
  apply IH in H as (k & naps & -> & Hq); [|done].
  exists (S k), (0 + delay + naps). split; [by rewrite later_later|].
  intros [|i] Hi; [by rewrite Hreply|].
  specialize (Hq i ltac:(lia)). by rewrite reply_later in Hq.
Qed.

Lemma collect_quiet region delay max_retries puuids : ∀ l w l' w',
  collect match_id_frame region delay max_retries puuids l w
    = (Done l', w') →
  length l' = length l →
  ¬ some_200 w' (length (sent w)).
Proof.
  induction puuids as [|puuid puuids IH]; intros l w l' w'.
  { intros [= <- <-] _ (i & url & Hi & Hsent & _).
    apply lookup_lt_Some in Hsent. lia. }
  cbn [collect].
  destruct (attempts match_id_frame (ids_url region puuid) delay
              (Z.to_nat max_retries) l w) as [[l1|e] w1] eqn:E1; [|done].
  intros E2 Hlen.
  pose proof E1 as E1'.
  apply attempts_inv in E1' as (k0 & naps0 & _ & _ & H1).
  pose proof E2 as E2'. apply collect_inv in E2' as (X2 & _ & n2 & -> & _).
  assert (Hl1 : length l1 = length l).
  { rewrite length_app in Hlen.
    destruct H1 as [->|(body & ids & -> & _)]; [done|].
    rewrite length_app in Hlen. cbn in Hlen. lia. }
  assert (Hl' : length (l1 ++ n2) = length l1) by lia.
  apply attempts_quiet in E1 as (k & naps & -> & Hq); [|done].
  pose proof (IH _ _ _ _ E2 Hl') as Hrest.
  set (w1 := later w (ids_url region puuid) k naps) in *.
  assert (Hlen1 : length (sent w1) = (length (sent w) + k)%nat).
  { unfold w1. cbn [later sent]. by rewrite length_app, length_replicate. }
  intros (i & url & Hi & Hsent & H200).
  destruct (decide (i < length (sent w1))%nat) as [Hlt|Hge].
  - assert (Hurl : sent w1 !! i = Some (ids_url region puuid)).
    { unfold w1. cbn [later sent]. rewrite lookup_app_r by lia.
      apply lookup_replicate_2. lia. }
    destruct X2 as [Hnet Hpre].
    pose proof (prefix_lookup_Some _ _ _ _ Hurl Hpre) as Hsent'.
    rewrite Hsent in Hsent'. injection Hsent' as ->.
    apply (Hq (i - length (sent w))%nat); [lia|].
    unfold reply. rewrite <- H200, Hnet. unfold w1. cbn [later net].
    do 3 f_equal. lia.
  - apply Hrest. exists i, url. split; [lia|]. done.
Qed.

End match_id_loop.

Section tier_loop.
Import Http Apex.
Variable json_normalize : JSON → option Entries.

Lemma tiers_loop_inv : ∀ endpoints all_entries w r w',
  tiers_loop json_normalize endpoints all_entries w = (r, w') →
  ∃ k, (k ≤ length endpoints)%nat ∧
    w' = mkWorld (net w) (sent w ++ take k (map snd endpoints)) (slept w) ∧
    match r with
    | Done all' =>
        k = length endpoints ∧
        ∃ new, all' = all_entries ++ new ∧
          ∀ e, e ∈ new ↔ ∃ i, tier_frame json_normalize w endpoints i e
    | Failed _ => True
    end.
Proof.
  induction endpoints as [|tier endpoints IH]; intros all_entries w r w'.
  { intros [= <- <-]. exists 0%nat. split; [done|].
    split; [destruct w; cbn; by rewrite app_nil_r|].
    split; [done|]. exists []. split; [by rewrite app_nil_r|].
    intros e. split; [by intros ?%elem_of_nil|].
    by intros (i & t & ? & ? & ? & _). }
  cbn [tiers_loop]. unfold requests_get.
  set (w1 := {| net := net w; sent := sent w ++ [tier.2]; slept := slept w |}).
  destruct (net w (length (sent w)) tier.2) as [status body] eqn:Hreply.
  cbn [status_code json].
  assert (Hshift : ∀ i e, tier_frame json_normalize w1 endpoints i e ↔
                          tier_frame json_normalize w (tier :: endpoints) (S i) e).
  { intros i e. unfold tier_frame, w1. cbn [net sent lookup list_lookup].
    rewrite length_app. cbn [length].
    by replace (length (sent w) + 1 + i)%nat
      with (length (sent w) + S i)%nat by lia. }
  assert (Hrest : ∀ all1 (new0 : list Entries),
    (∀ e, e ∈ new0 ↔ tier_frame json_normalize w (tier :: endpoints) 0 e) →
    tiers_loop json_normalize endpoints all1 w1 = (r, w') →
    all1 = all_entries ++ new0 →
    ∃ k, (k ≤ length (tier :: endpoints))%nat ∧
      w' = mkWorld (net w)
             (sent w ++ take k (map snd (tier :: endpoints))) (slept w) ∧
      match r with
      | Done all' =>
          k = length (tier :: endpoints) ∧
          ∃ new, all' = all_entries ++ new ∧
            ∀ e, e ∈ new ↔ ∃ i, tier_frame json_normalize w (tier :: endpoints) i e
      | Failed _ => True
      end).
  { intros all1 new0 Hnew0 Hloop ->.
    apply IH in Hloop as (k & Hk & -> & Hr).
    exists (S k). split; [cbn [length]; lia|].
    split; [unfold w1; cbn; by rewrite <- app_assoc|].
    destruct r as [all'|e]; [|done].
    destruct Hr as (-> & new & -> & Hnew).
    split; [done|]. exists (new0 ++ new).
    split; [by rewrite app_assoc|].
    intros e. rewrite elem_of_app, Hnew0, Hnew. split.
    - intros [H0|[i Hi]]; [by exists 0%nat|].
      exists (S i). by apply Hshift.
    - intros ([|i] & Hi); [by left|]. right. exists i. by apply Hshift. }
  destruct (Z.eqb_spec status 200) as [->|H200].
  2: { intros Hloop. apply (Hrest all_entries []); [|done|by rewrite app_nil_r].
       intros e. split; [by intros ?%elem_of_nil|].
       intros (t & b & raw & [= <-] & Hnet & _).
       rewrite Nat.add_0_r, Hreply in Hnet. by injection Hnet. }
  assert (Hfail : ∀ err : error, (Failed err, w1) = (r, w') →
    ∃ k, (k ≤ length (tier :: endpoints))%nat ∧
      w' = mkWorld (net w)
             (sent w ++ take k (map snd (tier :: endpoints))) (slept w) ∧
      match r with
      | Done all' =>
          k = length (tier :: endpoints) ∧
          ∃ new, all' = all_entries ++ new ∧
            ∀ e, e ∈ new ↔ ∃ i, tier_frame json_normalize w (tier :: endpoints) i e
      | Failed _ => True
      end).
  { intros err [= <- <-]. exists 1%nat. split; [cbn [length]; lia|]. done. }
  destruct body as [data|]; [|apply Hfail].
  destruct (get_entries data) as [raw|err] eqn:Hraw; [|apply Hfail].
  destruct (json_normalize raw) as [entries|] eqn:Hnorm; [|apply Hfail].
  intros Hloop.
  apply (Hrest (all_entries ++ [entries]) [entries]); [|done|done].
  intros e. rewrite list_elem_of_singleton. split.
  - intros ->. exists tier, data, raw. rewrite Nat.add_0_r. done.
  - intros (t & b & raw' & [= <-] & Hnet & Hraw' & Hnorm').
    rewrite Nat.add_0_r, Hreply in Hnet. injection Hnet as <-.
    congruence.
Qed.

(** When every 200 carries entries that pandas tabulates, the loop goes
    through all the tiers. *)
Lemma tiers_loop_total : ∀ endpoints all_entries w,
  (∀ i tier body, endpoints !! i = Some tier →
     net w (length (sent w) + i) tier.2 = mkResponse 200 body →
     ∃ e, tier_frame json_normalize w endpoints i e) →
  ∃ all', (tiers_loop json_normalize endpoints all_entries w).1 = Done all'.
Proof.
  induction endpoints as [|tier endpoints IH]; intros all_entries w Hok.
  { by exists all_entries. }
  cbn [tiers_loop]. unfold requests_get.
  set (w1 := {| net := net w; sent := sent w ++ [tier.2]; slept := slept w |}).
  assert (Hok1 : ∀ i t body, endpoints !! i = Some t →
     net w1 (length (sent w1) + i) t.2 = mkResponse 200 body →
     ∃ e, tier_frame json_normalize w1 endpoints i e).
  { intros i t body Ht Hnet. unfold w1 in *. cbn [net sent] in *.
    rewrite length_app in *. cbn [length] in *.
    replace (length (sent w) + 1 + i)%nat
      with (length (sent w) + S i)%nat in * by lia.
    destruct (Hok (S i) t body Ht Hnet) as (e & t' & b & raw & H1 & H2 & H3).
    exists e, t', b, raw. unfold tier_frame. cbn [net sent].
    rewrite length_app. cbn [length].
    replace (length (sent w) + 1 + i)%nat
      with (length (sent w) + S i)%nat by lia. done. }
  destruct (net w (length (sent w)) tier.2) as [status body] eqn:Hreply.
  cbn [status_code json].
  destruct (Z.eqb_spec status 200) as [->|H200]; [|by apply IH].
  destruct (Hok 0%nat tier body eq_refl) as (e & t & b & raw & Ht & Hnet & Hraw & Hnorm).
  { by rewrite Nat.add_0_r. }
  injection Ht as <-. rewrite Nat.add_0_r, Hreply in Hnet.
  injection Hnet as ->. rewrite Hraw, Hnorm. by apply IH.
Qed.

End tier_loop.

(** * The apex-tier collectors: properties *)

Section apex_results.
Import Http Apex.

Lemma frame_of_collect match_id_frame sample puuids region delay
    max_retries w match_id_list w' :
  collect match_id_frame region delay max_retries puuids [] w
    = (Done match_id_list, w') →
  get_apex_tiers_match_ids match_id_frame sample puuids region delay
    max_retries false w =
  (Done (Frame (drop_duplicates
                  (imap (λ i x, (i, x)) (concat match_id_list)))), w').
Proof.
  intros Hc. unfold get_apex_tiers_match_ids. rewrite Hc.
  by destruct match_id_list.
Qed.

Lemma frame_inv match_id_frame sample puuids region delay max_retries
    return_samples w r w' :
  get_apex_tiers_match_ids match_id_frame sample puuids region delay
    max_retries return_samples w = (Done r, w') →
  ∃ match_id_list,
    collect match_id_frame region delay max_retries puuids [] w
      = (Done match_id_list, w').
Proof.
  unfold get_apex_tiers_match_ids.
  destruct (collect _ _ _ _ _ _ _) as [[l|e] w1]; [|done].
  intros H. exists l. f_equal.
  destruct l; [by injection H|]. destruct return_samples; by injection H.
Qed.

Lemma iloc_app {A} (a b c : nat) (l : list A) :
  (a ≤ b ≤ c)%nat → iloc a b l ++ iloc b c l = iloc a c l.
Proof.
  intros Habc. unfold iloc.
  replace (drop b l) with (drop (b - a) (drop a l))
    by (rewrite drop_drop; f_equal; lia).
  rewrite take_take_drop. f_equal. lia.
Qed.

Lemma iloc_length {A} (a b : nat) (l : list A) :
  (length (iloc a b l) ≤ b - a)%nat.
Proof. unfold iloc. rewrite length_take. lia. Qed.

Lemma tier_frame_functional json_normalize w endpoints i e e' :
  tier_frame json_normalize w endpoints i e →
  tier_frame json_normalize w endpoints i e' → e = e'.
Proof.
  intros (t & b & raw & Ht & Hnet & Hraw & He)
         (t' & b' & raw' & Ht' & Hnet' & Hraw' & He').
  congruence.
Qed.

Lemma unique_elem (col : list string) p : p ∈ unique col ↔ p ∈ col.
Proof.
  unfold unique. split.
  - by intros [? _]%keep_first_elem.
  - intros Hp.
    pose proof (keep_first_complete id col [] p) as H.
    rewrite !map_id in H. apply H; [done|]. by intros ?%elem_of_nil.
Qed.

Lemma unique_NoDup (col : list string) : NoDup (unique col).
Proof.
  pose proof (keep_first_NoDup id col []) as H. by rewrite map_id in H.
Qed.

Lemma dropna_elem (col : list (option string)) p :
  p ∈ dropna col ↔ Some p ∈ col.
Proof.
  unfold dropna. rewrite list_elem_of_omap. split.
  - intros (y & Hy & Heq). cbn in Heq. by subst y.
  - intros ?. by exists (Some p).
Qed.

Lemma combined_puuid_elem all_entries col p :
  combined_puuid all_entries = Ok col →
  Some p ∈ col ↔
  ∃ e c, e ∈ all_entries ∧ puuid e = Some c ∧ Some p ∈ c.
Proof.
  unfold combined_puuid. case_bool_decide; [done|]. intros [= <-].
  rewrite elem_of_concat. split.
  - intros (l & Hp & (e & -> & He)%elem_of_map).
    destruct (puuid e) as [c|] eqn:Hc; cbn in Hp.
    + by exists e, c.
    + by apply elem_of_replicate in Hp as [? _].
  - intros (e & c & He & Hc & Hp). exists c. split; [done|].
    apply elem_of_map. exists e. by rewrite Hc.
Qed.

(** The entries the loop has collected when the call returns or raises
    [KeyError]. *)
Lemma puuids_run json_normalize region w :
  ∃ k r,
    tiers_loop json_normalize (tier_endpoints region) [] w =
      (r, mkWorld (net w)
            (sent w ++ take k (map snd (tier_endpoints region)))
            (slept w)) ∧
    (k ≤ 3)%nat ∧
    match r with
    | Done all_entries =>
        k = 3%nat ∧
        ∀ e, e ∈ all_entries ↔
             ∃ i, tier_frame json_normalize w (tier_endpoints region) i e
    | Failed _ => True
    end.
Proof.
  destruct (tiers_loop json_normalize (tier_endpoints region) [] w)
    as [r w'] eqn:Hloop.
  apply tiers_loop_inv in Hloop as (k & Hk & -> & Hr).
  exists k, r. split; [done|]. split; [done|].
  destruct r as [all'|e]; [|done].
  destruct Hr as (-> & new & -> & Hnew). done.
Qed.

(** X25. The attempts for one player, with a delay that is not negative.
    After [k] replies with status 429 the loop has made [k] requests and
    slept [k] times. If these were all the attempts, the player is left
    out without an error, the last sleep having served nothing. Otherwise
    the next reply decides: a 200 appends the frame of its body, a 200
    whose body does not parse raises, and any other status gives the
    player up at once, without another attempt. *)
Theorem attempts_contract (match_id_frame : JSON → option (list string))
    (url : string) (delay : Z) (max_retries k : nat)
    (match_id_list : list (list string)) (w : World) :
  0 ≤ delay → (k ≤ max_retries)%nat →
  (∀ i, (i < k)%nat → status_code (reply w url i) = 429) →
  let resp := reply w url k in
  let run := attempts match_id_frame url delay max_retries match_id_list w in
  let w' := later w url (S k) (delay * Z.of_nat k) in
  (k = max_retries →
     run = (Done match_id_list, later w url k (delay * Z.of_nat k))) ∧
  ((k < max_retries)%nat →
     (∀ body ids, resp = mkResponse 200 (Some body) →
        match_id_frame body = Some ids →
        run = (Done (match_id_list ++ [ids]), w')) ∧
     (resp = mkResponse 200 None →
        run = (Failed (Builtin JSONDecodeError), w')) ∧
     (status_code resp ≠ 200 → status_code resp ≠ 429 →
        run = (Done match_id_list, w'))).
Proof.
  intros Hd Hk H429 resp run w'. split.
  - intros ->. unfold run.
    replace max_retries with (max_retries + 0)%nat at 1 by lia.
    by rewrite attempts_429s.
  - intros Hlt.
    assert (Hrun : run =
      attempts match_id_frame url delay (S (max_retries - S k))
        match_id_list (later w url k (delay * Z.of_nat k))).
    { unfold run.
      replace max_retries with (k + S (max_retries - S k))%nat at 1 by lia.
      by rewrite attempts_429s. }
    assert (Hresp : reply (later w url k (delay * Z.of_nat k)) url 0 = resp).
    { unfold resp. by rewrite reply_later, Nat.add_0_r. }
    assert (Hw' : later (later w url k (delay * Z.of_nat k)) url 1 0 = w').
    { rewrite later_later. unfold w'. f_equal; lia. }
    rewrite Hrun. cbn [attempts]. rewrite requests_get_later, Hresp, Hw'.
    split; [|split].
    + intros body ids -> Hids. cbn. by rewrite Hids.
    + by intros ->.
    + intros H200 H429'.
      destruct (Z.eqb_spec (status_code resp) 200); [done|].
      by destruct (Z.eqb_spec (status_code resp) 429).
Qed.

Lemma attempts_contract_witness :
  attempts ApexSamples.frame_of_strings (ids_url "americas" "p1") 10 5 []
    (Samples.start ApexSamples.ids_api)
  = (Done [["NA1_1"; "NA1_2"]],
     mkWorld ApexSamples.ids_api
       [ids_url "americas" "p1"; ids_url "americas" "p1"] 10).
Proof.
  assert (H429 : ∀ i, (i < 1)%nat →
            status_code (reply (Samples.start ApexSamples.ids_api)
                           (ids_url "americas" "p1") i) = 429).
  { intros [|i] Hi; [reflexivity|lia]. }
  destruct (attempts_contract ApexSamples.frame_of_strings
              (ids_url "americas" "p1") 10 5 1 []
              (Samples.start ApexSamples.ids_api)
              ltac:(lia) ltac:(lia) H429) as [_ Hnext].
  destruct (Hnext ltac:(lia)) as (H200 & _ & _).
  exact (H200 (JArr [JStr "NA1_1"; JStr "NA1_2"]) ["NA1_1"; "NA1_2"]
           eq_refl eq_refl).
Defined.

(** X26. Without samples the call returns the collected ids with the
    duplicates dropped: no id occurs twice, an id is returned exactly when
    one of the collected frames holds it, and the row that is kept is the
    first one with this id, under the label it had in the concatenation;
    the rows are not numbered anew. *)
Theorem duplicates_are_dropped
    (match_id_frame : JSON → option (list string))
    (sample : list (nat * string) → list (nat * string))
    (puuids : list string) (region : string) (delay max_retries : Z)
    (w w' : World) (match_id_list : list (list string)) :
  collect match_id_frame region delay max_retries puuids [] w
    = (Done match_id_list, w') →
  ∃ full_df,
    get_apex_tiers_match_ids match_id_frame sample puuids region delay
      max_retries false w = (Done (Frame full_df), w') ∧
    NoDup (map snd full_df) ∧
    (∀ id, id ∈ map snd full_df ↔ id ∈ concat match_id_list) ∧
    (∀ i id, (i, id) ∈ full_df ↔ first_at (concat match_id_list) i id).
Proof.
  intros Hc. eexists. split; [by apply frame_of_collect|].
  split; [apply keep_first_NoDup|].
  assert (Hrow : ∀ i id,
    (i, id) ∈ drop_duplicates (imap (λ i x, (i, x)) (concat match_id_list))
    ↔ first_at (concat match_id_list) i id).
  { intros i id. unfold drop_duplicates.
    rewrite (keep_first_labels (concat match_id_list) 0 [] i id).
    unfold first_at. split.
    - intros (i' & -> & Hi & _ & Hfirst). done.
    - intros [Hi Hfirst]. exists i. split; [done|]. split; [done|].
      split; [by intros ?%elem_of_nil|done]. }
  split; [|exact Hrow].
  intros id. split.
  - intros ([i id'] & -> & Hin)%elem_of_map.
    apply Hrow in Hin as [Hi _]. by eapply list_elem_of_lookup_2.
  - intros Hin. apply keep_first_complete; [|by intros ?%elem_of_nil].
    apply list_elem_of_lookup_1 in Hin as [i Hi].
    apply elem_of_map. exists (i, id). split; [done|].
    apply (list_elem_of_lookup_2 _ i). by rewrite list_lookup_imap, Hi.
Qed.

Lemma duplicates_are_dropped_witness :
  ∃ full_df,
    get_apex_tiers_match_ids ApexSamples.frame_of_strings reverse
      ApexSamples.players "americas" 10 5 false
      (Samples.start ApexSamples.ids_api)
    = (Done (Frame full_df),
       mkWorld ApexSamples.ids_api
         [ids_url "americas" "p1"; ids_url "americas" "p1";
          ids_url "americas" "p2"; ids_url "americas" "p3"] 10) ∧
    NoDup (map snd full_df) ∧
    (∀ id, id ∈ map snd full_df ↔
           id ∈ concat [["NA1_1"; "NA1_2"]; ["NA1_2"; "NA1_3"]]) ∧
    (∀ i id, (i, id) ∈ full_df ↔
             first_at (concat [["NA1_1"; "NA1_2"]; ["NA1_2"; "NA1_3"]])
               i id).
Proof.
  apply (duplicates_are_dropped ApexSamples.frame_of_strings reverse
           ApexSamples.players "americas" 10 5
           (Samples.start ApexSamples.ids_api)).
  vm_compute. reflexivity.
Defined.

(** X27. Every id of the returned frame is in the body of a 200 reply to
    a request of this call for the match ids of one of the listed players.
    The call makes at most [max_retries] requests for each player. *)
Theorem match_ids_come_from_listed_players
    (match_id_frame : JSON → option (list string))
    (sample : list (nat * string) → list (nat * string))
    (puuids : list string) (region : string) (delay max_retries : Z)
    (w w' : World) (full_df : list (nat * string)) :
  get_apex_tiers_match_ids match_id_frame sample puuids region delay
    max_retries false w = (Done (Frame full_df), w') →
  net w' = net w ∧
  (requests_made w w' ≤ Z.to_nat max_retries * length puuids)%nat ∧
  ∀ row, row ∈ full_df →
    ∃ puuid body ids,
      puuid ∈ puuids ∧
      answered w' (length (sent w)) (ids_url region puuid) body ∧
      match_id_frame body = Some ids ∧
      row.2 ∈ ids.
Proof.
  intros Hrun.
  destruct (frame_inv _ _ _ _ _ _ _ _ _ _ Hrun) as [l Hc].
  rewrite (frame_of_collect _ sample _ _ _ _ _ _ _ Hc) in Hrun.
  injection Hrun as <-.
  apply collect_inv in Hc as ([Hnet _] & Hreq & new & -> & Hnew).
  split; [done|]. split; [done|].
  intros row [Hrow _]%keep_first_elem.
  apply list_elem_of_lookup_1 in Hrow as [i Hi].
  rewrite list_lookup_imap in Hi.
  destruct (concat ([] ++ new) !! i) as [id|] eqn:Hid; [|done].
  injection Hi as <-. cbn [snd app] in *.
  apply list_elem_of_lookup_2 in Hid.
  apply elem_of_concat in Hid as (ids & Hin & Hids).
  rewrite Forall_forall in Hnew.
  destruct (Hnew ids Hids) as (puuid & body & Hp & Ha & Hf).
  by exists puuid, body, ids.
Qed.

Lemma match_ids_come_from_listed_players_witness :
  net (get_apex_tiers_match_ids ApexSamples.frame_of_strings reverse
         ApexSamples.players "americas" 10 5 false
         (Samples.start ApexSamples.ids_api)).2
  = ApexSamples.ids_api ∧
  (requests_made (Samples.start ApexSamples.ids_api)
     (get_apex_tiers_match_ids ApexSamples.frame_of_strings reverse
        ApexSamples.players "americas" 10 5 false
        (Samples.start ApexSamples.ids_api)).2
   ≤ Z.to_nat 5 * 3)%nat ∧
  ∀ row, row ∈ ApexSamples.deduplicated →
    ∃ puuid body ids,
      puuid ∈ ApexSamples.players ∧
      answered
        (get_apex_tiers_match_ids ApexSamples.frame_of_strings reverse
           ApexSamples.players "americas" 10 5 false
           (Samples.start ApexSamples.ids_api)).2
        0 (ids_url "americas" puuid) body ∧
      ApexSamples.frame_of_strings body = Some ids ∧
      row.2 ∈ ids.
Proof.
  apply (match_ids_come_from_listed_players ApexSamples.frame_of_strings
           reverse ApexSamples.players "americas" 10 5
           (Samples.start ApexSamples.ids_api)).
  vm_compute. reflexivity.
Defined.

(** X28. With [return_samples] a call that returns has the frame of the
    call without it, shuffled, and the dict of its four samples, as soon
    as one of its requests was answered by a 200: sample_1 is the slice of
    the rows 0 to 4999 of the shuffled frame, sample_2 of the rows 5000 to
    9999, sample_3 of the rows 10000 to 14999 and sample_4 of the rows
    15000 to 19999. One after the other they are the first 20000 rows: no
    id is in two samples, and every id is in one of them when there are at
    most 20000. When no request was answered by a 200, the call returns
    the empty frame alone, not a pair. *)
Theorem samples_are_slices
    (match_id_frame : JSON → option (list string))
    (sample : list (nat * string) → list (nat * string))
    (puuids : list string) (region : string) (delay max_retries : Z)
    (w w' : World) (r : MatchIds) :
  (∀ df, sample df ≡ₚ df) →
  get_apex_tiers_match_ids match_id_frame sample puuids region delay
    max_retries true w = (Done r, w') →
  ∃ df,
    get_apex_tiers_match_ids match_id_frame sample puuids region delay
      max_retries false w = (Done (Frame df), w') ∧
    (¬ some_200 w' (length (sent w)) → r = Frame [] ∧ df = []) ∧
    (some_200 w' (length (sent w)) →
     let s1 := iloc 0 (Z.to_nat 5000) (sample df) in
     let s2 := iloc (Z.to_nat 5000) (Z.to_nat 10000) (sample df) in
     let s3 := iloc (Z.to_nat 10000) (Z.to_nat 15000) (sample df) in
     let s4 := iloc (Z.to_nat 15000) (Z.to_nat 20000) (sample df) in
     r = Sampled (sample df)
           [("sample_1", s1); ("sample_2", s2);
            ("sample_3", s3); ("sample_4", s4)] ∧
     s1 ++ s2 ++ s3 ++ s4 = take (Z.to_nat 20000) (sample df) ∧
     NoDup (map snd (s1 ++ s2 ++ s3 ++ s4)) ∧
     ((length df ≤ Z.to_nat 20000)%nat → s1 ++ s2 ++ s3 ++ s4 ≡ₚ df)).
Proof.
  intros Hperm Hrun.
  destruct (frame_inv _ _ _ _ _ _ _ _ _ _ Hrun) as [l Hc].
  eexists. split; [by apply frame_of_collect|].
  unfold get_apex_tiers_match_ids in Hrun. rewrite Hc in Hrun.
  destruct l as [|ids l].
  { injection Hrun as <-. split; [done|]. intros Hsome.
    by destruct (collect_quiet _ _ _ _ _ _ _ _ _ Hc eq_refl). }
  injection Hrun as <-. split.
  { intros Hnone. destruct Hnone.
    apply collect_inv in Hc as (_ & _ & new & Hnew & Hall).
    cbn [app] in Hnew. subst new.
    apply Forall_cons in Hall as [(puuid & body & _ & Ha) _].
    destruct Ha as [(i & Hi & Hsent & Hnet) _].
    exists i, (ids_url region puuid). split; [done|]. split; [done|].
    by rewrite Hnet. }
  intros _.
  set (df := drop_duplicates (imap (λ i x, (i, x)) (concat (ids :: l)))).
  intros s1 s2 s3 s4.
  assert (Hall : s1 ++ s2 ++ s3 ++ s4 = take (Z.to_nat 20000) (sample df)).
  { unfold s1, s2, s3, s4.
    rewrite (iloc_app (Z.to_nat 10000)) by lia.
    rewrite (iloc_app (Z.to_nat 5000)) by lia.
    rewrite (iloc_app 0) by lia.
    unfold iloc. by rewrite Nat.sub_0_r. }
  split; [done|]. split; [exact Hall|]. split.
  - rewrite Hall. change (map snd ?x) with (snd <$> x). rewrite fmap_take.
    eapply sublist_NoDup; [|apply sublist_take].
    rewrite (Hperm df). apply keep_first_NoDup.
  - intros Hle. rewrite Hall, take_ge; [apply Hperm|].
    by rewrite (Hperm df).
Qed.

(** A run in which two players answer: the three distinct ids, in the
    order of the shuffle, make up sample_1. *)
Lemma samples_are_slices_witness :
  get_apex_tiers_match_ids ApexSamples.frame_of_strings reverse
    ApexSamples.players "americas" 10 5 true
    (Samples.start ApexSamples.ids_api)
  = (Done (Sampled (reverse ApexSamples.deduplicated)
             [("sample_1", reverse ApexSamples.deduplicated);
              ("sample_2", []); ("sample_3", []); ("sample_4", [])]),
     mkWorld ApexSamples.ids_api
       [ids_url "americas" "p1"; ids_url "americas" "p1";
        ids_url "americas" "p2"; ids_url "americas" "p3"] 10) ∧
  ∃ df,
    get_apex_tiers_match_ids ApexSamples.frame_of_strings reverse
      ApexSamples.players "americas" 10 5 false
      (Samples.start ApexSamples.ids_api)
    = (Done (Frame df),
       mkWorld ApexSamples.ids_api
         [ids_url "americas" "p1"; ids_url "americas" "p1";
          ids_url "americas" "p2"; ids_url "americas" "p3"] 10) ∧
    iloc 0 (Z.to_nat 5000) (reverse df) ++
    iloc (Z.to_nat 5000) (Z.to_nat 10000) (reverse df) ++
    iloc (Z.to_nat 10000) (Z.to_nat 15000) (reverse df) ++
    iloc (Z.to_nat 15000) (Z.to_nat 20000) (reverse df)
    = take (Z.to_nat 20000) (reverse df).
Proof.
  assert (Hrun :
    get_apex_tiers_match_ids ApexSamples.frame_of_strings reverse
      ApexSamples.players "americas" 10 5 true
      (Samples.start ApexSamples.ids_api)
    = (Done (Sampled (reverse ApexSamples.deduplicated)
               [("sample_1", reverse ApexSamples.deduplicated);
                ("sample_2", []); ("sample_3", []); ("sample_4", [])]),
       mkWorld ApexSamples.ids_api
         [ids_url "americas" "p1"; ids_url "americas" "p1";
          ids_url "americas" "p2"; ids_url "americas" "p3"] 10)).
  { vm_compute. reflexivity. }
  split; [exact Hrun|].
  destruct (samples_are_slices ApexSamples.frame_of_strings reverse
              ApexSamples.players "americas" 10 5
              (Samples.start ApexSamples.ids_api) _ _
              (λ df, reverse_Permutation df) Hrun)
    as (df & Hframe & _ & Hsome).
  exists df. split; [exact Hframe|].
  apply Hsome. exists 1%nat, (ids_url "americas" "p1").
  split; [cbn; lia|]. split; reflexivity.
Defined.

(** X29. [get_apex_puuids_ids] makes one request for each tier, in the
    order challenger, grandmaster, master: it never repeats a request and
    never sleeps, whatever the replies are, and a call that returns has
    made all three. When no tier answers with a 200 it returns the empty
    list. When a tier answers with a 200 and no frame has the column
    puuid, as for leagues without entries, it raises [KeyError]
    instead. *)
Theorem one_request_for_each_tier
    (json_normalize : JSON → option Entries) (region : string) (w : World) :
  let endpoints := tier_endpoints region in
  let run := get_apex_puuids_ids json_normalize region w in
  (∃ k, (k ≤ 3)%nat ∧
     run.2 = mkWorld (net w) (sent w ++ take k (map snd endpoints))
               (slept w) ∧
     ∀ puuids, run.1 = Done puuids → k = 3%nat) ∧
  ((∀ i tier, endpoints !! i = Some tier →
      status_code (net w (length (sent w) + i) tier.2) ≠ 200) →
   run.1 = Done []) ∧
  (∀ i0 e0,
     tier_frame json_normalize w endpoints i0 e0 →
     (∀ i tier body, endpoints !! i = Some tier →
        net w (length (sent w) + i) tier.2 = mkResponse 200 body →
        ∃ e, tier_frame json_normalize w endpoints i e ∧ puuid e = None) →
     run.1 = Failed (Builtin KeyError)).
Proof.
  intros endpoints run. subst endpoints run.
  destruct (puuids_run json_normalize region w) as (k & r & Hloop & Hk & Hr).
  split; [|split].
  - exists k. split; [done|]. unfold get_apex_puuids_ids.
    rewrite Hloop. split.
    + destruct r as [[|e all']|e]; [done| |done].
      by destruct (combined_puuid (e :: all')).
    + intros puuids. destruct r as [all'|e]; [by destruct Hr|done].
  - intros Hno.
    destruct (tiers_loop_total json_normalize (tier_endpoints region) [] w)
      as [all' Hd].
    { intros i tier body Ht Hnet. exfalso. apply (Hno i tier Ht).
      by rewrite Hnet. }
    unfold get_apex_puuids_ids. rewrite Hloop in Hd |- *. cbn [fst] in Hd. subst r.
    destruct all' as [|e all']; [done|]. exfalso.
    destruct Hr as [_ Hr].
    destruct (proj1 (Hr e) ltac:(by left))
      as (i & t & b & raw & Ht & Hnet & _).
    apply (Hno i t Ht). by rewrite Hnet.
  - intros i0 e0 H0 Hall.
    destruct (tiers_loop_total json_normalize (tier_endpoints region) [] w)
      as [all' Hd].
    { intros i tier body Ht Hnet.
      destruct (Hall i tier body Ht Hnet) as (e & He & _). by exists e. }
    unfold get_apex_puuids_ids. rewrite Hloop in Hd |- *. cbn [fst] in Hd. subst r.
    destruct Hr as [_ Hr].
    assert (Hin : e0 ∈ all') by (apply Hr; by exists i0).
    assert (Hnone : Forall (λ f, puuid f = None) all').
    { apply Forall_forall. intros e He.
      apply Hr in He as (i & Hi).
      pose proof Hi as (t & b & raw & Ht & Hnet & _).
      destruct (Hall i t (Some b) Ht Hnet) as (e' & He' & Hp).
      by rewrite (tier_frame_functional _ _ _ _ _ _ Hi He'). }
    destruct all' as [|e all']; [by apply elem_of_nil in Hin|].
    unfold combined_puuid. by rewrite bool_decide_eq_true_2.
Qed.

Lemma one_request_for_each_tier_witness :
  (get_apex_puuids_ids ApexSamples.frame_of_entries "na1"
     (Samples.start ApexSamples.empty_api)).1
  = Failed (Builtin KeyError).
Proof.
  destruct (one_request_for_each_tier ApexSamples.frame_of_entries "na1"
              (Samples.start ApexSamples.empty_api)) as (_ & _ & Hkey).
  apply (Hkey 0%nat (mkEntries 0 None)).
  - eexists _, _, _. split; [reflexivity|]. split; [reflexivity|].
    split; reflexivity.
  - intros i tier body Ht Hnet. exists (mkEntries 0 None).
    split; [|reflexivity].
    exists tier, (JObj [("tier", JStr "X"); ("entries", JArr [])]), (JArr []).
    split; [done|]. split; [reflexivity|]. split; reflexivity.
Defined.

(** X30. The puuids a call returns are pairwise distinct, and they are
    exactly the puuids that are not missing in the frame of a tier that
    answered with a 200; a tier that answered otherwise is left out. *)
Theorem puuids_are_the_distinct_ones
    (json_normalize : JSON → option Entries) (region : string) (w : World)
    (puuids : list string) :
  (get_apex_puuids_ids json_normalize region w).1 = Done puuids →
  NoDup puuids ∧
  ∀ p, p ∈ puuids ↔
       ∃ i e col,
         tier_frame json_normalize w (tier_endpoints region) i e ∧
         puuid e = Some col ∧ Some p ∈ col.
Proof.
  destruct (puuids_run json_normalize region w) as (k & r & Hloop & Hk & Hr).
  unfold get_apex_puuids_ids. rewrite Hloop.
  destruct r as [all'|err]; [|done]. destruct Hr as [_ Hr].
  destruct all' as [|e0 all'].
  { intros [= <-]. split; [constructor|]. intros p.
    split; [by intros ?%elem_of_nil|].
    intros (i & e & col & He & _).
    assert (e ∈ []) as Hin by (apply Hr; by exists i).
    by apply elem_of_nil in Hin. }
  destruct (combined_puuid (e0 :: all')) as [col|err] eqn:Hcol; [|done].
  intros [= <-]. split; [apply unique_NoDup|].
  intros p. rewrite unique_elem, dropna_elem.
  rewrite (combined_puuid_elem _ _ _ Hcol). split.
  - intros (e & c & He & Hc & Hp). apply Hr in He as [i Hi].
    by exists i, e, c.
  - intros (i & e & c & Hi & Hc & Hp). exists e, c.
    split; [apply Hr; by exists i|done].
Qed.

Lemma puuids_are_the_distinct_ones_witness :
  NoDup ["a"; "b"; "c"] ∧
  ∀ p, p ∈ ["a"; "b"; "c"] ↔
       ∃ i e col,
         tier_frame ApexSamples.frame_of_entries
           (Samples.start ApexSamples.league_api) (tier_endpoints "na1")
           i e ∧
         puuid e = Some col ∧ Some p ∈ col.
Proof.
  apply (puuids_are_the_distinct_ones ApexSamples.frame_of_entries "na1"
           (Samples.start ApexSamples.league_api) ["a"; "b"; "c"]).
  vm_compute. reflexivity.
Defined.

End apex_results.
